(** * Plot-aggregation engines of the InterOp library

    A shallow embedding of [interop/logic/plot/plot_by_lane.h],
    [interop/logic/plot/plot_qscore_heatmap.h] and
    [apps/inc/application.h].

    - C++ [float] is IEEE-754 binary32, every operation rounded to
      binary32 with round-to-nearest-even (as SSE and AArch64 code
      does): [spec_float] at precision 24 and exponent bound 128.
    - [std::vector] is a [list] read with stdpp's lookup and written with
      its insert; an index past the end, which the C++ leaves
      undefined or reports by exception, ends the computation with
      [IndexOutOfBounds].
    - Exceptions are the [Err] branch of [result]. *)

From Stdlib Require Import ZArith NArith List String Bool Lia SpecFloat.
From stdpp Require Import base list.
Import ListNotations.

Local Open Scope nat_scope.

(** ** Failures *)

Inductive error : Type :=
| IndexOutOfBounds
| InvalidArgument
| AssertionFailed.

Inductive result (A : Type) : Type :=
| Ok (a : A)
| Err (e : error).
Arguments Ok {A} a.
Arguments Err {A} e.

Definition bind {A B : Type} (m : result A) (k : A -> result B) : result B :=
  match m with
  | Ok a => k a
  | Err e => Err e
  end.

Declare Scope result_scope.
Delimit Scope result_scope with result.
Notation "'do' x <- m ; k" := (bind m (fun x => k))
  (at level 10, x name, m at level 100, k at level 200) : result_scope.
Local Open Scope result_scope.

(** [v[i]] on a [std::vector]. *)
Definition at_index {A : Type} (v : list A) (i : nat) : result A :=
  match v !! i with
  | Some a => Ok a
  | None => Err IndexOutOfBounds
  end.

(** [x - 1] on an unsigned 1-based coordinate. Zero wraps around to the
    largest value of the type, which is past the end of every container:
    [None] stands for that index. *)
Definition pred_index (x : nat) : option nat :=
  match x with
  | O => None
  | S i => Some i
  end.

(** ** binary32 arithmetic *)

Module F32.

Definition prec : Z := 24.
Definition emax : Z := 128.

Definition float32 : Type := spec_float.

Definition add : float32 -> float32 -> float32 := SFadd prec emax.
Definition mul : float32 -> float32 -> float32 := SFmul prec emax.
Definition div : float32 -> float32 -> float32 := SFdiv prec emax.
Definition ltb : float32 -> float32 -> bool := SFltb.
Definition leb : float32 -> float32 -> bool := SFleb.
Definition eqb : float32 -> float32 -> bool := SFeqb.

(** [std::isnan] *)
Definition isnan (x : float32) : bool :=
  match x with
  | S754_nan => true
  | _ => false
  end.

(** [std::max(a, b)], which is [(a < b) ? b : a]. *)
Definition max (a b : float32) : float32 := if ltb a b then b else a.

(** Conversion of an integer to [float], rounding to nearest even. *)
Definition of_Z (z : Z) : float32 := binary_normalize prec emax z 0 false.
Definition of_N (n : N) : float32 := of_Z (Z.of_N n).
Definition of_nat (n : nat) : float32 := of_Z (Z.of_nat n).

Definition zero : float32 := S754_zero false.

(** The literal [1.2f]. *)
Definition lit_1_2 : float32 := S754_finite false 10066330 (-23).

(** The integer a float denotes, when it is finite and integral. *)
Definition to_Z (x : float32) : option Z :=
  match x with
  | S754_zero _ => Some 0%Z
  | S754_finite s m e =>
      let v :=
        match e with
        | Zneg p =>
            if (Z.pos m mod 2 ^ Z.pos p =? 0)%Z
            then Some (Z.pos m / 2 ^ Z.pos p)%Z else None
        | _ => Some (Z.pos m * 2 ^ e)%Z
        end in
      option_map (fun z => if s then (- z)%Z else z) v
  | _ => None
  end.

End F32.

Abbreviation float32 := F32.float32.

Arguments F32.add : simpl never.
Arguments F32.mul : simpl never.
Arguments F32.div : simpl never.
Arguments F32.max : simpl never.
Arguments F32.of_Z : simpl never.
Arguments F32.of_N : simpl never.
Arguments F32.of_nat : simpl never.

(** ** Metric sets *)

(** Modelled from the spec: the bin type is outside the embedded sources;
    a q-score bin has [lower()], [upper()] and [value()], unsigned and
    1-based. *)
Record q_score_bin : Type := {
  lower : nat;
  upper : nat;
  value : nat
}.

(** Modelled from the spec: [metric_set.h] is outside the embedded
    sources; a metric set is the ordered sequence of its records together
    with the metadata the plot code reads from it ([max_lane()],
    [max_cycle()], [bins()]). *)
Record metric_set (M : Type) : Type := {
  records : list M;
  max_lane : nat;
  max_cycle : nat;
  bins : list q_score_bin
}.
Arguments records {M} _.
Arguments max_lane {M} _.
Arguments max_cycle {M} _.
Arguments bins {M} _.

(** [metrics.size()] *)
Definition set_size {M : Type} (s : metric_set M) : nat := length (records s).

(** ** The metric types the plot code tells apart *)

Inductive metric_type : Type :=
| ClusterCount
| ClusterCountPF
| Density
| DensityPF
| PercentPhasing
| PercentPrephasing
| OtherMetric (tag : nat).

Definition metric_type_eqb (a b : metric_type) : bool :=
  match a, b with
  | ClusterCount, ClusterCount
  | ClusterCountPF, ClusterCountPF
  | Density, Density
  | DensityPF, DensityPF
  | PercentPhasing, PercentPhasing
  | PercentPrephasing, PercentPrephasing => true
  | OtherMetric x, OtherMetric y => Nat.eqb x y
  | _, _ => false
  end.

(** ** Interfaces the plot code is written against

    The engines are templates over the record, option and point types.
    The headers declaring those types are outside the embedded sources,
    so each interface lists what the engines call on it. *)

(** A tile record: [lane()]. *)
Class TileRecord (M : Type) : Type := {
  lane : M -> nat
}.

(** A q-score record: [cycle()] and the histogram behind [size()] and
    [qscore_hist(i)], whose entries are counts. *)
Class QRecord (M : Type) : Type := {
  cycle : M -> nat;
  qscore_hist : M -> list N
}.

(** [filter_options]: the accessors the engines read. *)
Class FilterOptions (O : Type) : Type := {
  read : O -> nat;
  is_specific_read : O -> metric_type -> bool;
  is_specific_surface : O -> bool;
  read_description : O -> string;
  surface_description : O -> string;
  lane_description : O -> string
}.

(** [options.valid_tile(record)] for one record type. *)
Class TileFilter (O M : Type) : Type := {
  valid_tile : O -> M -> bool
}.

(** A point type with the candle-stick reduction of [plot_point.h]:
    [plot_candle_stick(point, beg, end, x, outliers)] receives the point
    to fill, the values of one lane, the x coordinate and the shared
    outlier buffer, and leaves the filled point and the buffer. *)
Class CandlePoint (P : Type) : Type := {
  default_point : P;
  plot_candle_stick :
    P -> list float32 -> float32 -> list float32 -> P * list float32
}.

(** ** Candle sticks by lane: [plot_by_lane.h] *)

Section CandleStickByLane.

Context {Metric Options Point : Type}.
Context `{!TileRecord Metric, !TileFilter Options Metric, !CandlePoint Point}.

(** The value proxy, [proxy] applied to a record and a type. *)
Variable proxy : Metric -> metric_type -> float32.

(** [tile_by_lane[b->lane()-1].push_back(val)] *)
Definition push_back_lane (tile_by_lane : list (list float32))
    (b : Metric) (val : float32) : result (list (list float32)) :=
  match pred_index (lane b) with
  | Some i =>
      do bucket <- at_index tile_by_lane i;
      Ok (<[i := bucket ++ [val]]> tile_by_lane)
  | None => Err IndexOutOfBounds
  end.

(** The first loop, over the records of the set. *)
Fixpoint fill_lanes (options : Options) (type : metric_type)
    (rs : list Metric) (tile_by_lane : list (list float32))
    : result (list (list float32)) :=
  match rs with
  | [] => Ok tile_by_lane
  | b :: rest =>
      if negb (valid_tile options b) then
        fill_lanes options type rest tile_by_lane
      else
        let val := proxy b type in
        if F32.isnan val then fill_lanes options type rest tile_by_lane
        else
          do tile_by_lane' <- push_back_lane tile_by_lane b val;
          fill_lanes options type rest tile_by_lane'
  end.

(** The second loop; [buckets] is [tile_by_lane] from index [i] on. *)
Fixpoint emit_points (buckets : list (list float32)) (i : nat)
    (points : list Point) (offset : nat) (outliers : list float32)
    : result (list Point * nat) :=
  match buckets with
  | [] => Ok (points, offset)
  | bucket :: rest =>
      match bucket with
      | [] => emit_points rest (S i) points offset outliers
      | _ :: _ =>
          let lane_x := F32.of_nat (i + 1) in
          do p <- at_index points offset;
          let '(p', outliers') :=
            plot_candle_stick p bucket lane_x outliers in
          emit_points rest (S i) (<[offset := p']> points) (S offset)
            outliers'
      end
  end.

(** [populate_candle_stick_by_lane]. [tile_count], the rounded-up ratio
    of the set size to [lane_count], is only a capacity hint for
    [reserve]; capacity hints do not change any value and are left out. *)
Definition populate_candle_stick_by_lane (metrics : metric_set Metric)
    (options : Options) (type : metric_type) (points : list Point)
    : result (list Point) :=
  let lane_count := max_lane metrics in
  let tile_by_lane := replicate (max_lane metrics) ([] : list float32) in
  do tile_by_lane' <- fill_lanes options type (records metrics) tile_by_lane;
  let points1 := resize lane_count default_point points in
  do r <- emit_points tile_by_lane' 0 points1 0 [];
  let '(points2, offset) := r in
  Ok (resize offset default_point points2).

(** *** The vocabulary of the claims *)

(** A record contributes a value: it passes the filter and its proxy
    value is a number. *)
Definition contributes (options : Options) (type : metric_type)
    (b : Metric) : bool :=
  valid_tile options b && negb (F32.isnan (proxy b type)).

(** The values of lane [l] (1-based), in record order. *)
Definition lane_values (options : Options) (type : metric_type)
    (rs : list Metric) (l : nat) : list float32 :=
  map (fun b => proxy b type)
    (filter (fun b => contributes options type b = true /\ lane b = l) rs).

(** The lanes that have at least one value, in increasing order. *)
Definition lanes_with_values (options : Options) (type : metric_type)
    (metrics : metric_set Metric) : list nat :=
  filter (fun l => lane_values options type (records metrics) l <> [])
    (seq 1 (max_lane metrics)).

(** Every record that contributes a value sits in a lane of the set. *)
Definition lanes_in_range (options : Options) (type : metric_type)
    (metrics : metric_set Metric) : Prop :=
  forall b, b ∈ records metrics -> contributes options type b = true ->
    1 <= lane b <= max_lane metrics.

End CandleStickByLane.

(** ** The plot-data shell *)

(** Modelled from the spec: [series.h] is absent; a series is
    "(title, color, ordered points)". *)
Record series (P : Type) : Type := {
  series_title : string;
  series_color : string;
  series_points : list P
}.
Arguments series_title {P} _.
Arguments series_color {P} _.
Arguments series_points {P} _.

(** Modelled from the spec: [plot_data.h] is absent; plot data is "one or
    more series, plus (x-range, y-range, x-label, y-label, title)". *)
Record plot_data (P : Type) : Type := {
  data_series : list (series P);
  x_range : float32 * float32;
  y_range : float32 * float32;
  x_label : string;
  y_label : string;
  title : string
}.
Arguments data_series {P} _.
Arguments x_range {P} _.
Arguments y_range {P} _.
Arguments x_label {P} _.
Arguments y_label {P} _.
Arguments title {P} _.

(** Modelled from the spec: [assign], [set_xrange], [set_yrange] and the
    setters of the labels and the title each replace one component of the
    plot data. *)
Definition set_series {P : Type} (ss : list (series P)) (d : plot_data P)
    : plot_data P :=
  {| data_series := ss; x_range := x_range d; y_range := y_range d;
     x_label := x_label d; y_label := y_label d; title := title d |}.

Definition set_xrange {P : Type} (lo hi : float32) (d : plot_data P)
    : plot_data P :=
  {| data_series := data_series d; x_range := (lo, hi); y_range := y_range d;
     x_label := x_label d; y_label := y_label d; title := title d |}.

Definition set_yrange {P : Type} (lo hi : float32) (d : plot_data P)
    : plot_data P :=
  {| data_series := data_series d; x_range := x_range d; y_range := (lo, hi);
     x_label := x_label d; y_label := y_label d; title := title d |}.

Definition set_xlabel {P : Type} (l : string) (d : plot_data P)
    : plot_data P :=
  {| data_series := data_series d; x_range := x_range d; y_range := y_range d;
     x_label := l; y_label := y_label d; title := title d |}.

Definition set_ylabel {P : Type} (l : string) (d : plot_data P)
    : plot_data P :=
  {| data_series := data_series d; x_range := x_range d; y_range := y_range d;
     x_label := x_label d; y_label := l; title := title d |}.

Definition set_title {P : Type} (t : string) (d : plot_data P)
    : plot_data P :=
  {| data_series := data_series d; x_range := x_range d; y_range := y_range d;
     x_label := x_label d; y_label := y_label d; title := t |}.

(** Free functions of the library that [plot_by_lane] calls:
    [utils::to_description], the constructor of the value proxy
    [metric::metric_value<tile_metric>(read)], the ranges [auto_scale]
    derives, and the name table of [constants::parse<metric_type>]. *)
Class PlotHelpers (TM P : Type) : Type := {
  to_description : metric_type -> string;
  metric_value : nat -> TM -> metric_type -> float32;
  scale_ranges :
    list (series P) -> bool -> float32 ->
    (float32 * float32) * (float32 * float32);
  metric_type_of_name : string -> option metric_type
}.

(** Modelled from the spec: [auto_scale] is absent; it "computes x- and
    y-ranges from contained points" and stores them. *)
Definition auto_scale {TM P : Type} `{!PlotHelpers TM P}
    (scale_x : bool) (scale_y : float32) (d : plot_data P) : plot_data P :=
  let '(xr, yr) := scale_ranges (data_series d) scale_x scale_y in
  set_yrange (fst yr) (snd yr) (set_xrange (fst xr) (snd xr) d).

(** Modelled from the spec: [constants::parse<metric_type>] of [enums.h]
    is absent; it is "failing with invalid-argument when unknown". *)
Definition parse_metric_type {TM P : Type} `{!PlotHelpers TM P}
    (name : string) : result metric_type :=
  match metric_type_of_name name with
  | Some t => Ok t
  | None => Err InvalidArgument
  end.

(** ** Run metrics

    [run_metrics.h] is absent: the sets [get_set<M>()] returns and the
    flowcell description of [run_info()]. *)
Record run_metrics (TM QM QLM : Type) : Type := {
  tile_metrics : metric_set TM;
  q_metrics : metric_set QM;
  q_by_lane_metrics : metric_set QLM;
  barcode : string;
  surface_count : nat
}.
Arguments tile_metrics {TM QM QLM} _.
Arguments q_metrics {TM QM QLM} _.
Arguments q_by_lane_metrics {TM QM QLM} _.
Arguments barcode {TM QM QLM} _.
Arguments surface_count {TM QM QLM} _.

(** [title] is not the empty string. *)
Definition nonempty (s : string) : bool :=
  match s with
  | EmptyString => false
  | String _ _ => true
  end.

Section PlotByLane.

Context {TM QM QLM Options Point : Type}.
Context `{!TileRecord TM, !TileFilter Options TM, !FilterOptions Options,
          !CandlePoint Point, !PlotHelpers TM Point}.

(** [populate_candle_stick_by_lane(..., data[k])] *)
Definition populate_series (metrics : metric_set TM)
    (proxy : TM -> metric_type -> float32) (options : Options)
    (type : metric_type) (k : nat) (data : plot_data Point)
    : result (plot_data Point) :=
  do s <- at_index (data_series data) k;
  do points <-
    populate_candle_stick_by_lane proxy metrics options type (series_points s);
  let s' := {| series_title := series_title s;
               series_color := series_color s;
               series_points := points |} in
  Ok (set_series (<[k := s']> (data_series data)) data).

(** The title of [plot_by_lane]. *)
Definition by_lane_title (metrics : run_metrics TM QM QLM)
    (type : metric_type) (options : Options) : string :=
  let title0 := barcode metrics in
  let title1 :=
    if is_specific_read options type then
      ((if nonempty title0 then title0 ++ " " else title0)
         ++ read_description options)%string
    else title0 in
  if (1 <? surface_count metrics) && is_specific_surface options then
    ((if nonempty title1 then title1 ++ " " else title1)
       ++ surface_description options)%string
  else title1.

(** [plot_by_lane] with the metric type given as an enum value. *)
Definition plot_by_lane (metrics : run_metrics TM QM QLM)
    (type : metric_type) (options : Options) (data : plot_data Point)
    : result (plot_data Point) :=
  let data :=
    set_series
      [ {| series_title := to_description type; series_color := "Blue";
           series_points := [] |} ] data in
  let proxy3 := metric_value (read options) in
  do data <- populate_series (tile_metrics metrics) proxy3 options type 0 data;
  do data <-
    (if metric_type_eqb type ClusterCount || metric_type_eqb type Density then
       let data :=
         set_series
           (data_series data ++
              [ {| series_title := "PF"; series_color := "DarkGreen";
                   series_points := [] |} ]) data in
       let second_type :=
         if metric_type_eqb type Density then DensityPF else ClusterCountPF in
       populate_series (tile_metrics metrics) proxy3 options second_type 1 data
     else Ok data);
  let data := auto_scale true F32.lit_1_2 data in
  let data :=
    if metric_type_eqb type PercentPrephasing
       || metric_type_eqb type PercentPhasing
    then set_yrange (F32.of_Z 0) (F32.of_Z 1) data
    else data in
  let data :=
    set_xrange (F32.of_Z 0) (F32.add (snd (x_range data)) (F32.of_Z 1)) data in
  let data := set_xlabel "Lane" data in
  let data := set_ylabel (to_description type) data in
  Ok (set_title (by_lane_title metrics type options) data).

(** [plot_by_lane] with the metric type given by name. *)
Definition plot_by_lane_named (metrics : run_metrics TM QM QLM)
    (metric_name : string) (options : Options) (data : plot_data Point)
    : result (plot_data Point) :=
  do type <- parse_metric_type metric_name;
  plot_by_lane metrics type options data.

End PlotByLane.

(** ** The q-score heat map: [plot_qscore_heatmap.h] *)

(** Modelled from the spec: [heatmap_data.h] is absent; the heat map is a
    "dense matrix M[row, col]", stored row-major, with "(row_count,
    column_count) and axis metadata". *)
Record heatmap_data : Type := {
  row_count : nat;
  column_count : nat;
  cells : list float32;
  heat_x_range : float32 * float32;
  heat_y_range : float32 * float32;
  heat_x_label : string;
  heat_y_label : string;
  heat_title : string
}.

Definition with_cells (cs : list float32) (d : heatmap_data) : heatmap_data :=
  {| row_count := row_count d; column_count := column_count d; cells := cs;
     heat_x_range := heat_x_range d; heat_y_range := heat_y_range d;
     heat_x_label := heat_x_label d; heat_y_label := heat_y_label d;
     heat_title := heat_title d |}.

(** Modelled from the spec: [clear()] leaves an empty heat map without
    axis metadata. *)
Definition heatmap_clear (d : heatmap_data) : heatmap_data :=
  {| row_count := 0; column_count := 0; cells := [];
     heat_x_range := (F32.zero, F32.zero);
     heat_y_range := (F32.zero, F32.zero);
     heat_x_label := EmptyString; heat_y_label := EmptyString;
     heat_title := EmptyString |}.

(** Modelled from the spec: [resize(rows, cols)] makes the matrix
    [rows] by [cols]; cells the matrix did not have before are zero. *)
Definition heatmap_resize (rows cols : nat) (d : heatmap_data)
    : heatmap_data :=
  {| row_count := rows; column_count := cols;
     cells := resize (rows * cols) F32.zero (cells d);
     heat_x_range := heat_x_range d; heat_y_range := heat_y_range d;
     heat_x_label := heat_x_label d; heat_y_label := heat_y_label d;
     heat_title := heat_title d |}.

(** Modelled from the spec: the position of [M[row, col]] in the
    row-major store; "out-of-range index" is an invalid-input failure.
    A coordinate that wrapped around is out of range. *)
Definition index_of (d : heatmap_data) (row col : option nat) : result nat :=
  match row, col with
  | Some r, Some c =>
      if (r <? row_count d) && (c <? column_count d)
      then Ok (r * column_count d + c)
      else Err IndexOutOfBounds
  | _, _ => Err IndexOutOfBounds
  end.

(** Reading [data(row, col)]. *)
Definition heatmap_at (d : heatmap_data) (row col : option nat)
    : result float32 :=
  do i <- index_of d row col;
  at_index (cells d) i.

(** [data(row, col) = v] *)
Definition heatmap_set (d : heatmap_data) (row col : option nat)
    (v : float32) : result heatmap_data :=
  do i <- index_of d row col;
  do _old <- at_index (cells d) i;
  Ok (with_cells (<[i := v]> (cells d)) d).

Definition heat_set_xrange (lo hi : float32) (d : heatmap_data)
    : heatmap_data :=
  {| row_count := row_count d; column_count := column_count d;
     cells := cells d;
     heat_x_range := (lo, hi); heat_y_range := heat_y_range d;
     heat_x_label := heat_x_label d; heat_y_label := heat_y_label d;
     heat_title := heat_title d |}.

Definition heat_set_yrange (lo hi : float32) (d : heatmap_data)
    : heatmap_data :=
  {| row_count := row_count d; column_count := column_count d;
     cells := cells d;
     heat_x_range := heat_x_range d; heat_y_range := (lo, hi);
     heat_x_label := heat_x_label d; heat_y_label := heat_y_label d;
     heat_title := heat_title d |}.

Definition heat_set_xlabel (l : string) (d : heatmap_data) : heatmap_data :=
  {| row_count := row_count d; column_count := column_count d;
     cells := cells d;
     heat_x_range := heat_x_range d; heat_y_range := heat_y_range d;
     heat_x_label := l; heat_y_label := heat_y_label d;
     heat_title := heat_title d |}.

Definition heat_set_ylabel (l : string) (d : heatmap_data) : heatmap_data :=
  {| row_count := row_count d; column_count := column_count d;
     cells := cells d;
     heat_x_range := heat_x_range d; heat_y_range := heat_y_range d;
     heat_x_label := heat_x_label d; heat_y_label := l;
     heat_title := heat_title d |}.

Definition heat_set_title (t : string) (d : heatmap_data) : heatmap_data :=
  {| row_count := row_count d; column_count := column_count d;
     cells := cells d;
     heat_x_range := heat_x_range d; heat_y_range := heat_y_range d;
     heat_x_label := heat_x_label d; heat_y_label := heat_y_label d;
     heat_title := t |}.

(** [for (size_t i = start; i < start + count; ++i) body] *)
Fixpoint for_range {S : Type} (count start : nat)
    (body : nat -> S -> result S) (s : S) : result S :=
  match count with
  | O => Ok s
  | Datatypes.S count' =>
      do s' <- body start s;
      for_range count' (Datatypes.S start) body s'
  end.

(** [for (; beg != end; ++beg) body] *)
Fixpoint for_each {A S : Type} (l : list A)
    (body : A -> S -> result S) (s : S) : result S :=
  match l with
  | [] => Ok s
  | a :: rest =>
      do s' <- body a s;
      for_each rest body s'
  end.

Section Heatmap.

Context {M Options : Type}.
Context `{!QRecord M, !TileFilter Options M}.

(** [data(beg->cycle()-1, col) += beg->qscore_hist(bin)] *)
Definition add_count (b : M) (bin : nat) (col : option nat)
    (data : heatmap_data) : result heatmap_data :=
  do count <- at_index (qscore_hist b) bin;
  do old <- heatmap_at data (pred_index (cycle b)) col;
  heatmap_set data (pred_index (cycle b)) col (F32.add old (F32.of_N count)).

(** [populate_heatmap_from_compressed] *)
Definition populate_heatmap_from_compressed (rs : list M)
    (bins : list q_score_bin) (options : Options) (data : heatmap_data)
    : result heatmap_data :=
  for_each rs
    (fun b data =>
       if negb (valid_tile options b) then Ok data
       else
         for_range (length bins) 0
           (fun bin data =>
              do q <- at_index bins bin;
              add_count b bin (pred_index (value q)) data)
           data)
    data.

(** [populate_heatmap_from_uncompressed] *)
Definition populate_heatmap_from_uncompressed (rs : list M)
    (options : Options) (data : heatmap_data) : result heatmap_data :=
  for_each rs
    (fun b data =>
       if negb (valid_tile options b) then Ok data
       else
         for_range (length (qscore_hist b)) 0
           (fun bin data => add_count b bin (Some bin) data)
           data)
    data.

End Heatmap.

(** The first pass of [normalize_heatmap]: the running maximum. *)
Definition heatmap_max (data : heatmap_data) : result float32 :=
  for_range (row_count data) 0
    (fun r max_value =>
       for_range (column_count data) 0
         (fun c max_value =>
            do x <- heatmap_at data (Some r) (Some c);
            Ok (F32.max max_value x))
         max_value)
    F32.zero.

(** [normalize_heatmap] *)
Definition normalize_heatmap (data : heatmap_data) : result heatmap_data :=
  do max_value <- heatmap_max data;
  for_range (row_count data) 0
    (fun r data =>
       for_range (column_count data) 0
         (fun c data =>
            do x <- heatmap_at data (Some r) (Some c);
            heatmap_set data (Some r) (Some c)
              (F32.div (F32.mul (F32.of_Z 100) x) max_value))
         data)
    data.

(** The first column of a bin in [remap_to_bins]:
    [std::max(0, beg->lower()-1)], computed on [int]. *)
Definition first_column (q : q_score_bin) : nat :=
  Z.to_nat (Z.max 0 (Z.of_nat (lower q) - 1)).

(** [remap_to_bins] *)
Definition remap_to_bins (bins : list q_score_bin) (max_cycle : nat)
    (data : heatmap_data) : result heatmap_data :=
  for_each bins
    (fun q data =>
       for_range (upper q - first_column q) (first_column q)
         (fun bin data =>
            for_range max_cycle 0
              (fun cycle data =>
                 do x <- heatmap_at data (Some cycle) (pred_index (value q));
                 heatmap_set data (Some cycle) (Some bin) x)
              data)
         data)
    data.

(** Free functions of [logic/metric/q_metric.h] that [populate_heatmap]
    calls on a q-metric set. *)
Class QSetHelpers (M : Type) : Type := {
  max_qval : metric_set M -> nat;
  is_compressed : metric_set M -> bool
}.

(** [create_q_metrics_by_lane(src, dst)], which leaves its result in
    [dst]. *)
Class QByLane (QM QLM : Type) : Type := {
  create_q_metrics_by_lane : metric_set QM -> metric_set QLM -> metric_set QLM
}.

(** [INTEROP_ASSERT] *)
Definition interop_assert (b : bool) : result unit :=
  if b then Ok tt else Err AssertionFailed.

Section PopulateHeatmap.

Context {M Options : Type}.
Context `{!QRecord M, !TileFilter Options M, !QSetHelpers M}.

(** [populate_heatmap] *)
Definition populate_heatmap (metric_set : metric_set M) (options : Options)
    (data : heatmap_data) : result heatmap_data :=
  let max_q_val := max_qval metric_set in
  let max_cycle := max_cycle metric_set in
  let data := heatmap_resize max_cycle max_q_val data in
  do _rows <- interop_assert (0 <? row_count data);
  do _cols <- interop_assert (0 <? column_count data);
  do data <-
    (if is_compressed metric_set then
       populate_heatmap_from_compressed (records metric_set)
         (bins metric_set) options data
     else
       populate_heatmap_from_uncompressed (records metric_set) options data);
  do data <- normalize_heatmap data;
  remap_to_bins (bins metric_set) max_cycle data.

End PopulateHeatmap.

Section PlotQScoreHeatmap.

Context {TM QM QLM Options : Type}.
Context `{!QRecord QM, !QRecord QLM, !FilterOptions Options,
          !TileFilter Options QM, !TileFilter Options QLM,
          !QSetHelpers QM, !QSetHelpers QLM, !QByLane QM QLM}.

(** [create_q_metrics_by_lane(metrics.get_set<q_metric>(),
    metrics.get_set<q_by_lane_metric>())] on the sets of the run metrics. *)
Definition derive_q_by_lane (metrics : run_metrics TM QM QLM)
    : run_metrics TM QM QLM :=
  {| tile_metrics := tile_metrics metrics;
     q_metrics := q_metrics metrics;
     q_by_lane_metrics :=
       create_q_metrics_by_lane (q_metrics metrics)
         (q_by_lane_metrics metrics);
     barcode := barcode metrics;
     surface_count := surface_count metrics |}.

(** The title of [plot_qscore_heatmap]. *)
Definition heatmap_title (metrics : run_metrics TM QM QLM)
    (options : Options) : string :=
  let title0 := barcode metrics in
  let title1 := if nonempty title0 then (title0 ++ " ")%string else title0 in
  let title2 := (title1 ++ lane_description options)%string in
  if (1 <? surface_count metrics) && is_specific_surface options then
    (title2 ++ (" " ++ surface_description options))%string
  else title2.

(** The axes, labels and title that end [plot_qscore_heatmap]. *)
Definition decorate_heatmap (metrics : run_metrics TM QM QLM)
    (options : Options) (data : heatmap_data) : heatmap_data :=
  let data := heat_set_xrange (F32.of_Z 0) (F32.of_nat (row_count data)) data in
  let data :=
    heat_set_yrange (F32.of_Z 0) (F32.of_nat (column_count data)) data in
  let data := heat_set_xlabel "Cycle" data in
  let data := heat_set_ylabel "Q Score" data in
  heat_set_title (heatmap_title metrics options) data.

(** [plot_qscore_heatmap]: the run metrics it leaves, and the heat map or
    the failure. *)
Definition plot_qscore_heatmap (metrics : run_metrics TM QM QLM)
    (options : Options) (data : heatmap_data)
    : run_metrics TM QM QLM * result heatmap_data :=
  let data := heatmap_clear data in
  if is_specific_surface options then
    if set_size (q_metrics metrics) =? 0 then (metrics, Ok data)
    else
      (metrics,
       do data <- populate_heatmap (q_metrics metrics) options data;
       Ok (decorate_heatmap metrics options data))
  else
    let metrics :=
      if 0 =? set_size (q_by_lane_metrics metrics)
      then derive_q_by_lane metrics else metrics in
    if set_size (q_by_lane_metrics metrics) =? 0 then (metrics, Ok data)
    else
      (metrics,
       do data <- populate_heatmap (q_by_lane_metrics metrics) options data;
       Ok (decorate_heatmap metrics options data)).

End PlotQScoreHeatmap.

(** ** The vocabulary of the heat-map claims *)

(** The heat map stores exactly [row_count * column_count] cells. *)
Definition well_formed (d : heatmap_data) : Prop :=
  length (cells d) = row_count d * column_count d.

(** [d] is an [R] by [C] matrix whose cell [(r, c)] is [G r c]. *)
Definition represents (R C : nat) (G : nat -> nat -> float32)
    (d : heatmap_data) : Prop :=
  row_count d = R /\ column_count d = C /\ length (cells d) = R * C /\
  forall r c, r < R -> c < C -> cells d !! (r * C + c) = Some (G r c).

(** The columns [lower - 1 .. upper - 1] a bin stands for. *)
Definition covers (q : q_score_bin) (c : nat) : Prop :=
  lower q - 1 <= c < upper q.

(** The size of the q-metric set [plot_qscore_heatmap] selects: the
    q-metric set under a surface selector, the by-lane set otherwise. *)
Definition selected_q_size {TM QM QLM Options : Type}
    `{!FilterOptions Options} (options : Options)
    (metrics : run_metrics TM QM QLM) : nat :=
  if is_specific_surface options then set_size (q_metrics metrics)
  else set_size (q_by_lane_metrics metrics).

(** The components that are not empty, joined by single spaces. *)
Fixpoint join_nonempty (parts : list string) : string :=
  match parts with
  | [] => EmptyString
  | part :: rest =>
      let tail := join_nonempty rest in
      if nonempty part then
        if nonempty tail then (part ++ " " ++ tail)%string else part
      else tail
  end.

(** The components of the heat-map title, in order. *)
Definition title_parts {TM QM QLM Options : Type} `{!FilterOptions Options}
    (metrics : run_metrics TM QM QLM) (options : Options) : list string :=
  [barcode metrics; lane_description options] ++
  (if (1 <? surface_count metrics) && is_specific_surface options
   then [surface_description options] else []).

(** The sum of the cells of a grid, when every cell holds an integer. *)
Definition grid_sum (d : heatmap_data) : option Z :=
  foldr (fun x acc =>
           match F32.to_Z x, acc with
           | Some z, Some total => Some (z + total)%Z
           | _, _ => None
           end)
    (Some 0%Z) (cells d).

(** The sum of [qscore_hist] over all histogram indices of the records
    that pass [valid_tile]. *)
Definition N_sum (l : list N) : N := foldr N.add 0%N l.

Definition hist_total {M Options : Type} `{!QRecord M, !TileFilter Options M}
    (options : Options) (rs : list M) : N :=
  N_sum (map (fun b => N_sum (qscore_hist b))
           (filter (fun b => valid_tile options b = true) rs)).

(** ** Sample inputs *)

Module Sample.

(** A tile record: its lane and the value the proxy reads. *)
Definition tile : Type := nat * float32.
Definition tile_record : TileRecord tile := {| lane := fst |}.

(** A q-score record: its cycle and its histogram. *)
Definition q : Type := nat * list N.
Definition q_record : QRecord q := {| cycle := fst; qscore_hist := snd |}.

Record options : Type := {
  specific_surface : bool;
  lane_text : string;
  surface_text : string
}.

Definition filter_options : FilterOptions options := {|
  read := fun _ => 1;
  is_specific_read := fun _ _ => false;
  is_specific_surface := specific_surface;
  read_description := fun _ => "Read 1"%string;
  surface_description := surface_text;
  lane_description := lane_text
|}.

(** A filter that lets every record pass. *)
Definition pass_all (M : Type) : TileFilter options M :=
  {| valid_tile := fun _ _ => true |}.

(** A point that records its x coordinate and the values it was built
    from. *)
Definition point : Type := float32 * list float32.
Definition candle_point : CandlePoint point := {|
  default_point := (F32.zero, []);
  plot_candle_stick := fun _ values x outliers => ((x, values), outliers)
|}.

Definition helpers : PlotHelpers tile point := {|
  to_description := fun _ => "Metric"%string;
  metric_value := fun _ b _ => snd b;
  scale_ranges := fun _ _ _ => ((F32.zero, F32.zero), (F32.zero, F32.zero));
  metric_type_of_name :=
    fun name => if String.eqb name "Density" then Some Density else None
|}.

(** Uncompressed sets of 2 scores unless bins are given. *)
Definition q_set_helpers : QSetHelpers q := {|
  max_qval := fun s =>
    match bins s with
    | [] => 2
    | _ => list_max (map upper (bins s))
    end;
  is_compressed := fun s =>
    match bins s with
    | [] => false
    | _ => true
    end
|}.

(** An aggregator that keeps the records of the source. *)
Definition q_by_lane : QByLane q q := {|
  create_q_metrics_by_lane := fun src _ => src
|}.

Definition all_lanes : options :=
  {| specific_surface := false; lane_text := "All Lanes";
     surface_text := "Surface 1" |}.

Definition tiles : metric_set tile :=
  {| records := [(1, F32.of_Z 100); (2, F32.of_Z 200); (1, F32.of_Z 120)];
     max_lane := 2; max_cycle := 0; bins := [] |}.

Definition no_q : metric_set q :=
  {| records := []; max_lane := 0; max_cycle := 0; bins := [] |}.

Definition one_q : metric_set q :=
  {| records := [(1, [3; 1]%N)]; max_lane := 1; max_cycle := 1; bins := [] |}.

Definition run (barcode : string) (by_lane : metric_set q)
    : run_metrics tile q q :=
  {| tile_metrics := tiles; q_metrics := no_q; q_by_lane_metrics := by_lane;
     barcode := barcode; surface_count := 2 |}.

Definition empty_plot : plot_data point :=
  {| data_series := []; x_range := (F32.zero, F32.zero);
     y_range := (F32.zero, F32.zero); x_label := EmptyString;
     y_label := EmptyString; title := EmptyString |}.

Definition grid (rows cols : nat) (cs : list float32) : heatmap_data :=
  {| row_count := rows; column_count := cols; cells := cs;
     heat_x_range := (F32.zero, F32.zero);
     heat_y_range := (F32.zero, F32.zero);
     heat_x_label := EmptyString; heat_y_label := EmptyString;
     heat_title := EmptyString |}.

End Sample.

(** The vocabulary of the binary32 lemmas *)

(** A shift record without lost bits. *)
Definition exact_record (m : Z) : shr_record :=
  {| shr_m := m; shr_r := false; shr_s := false |}.

(** [m'] and [e'] are the binary32 mantissa and exponent of the number
    [M * 2 ^ e]. *)
Definition normal32 (M : Z) (e : Z) (m' : positive) (e' : Z) : Prop :=
  (Z.pos (digits2_pos m') = 24 /\ -23 <= e' <= 104 /\
   M * 2 ^ (e + 23) = Z.pos m' * 2 ^ (e' + 23))%Z.

(** The largest of a list of counts, 0 for the empty list. *)
Definition N_max (l : list N) : N := fold_left N.max l 0%N.

(** The largest bound on counts under which 100 times a count is always
    exact in binary32: 100 * 671088 is a multiple of 4 below 2^26, and
    100 * 671089 is above 2^26 and not a multiple of 8. *)
Definition max_exact_count : N := 671088.

(** ** The vocabulary of the further properties *)

(** Every record of the set sits in a lane of the set. *)
Definition all_lanes_in_range {M : Type} `{!TileRecord M}
    (metrics : metric_set M) : Prop :=
  forall b, b ∈ records metrics -> 1 <= lane b <= max_lane metrics.

(** The candle sticks of the lanes [lanes], from left to right: the stick
    of a lane fills the next point of [points] (a default point when
    [points] has run out) from the values [f] gives for the lane, and
    hands the outlier buffer on to the next lane. *)
Fixpoint candle_sticks {Point : Type} `{!CandlePoint Point}
    (f : nat -> list float32) (lanes : list nat) (points : list Point)
    (outliers : list float32) : list Point :=
  match lanes with
  | [] => []
  | l :: rest =>
      let '(p, outliers') :=
        plot_candle_stick (default default_point (head points)) (f l)
          (F32.of_nat l) outliers in
      p :: candle_sticks f rest (tail points) outliers'
  end.

(** The type of the second series of [plot_by_lane]. *)
Definition has_pf_series (type : metric_type) : bool :=
  metric_type_eqb type ClusterCount || metric_type_eqb type Density.

Definition pf_type (type : metric_type) : metric_type :=
  if metric_type_eqb type Density then DensityPF else ClusterCountPF.

(** The components of the title of [plot_by_lane], in order. *)
Definition by_lane_title_parts {TM QM QLM Options : Type}
    `{!FilterOptions Options} (metrics : run_metrics TM QM QLM)
    (type : metric_type) (options : Options) : list string :=
  [barcode metrics] ++
  (if is_specific_read options type then [read_description options] else []) ++
  (if (1 <? surface_count metrics) && is_specific_surface options
   then [surface_description options] else []).
(** The axis metadata of [d'] is that of [d]. *)
Definition same_axes (d d' : heatmap_data) : Prop :=
  heat_x_range d' = heat_x_range d /\ heat_y_range d' = heat_y_range d /\
  heat_x_label d' = heat_x_label d /\ heat_y_label d' = heat_y_label d /\
  heat_title d' = heat_title d.

(** The matrix [G] with cell [(r, c)] replaced by [v]. *)
Definition grid_update (G : nat -> nat -> float32) (r c : nat) (v : float32)
    : nat -> nat -> float32 :=
  fun r' c' => if Nat.eqb r' r && Nat.eqb c' c then v else G r' c'.

(** The additions [+=] of a heat-map fold, as (row, column, count), and
    the matrix they leave. *)
Definition apply_adds (G : nat -> nat -> float32)
    (adds : list (nat * nat * N)) : nat -> nat -> float32 :=
  fold_left
    (fun G add =>
       grid_update G (fst (fst add)) (snd (fst add))
         (F32.add (G (fst (fst add)) (snd (fst add))) (F32.of_N (snd add))))
    adds G.

(** The sum of the counts that a list of additions sends to cell
    [(r, c)]. *)
Definition adds_total (adds : list (nat * nat * N)) (r c : nat) : N :=
  N_sum (map (fun add =>
                if Nat.eqb (fst (fst add)) r && Nat.eqb (snd (fst add)) c
                then snd add else 0%N) adds).

(** The column the compressed encoding gives histogram index [i]: the
    value of bin [i], less one. *)
Definition bin_column (bins : list q_score_bin) (i : nat) : nat :=
  match bins !! i with
  | Some q => value q - 1
  | None => 0
  end.

(** The sum of the first [n] histogram entries whose index goes to
    column [c]. *)
Definition column_total (column : nat -> nat) (hist : list N) (n c : nat)
    : N :=
  N_sum (map (fun i => if Nat.eqb (column i) c
                       then default 0%N (hist !! i) else 0%N) (seq 0 n)).

Section HeatmapCounts.

Context {M Options : Type}.
Context `{!QRecord M, !TileFilter Options M}.

(** The additions of one record that reads [n b] histogram entries and
    sends entry [i] to column [column i]. *)
Definition record_adds (n : M -> nat) (column : nat -> nat) (b : M)
    : list (nat * nat * N) :=
  map (fun i => (cycle b - 1, column i, default 0%N (qscore_hist b !! i)))
    (seq 0 (n b)).

(** The additions of the passing records, in record order. *)
Definition fold_adds (options : Options) (n : M -> nat)
    (column : nat -> nat) (rs : list M) : list (nat * nat * N) :=
  flat_map (fun b => if valid_tile options b then record_adds n column b
                     else []) rs.

(** Both folds, with the number of entries read and the column of an
    entry as parameters. *)
Definition fold_columns (n : M -> nat) (column : nat -> nat) (rs : list M)
    (options : Options) (data : heatmap_data) : result heatmap_data :=
  for_each rs
    (fun b data =>
       if negb (valid_tile options b) then Ok data
       else
         for_range (n b) 0
           (fun bin data => add_count b bin (Some (column bin)) data)
           data)
    data.

(** The count of cell [(r, c)]: the sum, over the passing records of
    cycle [r + 1], of what [per_record] gives for column [c]. *)
Definition cell_count (per_record : M -> nat -> N) (options : Options)
    (rs : list M) (r c : nat) : N :=
  N_sum (map (fun b => per_record b c)
           (filter (fun b => valid_tile options b = true /\ cycle b = S r)
              rs)).

(** What a record adds to column [c]: entry [c] of its histogram under
    the uncompressed encoding, the entries of the bins of value [c + 1]
    under the compressed one. *)
Definition uncompressed_count (b : M) (c : nat) : N :=
  default 0%N (qscore_hist b !! c).

Definition compressed_count (bins : list q_score_bin) (b : M) (c : nat) : N :=
  column_total (bin_column bins) (qscore_hist b) (length bins) c.

End HeatmapCounts.
(** The column whose value [remap_to_bins] leaves in column [c]: the
    column [value - 1] of the bin that covers [c], or [c] itself. *)
Definition source_column (bins : list q_score_bin) (c : nat) : nat :=
  match find (fun q => (lower q - 1 <=? c) && (c <? upper q)) bins with
  | Some q => value q - 1
  | None => c
  end.

Section HeatmapInputs.

Context {M Options : Type}.
Context `{!QRecord M, !TileFilter Options M, !QSetHelpers M}.

(** The inputs [populate_heatmap] indexes the grid with stay inside it:
    the set has cycles and scores, every passing record has its cycle in
    the set and a histogram that matches the encoding, and the bins are
    disjoint ranges with 1-based bounds around their value, within the
    scores. *)
Definition heatmap_inputs_fit (ms : metric_set M) (options : Options)
    : Prop :=
  0 < max_cycle ms /\ 0 < max_qval ms /\
  (forall b, b ∈ records ms -> valid_tile options b = true ->
     1 <= cycle b <= max_cycle ms /\
     if is_compressed ms then length (bins ms) <= length (qscore_hist b)
     else length (qscore_hist b) <= max_qval ms) /\
  (forall q, q ∈ bins ms ->
     1 <= lower q /\ lower q <= value q /\ value q <= upper q /\
     upper q <= max_qval ms) /\
  (forall i j qi qj c, i < j ->
     bins ms !! i = Some qi -> bins ms !! j = Some qj ->
     covers qi c -> covers qj c -> False).

(** The count of cell [(r, c)] of the heat map of a set, by the encoding
    of the set. *)
Definition set_cell_count (ms : metric_set M) (options : Options)
    (r c : nat) : N :=
  if is_compressed ms
  then cell_count (compressed_count (bins ms)) options (records ms) r c
  else cell_count uncompressed_count options (records ms) r c.

End HeatmapInputs.
(** ** Reading run metrics: [apps/inc/application.h] *)

(** [enum exit_codes] *)
Inductive exit_codes : Type :=
| SUCCESS
| INVALID_ARGUMENTS
| BAD_FORMAT
| UNEXPECTED_EXCEPTION
| EMPTY_INTEROP
| MISSING_RUNINFO_XML
| MALFORMED_XML.

(** The [int] an enumerator converts to: its position in the
    enumeration. *)
Definition exit_code_value (code : exit_codes) : Z :=
  match code with
  | SUCCESS => 0
  | INVALID_ARGUMENTS => 1
  | BAD_FORMAT => 2
  | UNEXPECTED_EXCEPTION => 3
  | EMPTY_INTEROP => 4
  | MISSING_RUNINFO_XML => 5
  | MALFORMED_XML => 6
  end.

(** What [read_run_metrics] uses of the run metrics and of an exception
    object: [metrics.read(filename)], which leaves the run metrics
    changed and may throw; [metrics.empty()]; [ex.what()]; and, for each
    handler of the function, whether the handler catches the exception
    (the class of the handler is the class of the exception or one of
    its bases). *)
Class RunReader (Run Ex : Type) : Type := {
  read_run : string -> Run -> Run * option Ex;
  run_empty : Run -> bool;
  what : Ex -> string;
  is_index_out_of_bounds_exception : Ex -> bool;
  is_xml_file_not_found_exception : Ex -> bool;
  is_xml_parse_exception : Ex -> bool;
  is_bad_format_exception : Ex -> bool;
  is_std_exception : Ex -> bool
}.

(** How a call ends: with an [int], or with an exception no handler
    caught. *)
Inductive returned (Ex : Type) : Type :=
| Returns (code : Z)
| Throws (ex : Ex).
Arguments Returns {Ex} code.
Arguments Throws {Ex} ex.

Section ReadRunMetrics.

Context {Run Ex : Type} `{!RunReader Run Ex}.

(** [std::cerr << ex.what() << std::endl; return code;] *)
Definition report (metrics : Run) (ex : Ex) (code : exit_codes)
    : Run * list string * returned Ex :=
  (metrics, [what ex], Returns (exit_code_value code)).

(** [read_run_metrics]: the run metrics it leaves, the lines it writes
    to [std::cerr], and how it ends. *)
Definition read_run_metrics (filename : string) (metrics : Run)
    : Run * list string * returned Ex :=
  let '(metrics, thrown) := read_run filename metrics in
  match thrown with
  | Some ex =>
      if is_index_out_of_bounds_exception ex then
        report metrics ex UNEXPECTED_EXCEPTION
      else if is_xml_file_not_found_exception ex then
        report metrics ex MISSING_RUNINFO_XML
      else if is_xml_parse_exception ex then
        report metrics ex MALFORMED_XML
      else if is_bad_format_exception ex then
        report metrics ex BAD_FORMAT
      else if is_std_exception ex then
        report metrics ex UNEXPECTED_EXCEPTION
      else (metrics, [], Throws ex)
  | None =>
      if run_empty metrics then
        (metrics, ["No InterOp files found"%string],
         Returns (exit_code_value EMPTY_INTEROP))
      else (metrics, [], Returns (exit_code_value SUCCESS))
  end.

End ReadRunMetrics.
(** ** Further sample inputs *)

Module Cases.

(** A filter that lets no record pass. *)
Definition pass_none (M : Type) : TileFilter Sample.options M :=
  {| valid_tile := fun _ _ => false |}.

(** The tiles of [Sample.tiles] with the lanes interleaved in another
    order, and a tile without a value in between. *)
Definition tiles_reordered : metric_set Sample.tile :=
  {| records := [(2, F32.of_Z 200); (1, F32.of_Z 100); (2, S754_nan);
                 (1, F32.of_Z 120)];
     max_lane := 2; max_cycle := 0; bins := [] |}.

(** A selector of one surface. *)
Definition surface_1 : Sample.options :=
  {| Sample.specific_surface := true; Sample.lane_text := "All Lanes";
     Sample.surface_text := "Surface 1" |}.

(** Two bins: the scores 1 to 2 stored at 1, and 3 to 4 stored at 3. *)
Definition two_bins : list q_score_bin :=
  [ {| lower := 1; upper := 2; value := 1 |};
    {| lower := 3; upper := 4; value := 3 |} ].

(** A compressed set of one record over [two_bins]. *)
Definition binned_q : metric_set Sample.q :=
  {| records := [(1, [3; 1]%N)]; max_lane := 1; max_cycle := 1;
     bins := two_bins |}.

(** Run metrics with a q-metric set and no by-lane set. *)
Definition surface_run : run_metrics Sample.tile Sample.q Sample.q :=
  {| tile_metrics := Sample.tiles; q_metrics := Sample.one_q;
     q_by_lane_metrics := Sample.no_q; barcode := "FC1";
     surface_count := 2 |}.

(** A reader over run folders that hold a number of InterOp files: the
    folder [run] holds two, every other folder is missing its
    [RunInfo.xml]. *)
Definition reader : RunReader nat string :=
  {| read_run := fun filename files =>
       if String.eqb filename "run" then (2, None)
       else (files, Some "RunInfo.xml not found"%string);
     run_empty := fun files => files =? 0;
     what := fun message => message;
     is_index_out_of_bounds_exception := fun _ => false;
     is_xml_file_not_found_exception := fun _ => true;
     is_xml_parse_exception := fun _ => false;
     is_bad_format_exception := fun _ => false;
     is_std_exception := fun _ => true |}.

End Cases.

(** * Properties *)

(** ** The failure monad and the loops *)

Lemma bind_Ok {A B : Type} (m : result A) (k : A -> result B) (b : B) :
  bind m k = Ok b <-> exists a, m = Ok a /\ k a = Ok b.
Proof.
  destruct m as [a|e]; simpl; split.
  - intros Hk. exists a. split; [reflexivity | exact Hk].
  - intros (a' & Ha & Hk). injection Ha as <-. exact Hk.
  - discriminate.
  - intros (a' & Ha & _). discriminate.
Qed.

Lemma at_index_Ok {A : Type} (v : list A) (i : nat) (a : A) :
  at_index v i = Ok a <-> v !! i = Some a.
Proof.
  unfold at_index. destruct (v !! i); split; intros H; congruence.
Qed.

Lemma at_index_lt {A : Type} (v : list A) (i : nat) :
  i < length v -> exists a, at_index v i = Ok a /\ v !! i = Some a.
Proof.
  intros Hi. destruct (lookup_lt_is_Some_2 v i Hi) as [a Ha].
  exists a. split; [ | exact Ha]. unfold at_index. rewrite Ha. reflexivity.
Qed.

Lemma at_index_ge {A : Type} (v : list A) (i : nat) :
  length v <= i -> at_index v i = Err IndexOutOfBounds.
Proof.
  intros Hi. unfold at_index. rewrite lookup_ge_None_2; [reflexivity | lia].
Qed.

(** ** binary32 arithmetic on counts *)

Section Binary32.

Local Open Scope Z_scope.

Lemma digits2_pos_size (p : positive) : digits2_pos p = Pos.size p.
Proof. induction p; simpl; congruence. Qed.

Lemma digits2_log2 (p : positive) :
  Z.pos (digits2_pos p) = Z.log2 (Z.pos p) + 1.
Proof.
  rewrite digits2_pos_size. destruct p; simpl; lia.
Qed.

Lemma digits2_bounds (p : positive) :
  2 ^ (Z.pos (digits2_pos p) - 1) <= Z.pos p < 2 ^ Z.pos (digits2_pos p).
Proof.
  rewrite digits2_log2.
  replace (Z.log2 (Z.pos p) + 1 - 1) with (Z.log2 (Z.pos p)) by lia.
  replace (Z.log2 (Z.pos p) + 1) with (Z.succ (Z.log2 (Z.pos p))) by lia.
  apply Z.log2_spec. lia.
Qed.

Lemma digits2_unique (p : positive) (d : Z) :
  2 ^ (d - 1) <= Z.pos p < 2 ^ d -> Z.pos (digits2_pos p) = d.
Proof.
  intros H. rewrite digits2_log2.
  assert (0 < d).
  { destruct (Z.lt_ge_cases 0 d); [assumption|].
    destruct H as [_ H]. 
    assert (2 ^ d <= 1).
    { destruct (Z.eq_dec d 0) as [->|]; [simpl; lia|].
      rewrite Z.pow_neg_r by lia. lia. }
    lia. }
  rewrite (Z.log2_unique (Z.pos p) (d - 1)); lia || (replace (Z.succ (d - 1)) with d by lia; lia).
Qed.

Lemma iter_xO (p : positive) (k : positive) :
  Z.pos (Pos.iter xO p k) = Z.pos p * 2 ^ Z.pos k.
Proof.
  revert p. induction k using Pos.peano_ind; intros p.
  - simpl. lia.
  - rewrite Pos.iter_succ. rewrite Pos2Z.inj_succ, Z.pow_succ_r by lia.
    change (Z.pos (Pos.iter xO p k)~0) with (2 * Z.pos (Pos.iter xO p k)).
    rewrite IHk. ring.
Qed.

Lemma shr_1_exact (m : Z) : 0 <= m -> shr_1 (exact_record (2 * m)) = exact_record m.
Proof.
  intros Hm. destruct m as [|p|p]; [reflexivity | reflexivity | lia].
Qed.

Lemma pow2_xO (s : positive) : 2 ^ Z.pos s~0 = 2 ^ Z.pos s * 2 ^ Z.pos s.
Proof.
  replace (Z.pos s~0) with (Z.pos s + Z.pos s) by lia.
  apply Z.pow_add_r; lia.
Qed.

Lemma pow2_xI (s : positive) :
  2 ^ Z.pos s~1 = 2 * (2 ^ Z.pos s * 2 ^ Z.pos s).
Proof.
  replace (Z.pos s~1) with (Z.succ (Z.pos s + Z.pos s)) by lia.
  rewrite Z.pow_succ_r by lia. rewrite Z.pow_add_r by lia. reflexivity.
Qed.

Lemma iter_shr_1_exact (s : positive) : forall m, 0 <= m ->
  SpecFloat.iter_pos shr_1 s (exact_record (m * 2 ^ Z.pos s)) = exact_record m.
Proof.
  induction s as [s IH|s IH|]; intros m Hm; cbn [SpecFloat.iter_pos].
  - assert (Hpos : 0 < 2 ^ Z.pos s) by (apply Z.pow_pos_nonneg; lia).
    replace (m * 2 ^ Z.pos s~1) with (2 * ((m * 2 ^ Z.pos s) * 2 ^ Z.pos s))
      by (rewrite pow2_xI; ring).
    rewrite shr_1_exact by nia. rewrite IH by nia. apply IH. exact Hm.
  - assert (Hpos : 0 < 2 ^ Z.pos s) by (apply Z.pow_pos_nonneg; lia).
    replace (m * 2 ^ Z.pos s~0) with ((m * 2 ^ Z.pos s) * 2 ^ Z.pos s)
      by (rewrite pow2_xO; ring).
    rewrite IH by nia. apply IH. exact Hm.
  - rewrite Z.pow_1_r, Z.mul_comm. apply shr_1_exact. exact Hm.
Qed.

Lemma fexp32 (e : Z) : fexp 24 128 e = Z.max (e - 24) (-149).
Proof. reflexivity. Qed.

(** Rounding a mantissa that only needs its trailing zeros removed. *)
Lemma binary_round_aux_exact (mz : positive) (ez : Z) (m' : positive)
    (e' : Z) :
  Z.pos (digits2_pos m') = 24 ->
  ez <= e' ->
  Z.pos mz = Z.pos m' * 2 ^ (e' - ez) ->
  -149 <= e' <= 104 ->
  binary_round_aux 24 128 false (Z.pos mz) ez loc_Exact
  = S754_finite false m' e'.
Proof.
  intros Hdig Hle Hval Hrange.
  assert (Hdz : Z.pos (digits2_pos mz) = 24 + (e' - ez)).
  { apply digits2_unique. pose proof (digits2_bounds m') as Hb.
    rewrite Hdig in Hb. rewrite Hval.
    replace (24 + (e' - ez) - 1) with (23 + (e' - ez)) by lia.
    rewrite !Z.pow_add_r by lia.
    assert (0 < 2 ^ (e' - ez)) by (apply Z.pow_pos_nonneg; lia).
    change (24 - 1) with 23 in Hb. nia. }
  unfold binary_round_aux, shr_fexp.
  cbn [Zdigits2]. rewrite Hdz, fexp32.
  replace (Z.max (24 + (e' - ez) + ez - 24) (-149) - ez) with (e' - ez) by lia.
  change (shr_record_of_loc (Z.pos mz) loc_Exact)
    with (exact_record (Z.pos mz)).
  assert (Hshr : shr (exact_record (Z.pos mz)) ez (e' - ez)
                 = (exact_record (Z.pos m'), e')).
  { unfold shr. destruct (e' - ez) as [|s|s] eqn:Hs.
    - rewrite Z.mul_1_r in Hval. injection Hval as ->.
      f_equal. lia.
    - rewrite Hval. rewrite iter_shr_1_exact by lia. f_equal. lia.
    - lia. }
  rewrite Hshr. cbn [exact_record shr_m loc_of_shr_record round_nearest_even].
  cbn [Zdigits2]. rewrite Hdig, fexp32.
  replace (Z.max (24 + e' - 24) (-149) - e') with 0 by lia.
  cbn [shr shr_record_of_loc shr_m].
  replace (e' <=? 128 - 24) with true by (symmetry; apply Z.leb_le; lia).
  reflexivity.
Qed.

Lemma shl_align_value (m : positive) (e e' : Z) :
  e' <= e ->
  Z.pos (fst (shl_align m e e')) = Z.pos m * 2 ^ (e - e') /\
  snd (shl_align m e e') = e'.
Proof.
  intros Hle. unfold shl_align. destruct (e' - e) as [|s|s] eqn:Hs.
  - cbn [fst snd]. replace (e - e') with 0 by lia. split; lia.
  - lia.
  - cbn [fst snd]. rewrite iter_xO. replace (e - e') with (Z.pos s) by lia.
    split; reflexivity.
Qed.

Lemma binary_round_exact (M : positive) (e : Z) (m' : positive) (e' : Z) :
  -23 <= e ->
  normal32 (Z.pos M) e m' e' ->
  binary_round 24 128 false M e = S754_finite false m' e'.
Proof.
  intros He (Hdig & Hrange & Hval).
  pose proof (digits2_bounds m') as Hb. rewrite Hdig in Hb.
  change (24 - 1) with 23 in Hb.
  assert (Hp : 0 < 2 ^ (e + 23)) by (apply Z.pow_pos_nonneg; lia).
  unfold binary_round.
  destruct (Z.le_gt_cases e e') as [Hle|Hgt].
  - assert (HM : Z.pos M = Z.pos m' * 2 ^ (e' - e)).
    { replace (e' + 23) with ((e' - e) + (e + 23)) in Hval by lia.
      rewrite (Z.pow_add_r 2 (e' - e) (e + 23)), Z.mul_assoc in Hval by lia.
      apply Z.mul_reg_r in Hval; [exact Hval | lia]. }
    assert (Hd : Z.pos (digits2_pos M) = 24 + (e' - e)).
    { apply digits2_unique. rewrite HM.
      replace (24 + (e' - e) - 1) with (23 + (e' - e)) by lia.
      rewrite !Z.pow_add_r by lia.
      assert (0 < 2 ^ (e' - e)) by (apply Z.pow_pos_nonneg; lia). nia. }
    rewrite Hd, fexp32.
    replace (Z.max (24 + (e' - e) + e - 24) (-149)) with e' by lia.
    unfold shl_align. destruct (e' - e) as [|s|s] eqn:Hs; try lia.
    + apply binary_round_aux_exact; try assumption; lia || (rewrite Hs; lia).
    + apply binary_round_aux_exact; try assumption; lia || (rewrite Hs; lia).
  - assert (HM : Z.pos M * 2 ^ (e - e') = Z.pos m').
    { replace (e + 23) with ((e - e') + (e' + 23)) in Hval by lia.
      rewrite (Z.pow_add_r 2 (e - e') (e' + 23)), Z.mul_assoc in Hval by lia.
      assert (0 < 2 ^ (e' + 23)) by (apply Z.pow_pos_nonneg; lia).
      apply Z.mul_reg_r in Hval; [exact Hval | lia]. }
    assert (Hsmall : e - e' < 24).
    { destruct (Z.lt_ge_cases (e - e') 24) as [Hlt|Hge]; [exact Hlt | exfalso].
      assert (2 ^ 24 <= 2 ^ (e - e')) by (apply Z.pow_le_mono_r; lia).
      nia. }
    assert (Hd : Z.pos (digits2_pos M) = 24 - (e - e')).
    { apply digits2_unique.
      assert (H2 : 0 < 2 ^ (e - e')) by (apply Z.pow_pos_nonneg; lia).
      assert (H24 : 2 ^ 24 = 2 ^ (24 - (e - e')) * 2 ^ (e - e')).
      { rewrite <- Z.pow_add_r by lia. f_equal. lia. }
      assert (H23 : 2 ^ 23 = 2 ^ (24 - (e - e') - 1) * 2 ^ (e - e')).
      { rewrite <- Z.pow_add_r by lia. f_equal. lia. }
      assert (0 < 2 ^ (24 - (e - e'))) by (apply Z.pow_pos_nonneg; lia).
      assert (0 < 2 ^ (24 - (e - e') - 1)) by (apply Z.pow_pos_nonneg; lia).
      nia. }
    rewrite Hd, fexp32.
    replace (Z.max (24 - (e - e') + e - 24) (-149)) with e' by lia.
    unfold shl_align. destruct (e' - e) as [|s|s] eqn:Hs; try lia.
    assert (Hiter : Pos.iter xO M s = m').
    { apply Pos2Z.inj. rewrite iter_xO. rewrite <- HM. f_equal. f_equal. lia. }
    rewrite Hiter.
    apply binary_round_aux_exact; try assumption; try lia.
    rewrite Z.sub_diag. lia.
Qed.

(** Every integer from 1 to 2^24 has a binary32 representation. *)
Lemma normal32_exists (p : positive) :
  Z.pos p <= 2 ^ 24 -> exists m' e', normal32 (Z.pos p) 0 m' e' /\ e' <= 1.
Proof.
  intros Hle. pose proof (digits2_bounds p) as Hb.
  set (d := Z.pos (digits2_pos p)) in *.
  assert (Hd1 : 1 <= d) by (unfold d; lia).
  destruct (Z.le_gt_cases d 24) as [Hd|Hd].
  - assert (Hpos : 0 < Z.pos p * 2 ^ (24 - d))
      by (assert (0 < 2 ^ (24 - d)) by (apply Z.pow_pos_nonneg; lia); nia).
    exists (Z.to_pos (Z.pos p * 2 ^ (24 - d))), (d - 24).
    unfold normal32. rewrite Z2Pos.id by exact Hpos.
    split; [ | lia]. split; [ | split; [lia | ]].
    + apply digits2_unique. rewrite Z2Pos.id by exact Hpos.
      assert (H24 : 2 ^ 24 = 2 ^ d * 2 ^ (24 - d)).
      { rewrite <- Z.pow_add_r by lia. f_equal. lia. }
      assert (H23 : 2 ^ (24 - 1) = 2 ^ (d - 1) * 2 ^ (24 - d)).
      { rewrite <- Z.pow_add_r by lia. f_equal. lia. }
      rewrite H24, H23.
      assert (0 < 2 ^ (24 - d)) by (apply Z.pow_pos_nonneg; lia). nia.
    + replace (0 + 23) with ((24 - d) + (d - 24 + 23)) by lia.
      rewrite (Z.pow_add_r 2 (24 - d)) by lia. ring.
  - assert (Hd25 : d = 25).
    { destruct (Z.le_gt_cases d 25) as [H25|H25]; [lia | exfalso].
      assert (2 ^ 25 <= 2 ^ (d - 1)) by (apply Z.pow_le_mono_r; lia).
      assert (2 ^ 24 < 2 ^ 25) by reflexivity. lia. }
    rewrite Hd25 in Hb. change (25 - 1) with 24 in Hb.
    assert (Hp : Z.pos p = 2 ^ 24) by lia.
    exists 8388608%positive, 1. unfold normal32. rewrite Hp.
    split; [ | lia]. split; [reflexivity | ]. split; [lia | reflexivity].
Qed.

Lemma of_N_normal (p : positive) (m' : positive) (e' : Z) :
  normal32 (Z.pos p) 0 m' e' ->
  F32.of_N (N.pos p) = S754_finite false m' e'.
Proof.
  intros Hn. unfold F32.of_N, F32.of_Z. cbn [Z.of_N binary_normalize].
  apply binary_round_exact; [lia | exact Hn].
Qed.

(** binary32 addition is exact on counts whose sum is at most 2^24. *)
Lemma add_counts_exact (a b : N) :
  (a + b <= 2 ^ 24)%N ->
  F32.add (F32.of_N a) (F32.of_N b) = F32.of_N (a + b).
Proof.
  intros Hsum.
  destruct a as [|pa].
  { destruct b as [|pb]; [reflexivity | ].
    rewrite N.add_0_l. change (F32.of_N 0) with (S754_zero false).
    destruct (normal32_exists pb) as (mb & eb & Hb & _); [lia | ].
    rewrite (of_N_normal pb mb eb Hb). reflexivity. }
  destruct b as [|pb].
  { rewrite N.add_0_r. change (F32.of_N 0) with (S754_zero false).
    destruct (normal32_exists pa) as (ma & ea & Ha & _); [lia | ].
    rewrite (of_N_normal pa ma ea Ha). reflexivity. }
  destruct (normal32_exists pa) as (ma & ea & Ha & Hea); [lia | ].
  destruct (normal32_exists pb) as (mb & eb & Hb & Heb); [lia | ].
  destruct (normal32_exists (pa + pb)) as (ms & es & Hs & _); [lia | ].
  change (N.pos pa + N.pos pb)%N with (N.pos (pa + pb)).
  rewrite (of_N_normal pa ma ea Ha), (of_N_normal pb mb eb Hb),
    (of_N_normal (pa + pb) ms es Hs).
  unfold F32.add, SFadd. cbn [cond_Zopp].
  set (ez := Z.min ea eb).
  destruct Ha as (Hda & Hra & Hva). destruct Hb as (Hdb & Hrb & Hvb).
  destruct (shl_align_value ma ea ez) as [Hsa _]; [unfold ez; lia | ].
  destruct (shl_align_value mb eb ez) as [Hsb _]; [unfold ez; lia | ].
  rewrite <- Pos2Z.inj_add. cbn [binary_normalize].
  apply binary_round_exact; [unfold ez; lia | ].
  destruct Hs as (Hds & Hrs & Hvs). repeat split; try assumption; try lia.
  rewrite <- Hvs. rewrite Pos2Z.inj_add, Hsa, Hsb.
  rewrite Pos2Z.inj_add. rewrite !Z.mul_add_distr_r.
  rewrite <- !Z.mul_assoc, <- !Z.pow_add_r by (unfold ez; lia).
  replace (ea - ez + (ez + 23)) with (ea + 23) by lia.
  replace (eb - ez + (ez + 23)) with (eb + 23) by lia.
  rewrite <- Hva, <- Hvb. reflexivity.
Qed.

Lemma to_Z_of_N (n : N) :
  (n <= 2 ^ 24)%N -> F32.to_Z (F32.of_N n) = Some (Z.of_N n).
Proof.
  intros Hn. destruct n as [|p]; [reflexivity | ].
  destruct (normal32_exists p) as (m' & e' & Hnorm & _); [lia | ].
  rewrite (of_N_normal p m' e' Hnorm).
  destruct Hnorm as (_ & Hrange & Hval). unfold F32.to_Z.
  destruct e' as [|q|q].
  - cbn [option_map]. f_equal. cbn [Z.of_N]. change (0 + 23) with 23 in Hval.
    lia.
  - cbn [option_map]. f_equal. cbn [Z.of_N].
    rewrite (Z.pow_add_r 2 (Z.pos q) 23), Z.mul_assoc in Hval by lia.
    change (0 + 23) with 23 in Hval.
    apply Z.mul_reg_r in Hval; [lia | ]. discriminate.
  - assert (Hm : Z.pos m' = Z.pos p * 2 ^ Z.pos q).
    { replace (0 + 23) with (Z.pos q + (Z.neg q + 23)) in Hval by lia.
      rewrite (Z.pow_add_r 2 (Z.pos q)), Z.mul_assoc in Hval by lia.
      assert (0 < 2 ^ (Z.neg q + 23)) by (apply Z.pow_pos_nonneg; lia).
      apply Z.mul_reg_r in Hval; [lia | lia]. }
    assert (Hpow : 0 < 2 ^ Z.pos q) by (apply Z.pow_pos_nonneg; lia).
    rewrite Hm, Z.mod_mul, Z.div_mul by lia. reflexivity.
Qed.

Lemma nonneg_cases (x : float32) :
  F32.leb F32.zero x = true ->
  (exists s, x = S754_zero s) \/ x = S754_infinity false \/
  exists m e, x = S754_finite false m e.
Proof.
  destruct x as [s|s| |s m e]; unfold F32.leb, SFleb; simpl.
  - intros _. left. exists s. reflexivity.
  - destruct s; [discriminate | ]. intros _. right. left. reflexivity.
  - discriminate.
  - destruct s; [discriminate | ]. intros _. right. right.
    exists m, e. reflexivity.
Qed.

Lemma finite_compare_cases (m1 m2 : positive) (e1 e2 : Z) :
  match (match (e1 ?= e2)%Z with
         | Eq => Pos.compare_cont Eq m1 m2
         | Lt => Lt
         | Gt => Gt
         end) with
  | Lt => (e1 < e2 \/ (e1 = e2 /\ Z.pos m1 < Z.pos m2))%Z
  | Eq => e1 = e2 /\ m1 = m2
  | Gt => (e2 < e1 \/ (e1 = e2 /\ Z.pos m2 < Z.pos m1))%Z
  end.
Proof.
  destruct (Z.compare_spec e1 e2) as [He|He|He]; [ | left; lia | left; lia].
  change (Pos.compare_cont Eq m1 m2) with (Pos.compare m1 m2).
  destruct (Pos.compare_spec m1 m2) as [Hm|Hm|Hm].
  - split; assumption.
  - right. split; [assumption | lia].
  - right. split; [assumption | lia].
Qed.

Lemma leb_refl (x : float32) : F32.leb F32.zero x = true -> F32.leb x x = true.
Proof.
  intros Hx. destruct (nonneg_cases x Hx) as [[s ->]|[->|(m & e & ->)]];
    try reflexivity.
  unfold F32.leb, SFleb, SFcompare. rewrite Z.compare_refl.
  change (Pos.compare_cont Eq m m) with (Pos.compare m m).
  rewrite Pos.compare_refl. reflexivity.
Qed.

Lemma leb_trans (x y z : float32) :
  F32.leb F32.zero x = true -> F32.leb F32.zero y = true -> F32.leb F32.zero z = true ->
  F32.leb x y = true -> F32.leb y z = true -> F32.leb x z = true.
Proof.
  intros Hx Hy Hz.
  destruct (nonneg_cases x Hx) as [[sx ->]|[->|(mx & ex & ->)]];
    destruct (nonneg_cases y Hy) as [[sy ->]|[->|(my & ey & ->)]];
    destruct (nonneg_cases z Hz) as [[sz ->]|[->|(mz & ez & ->)]];
    try reflexivity; try discriminate.
  unfold F32.leb, SFleb, SFcompare.
  pose proof (finite_compare_cases mx my ex ey) as Hxy.
  pose proof (finite_compare_cases my mz ey ez) as Hyz.
  pose proof (finite_compare_cases mx mz ex ez) as Hxz.
  destruct (match (ex ?= ey)%Z with
            | Eq => Pos.compare_cont Eq mx my | Lt => Lt | Gt => Gt end);
    destruct (match (ey ?= ez)%Z with
              | Eq => Pos.compare_cont Eq my mz | Lt => Lt | Gt => Gt end);
    destruct (match (ex ?= ez)%Z with
              | Eq => Pos.compare_cont Eq mx mz | Lt => Lt | Gt => Gt end);
    try reflexivity; try discriminate; intros _ _; exfalso;
    repeat match goal with H : _ /\ _ |- _ => destruct H end; subst; lia.
Qed.

Lemma leb_total (x y : float32) :
  F32.leb F32.zero x = true -> F32.leb F32.zero y = true ->
  F32.ltb x y = false -> F32.leb y x = true.
Proof.
  intros Hx Hy.
  destruct (nonneg_cases x Hx) as [[sx ->]|[->|(mx & ex & ->)]];
    destruct (nonneg_cases y Hy) as [[sy ->]|[->|(my & ey & ->)]];
    try reflexivity; try discriminate.
  unfold F32.leb, F32.ltb, SFleb, SFltb, SFcompare.
  pose proof (finite_compare_cases mx my ex ey) as Hxy.
  pose proof (finite_compare_cases my mx ey ex) as Hyx.
  destruct (match (ex ?= ey)%Z with
            | Eq => Pos.compare_cont Eq mx my | Lt => Lt | Gt => Gt end);
    destruct (match (ey ?= ex)%Z with
              | Eq => Pos.compare_cont Eq my mx | Lt => Lt | Gt => Gt end);
    try reflexivity; try discriminate; intros _; exfalso;
    repeat match goal with H : _ /\ _ |- _ => destruct H end; subst; lia.
Qed.

Lemma ltb_leb (x y : float32) : F32.ltb x y = true -> F32.leb x y = true.
Proof.
  unfold F32.ltb, F32.leb, SFltb, SFleb. destruct (SFcompare x y) as [[ | | ]|]; congruence.
Qed.

Lemma loc_of_record_of_loc (m : Z) (l : location) :
  loc_of_shr_record (shr_record_of_loc m l) = l.
Proof. destruct l as [|[ | | ]]; reflexivity. Qed.

Lemma shr_m_record_of_loc (m : Z) (l : location) :
  shr_m (shr_record_of_loc m l) = m.
Proof. destruct l as [|[ | | ]]; reflexivity. Qed.

Lemma shr_m_shr_1 (mrs : shr_record) :
  0 <= shr_m mrs -> shr_m (shr_1 mrs) = shr_m mrs / 2.
Proof.
  destruct mrs as [m r s]. cbn [shr_m]. intros Hm.
  destruct m as [|p|p]; [reflexivity | | lia].
  destruct p as [p|p|]; cbn [shr_1 shr_m].
  - rewrite Pos2Z.inj_xI.
    apply Z.div_unique with (r := 1); lia.
  - rewrite Pos2Z.inj_xO.
    apply Z.div_unique with (r := 0); lia.
  - reflexivity.
Qed.

Lemma round_nearest_even_bounds (m : Z) (l : location) :
  m <= round_nearest_even m l <= m + 1.
Proof.
  destruct l as [|[ | | ]]; cbn [round_nearest_even]; try lia.
  destruct (Z.even m); lia.
Qed.

Lemma digits2_of_bounds (m : Z) (d : Z) :
  0 < m -> 2 ^ (d - 1) <= m < 2 ^ d -> Zdigits2 m = d.
Proof.
  intros Hm Hb. destruct m as [|p|p]; try lia.
  cbn [Zdigits2]. apply digits2_unique. exact Hb.
Qed.

(** The second normalisation step of [binary_round_aux]: a mantissa
    between 2^23 and 2^24 (inclusive) becomes a binary32 float of the
    same value. *)
Lemma round_aux_finish (m1 : Z) (e1 : Z) :
  2 ^ 23 <= m1 <= 2 ^ 24 -> -149 <= e1 <= 103 ->
  exists mr er,
    (let '(mrs, e) := shr_fexp 24 128 m1 e1 loc_Exact in
     match shr_m mrs with
     | 0 => S754_zero false
     | Z.pos m => if e <=? 128 - 24 then S754_finite false m e
                  else S754_infinity false
     | Z.neg _ => S754_nan
     end) = S754_finite false mr er /\
    Z.pos (digits2_pos mr) = 24 /\ e1 <= er <= e1 + 1 /\
    Z.pos mr * 2 ^ (er - e1) = m1.
Proof.
  intros Hm He. unfold shr_fexp.
  destruct (Z.eq_dec m1 (2 ^ 24)) as [->|Hne].
  - change (Zdigits2 (2 ^ 24)) with 25. rewrite fexp32.
    replace (Z.max (25 + e1 - 24) (-149) - e1) with 1 by lia.
    cbn [shr shr_record_of_loc SpecFloat.iter_pos shr_1 shr_m Z.pow Z.pow_pos
         Pos.iter Z.mul Pos.mul].
    replace (e1 + 1 <=? 128 - 24) with true by (symmetry; apply Z.leb_le; lia).
    exists 8388608%positive, (e1 + 1). split; [reflexivity | ].
    split; [reflexivity | ]. split; [lia | ].
    replace (e1 + 1 - e1) with 1 by lia. reflexivity.
  - assert (Hd : Zdigits2 m1 = 24).
    { apply digits2_of_bounds; [lia | ]. change (24 - 1) with 23. lia. }
    rewrite Hd, fexp32.
    replace (Z.max (24 + e1 - 24) (-149) - e1) with 0 by lia.
    cbn [shr shr_record_of_loc shr_m].
    destruct m1 as [|p|p]; try lia.
    replace (e1 <=? 128 - 24) with true by (symmetry; apply Z.leb_le; lia).
    exists p, e1. split; [reflexivity | ]. split; [exact Hd | ].
    split; [lia | ]. rewrite Z.sub_diag. lia.
Qed.

(** Rounding a quotient mantissa of 24 or 25 digits: the result is a
    binary32 float at most two units of the last place of the quotient
    above it. *)
Lemma round_aux_bound (q e0 : Z) (loc : location) :
  2 ^ 23 <= q < 2 ^ 25 -> -149 <= e0 <= 100 ->
  exists mr er,
    binary_round_aux 24 128 false q e0 loc = S754_finite false mr er /\
    Z.pos (digits2_pos mr) = 24 /\ e0 <= er <= e0 + 2 /\
    Z.pos mr * 2 ^ (er - e0) <= q + 2.
Proof.
  intros Hq He. unfold binary_round_aux.
  destruct (Z.lt_ge_cases q (2 ^ 24)) as [Hsmall|Hbig].
  - assert (Hd : Zdigits2 q = 24).
    { apply digits2_of_bounds; [lia | ]. change (24 - 1) with 23. lia. }
    unfold shr_fexp at 1. rewrite Hd, fexp32.
    replace (Z.max (24 + e0 - 24) (-149) - e0) with 0 by lia.
    cbn [shr]. rewrite loc_of_record_of_loc, shr_m_record_of_loc.
    pose proof (round_nearest_even_bounds q loc) as Hr.
    destruct (round_aux_finish (round_nearest_even q loc) e0)
      as (mr & er & Hres & Hdig & Her & Hval); [lia | lia | ].
    exists mr, er. split; [exact Hres | ]. split; [exact Hdig | ].
    split; lia.
  - assert (Hd : Zdigits2 q = 25).
    { apply digits2_of_bounds; [lia | ]. change (25 - 1) with 24. lia. }
    unfold shr_fexp at 1. rewrite Hd, fexp32.
    replace (Z.max (25 + e0 - 24) (-149) - e0) with 1 by lia.
    cbn [shr SpecFloat.iter_pos].
    set (mrs := shr_1 (shr_record_of_loc q loc)).
    assert (Hm : shr_m mrs = q / 2).
    { unfold mrs. rewrite shr_m_shr_1; rewrite shr_m_record_of_loc;
        [reflexivity | lia]. }
    rewrite Hm.
    pose proof (round_nearest_even_bounds (q / 2) (loc_of_shr_record mrs))
      as Hr.
    assert (Hhalf : 2 ^ 23 <= q / 2 < 2 ^ 24).
    { split; [apply Z.div_le_lower_bound; lia
             | apply Z.div_lt_upper_bound; lia]. }
    destruct (round_aux_finish
                (round_nearest_even (q / 2) (loc_of_shr_record mrs))
                (e0 + 1))
      as (mr & er & Hres & Hdig & Her & Hval); [lia | lia | ].
    exists mr, er. split; [exact Hres | ]. split; [exact Hdig | ].
    split; [lia | ].
    replace (er - e0) with ((er - (e0 + 1)) + 1) by lia.
    rewrite Z.pow_add_r, Z.mul_assoc, Hval by lia.
    pose proof (Z.mul_div_le q 2). lia.
Qed.

(** Division of two binary32 floats with full mantissas: the quotient of
    the mantissas, 24 bits to the left, is rounded. *)
Lemma div_normal (ma mm : positive) (ea em : Z) :
  Z.pos (digits2_pos ma) = 24 -> Z.pos (digits2_pos mm) = 24 ->
  -125 <= ea - em ->
  F32.div (S754_finite false ma ea) (S754_finite false mm em)
  = binary_round_aux 24 128 false (Z.pos ma * 2 ^ 24 / Z.pos mm)
      (ea - em - 24)
      (new_location (Z.pos mm) (Z.pos ma * 2 ^ 24 mod Z.pos mm)).
Proof.
  intros Hda Hdm He. unfold F32.div, SFdiv, SFdiv_core_binary.
  cbn [Zdigits2 xorb]. rewrite Hda, Hdm, fexp32.
  replace (Z.min (Z.max (24 + ea - (24 + em) - 24) (-149)) (ea - em))
    with (ea - em - 24) by lia.
  replace (ea - em - (ea - em - 24)) with 24 by lia.
  cbv iota. rewrite Z.shiftl_mul_pow2 by lia.
  unfold Z.div, Z.modulo.
  destruct (Z.div_eucl (Z.pos ma * 2 ^ 24) (Z.pos mm)) as [q r].
  reflexivity.
Qed.

(** Two binary32 floats with full mantissas compare as their values. *)
Lemma leb_canonical (mr mb : positive) (er eb k : Z) :
  Z.pos (digits2_pos mr) = 24 -> Z.pos (digits2_pos mb) = 24 ->
  0 <= er + k -> 0 <= eb + k ->
  Z.pos mr * 2 ^ (er + k) <= Z.pos mb * 2 ^ (eb + k) ->
  F32.leb (S754_finite false mr er) (S754_finite false mb eb) = true.
Proof.
  intros Hdr Hdb Hkr Hkb Hle.
  pose proof (digits2_bounds mr) as Hr. rewrite Hdr in Hr.
  pose proof (digits2_bounds mb) as Hb. rewrite Hdb in Hb.
  change (24 - 1) with 23 in *.
  unfold F32.leb, SFleb, SFcompare.
  pose proof (finite_compare_cases mr mb er eb) as Hcases.
  destruct (match (er ?= eb)%Z with
            | Eq => Pos.compare_cont Eq mr mb | Lt => Lt | Gt => Gt end);
    try reflexivity.
  exfalso. destruct Hcases as [Hgt|[Heq Hgt]].
  - assert (Hpow : 2 ^ (er + k) = 2 ^ (er - eb) * 2 ^ (eb + k))
      by (rewrite <- Z.pow_add_r by lia; f_equal; lia).
    assert (H2 : 2 <= 2 ^ (er - eb)).
    { change 2 with (2 ^ 1) at 1. apply Z.pow_le_mono_r; lia. }
    assert (0 < 2 ^ (eb + k)) by (apply Z.pow_pos_nonneg; lia).
    rewrite Hpow in Hle. nia.
  - subst er. assert (0 < 2 ^ (eb + k)) by (apply Z.pow_pos_nonneg; lia).
    nia.
Qed.

Lemma ltb_canonical (ma mb : positive) (ea eb k : Z) :
  Z.pos (digits2_pos ma) = 24 -> Z.pos (digits2_pos mb) = 24 ->
  0 <= ea + k -> 0 <= eb + k ->
  F32.ltb (S754_finite false ma ea) (S754_finite false mb eb)
  = (Z.pos ma * 2 ^ (ea + k) <? Z.pos mb * 2 ^ (eb + k)).
Proof.
  intros Hda Hdb Hka Hkb.
  pose proof (digits2_bounds ma) as Ha. rewrite Hda in Ha.
  pose proof (digits2_bounds mb) as Hb. rewrite Hdb in Hb.
  change (24 - 1) with 23 in *.
  assert (Pa : 0 < 2 ^ (ea + k)) by (apply Z.pow_pos_nonneg; lia).
  assert (Pb : 0 < 2 ^ (eb + k)) by (apply Z.pow_pos_nonneg; lia).
  unfold F32.ltb, SFltb, SFcompare.
  pose proof (finite_compare_cases ma mb ea eb) as Hcases.
  destruct (match (ea ?= eb)%Z with
            | Eq => Pos.compare_cont Eq ma mb | Lt => Lt | Gt => Gt end);
    symmetry.
  - destruct Hcases as [-> ->]. apply Z.ltb_irrefl.
  - apply Z.ltb_lt. destruct Hcases as [Hlt|[-> Hlt]]; [ | nia].
    assert (Hpow : 2 ^ (eb + k) = 2 ^ (eb - ea) * 2 ^ (ea + k))
      by (rewrite <- Z.pow_add_r by lia; f_equal; lia).
    assert (H2 : 2 <= 2 ^ (eb - ea)).
    { change 2 with (2 ^ 1) at 1. apply Z.pow_le_mono_r; lia. }
    rewrite Hpow. nia.
  - apply Z.ltb_ge. destruct Hcases as [Hlt|[-> Hlt]]; [ | nia].
    assert (Hpow : 2 ^ (ea + k) = 2 ^ (ea - eb) * 2 ^ (eb + k))
      by (rewrite <- Z.pow_add_r by lia; f_equal; lia).
    assert (H2 : 2 <= 2 ^ (ea - eb)).
    { change 2 with (2 ^ 1) at 1. apply Z.pow_le_mono_r; lia. }
    rewrite Hpow. nia.
Qed.

(** Conversion of counts up to 2^24 preserves their order. *)
Lemma ltb_counts (a b : N) :
  (a <= 2 ^ 24)%N -> (b <= 2 ^ 24)%N ->
  F32.ltb (F32.of_N a) (F32.of_N b) = (a <? b)%N.
Proof.
  intros Ha Hb.
  destruct a as [|pa].
  { destruct b as [|pb]; [reflexivity | ].
    destruct (normal32_exists pb) as (mb & eb & Hnb & _); [lia | ].
    rewrite (of_N_normal pb mb eb Hnb). reflexivity. }
  destruct b as [|pb].
  { destruct (normal32_exists pa) as (ma & ea & Hna & _); [lia | ].
    rewrite (of_N_normal pa ma ea Hna). reflexivity. }
  destruct (normal32_exists pa) as (ma & ea & Hna & _); [lia | ].
  destruct (normal32_exists pb) as (mb & eb & Hnb & _); [lia | ].
  rewrite (of_N_normal pa ma ea Hna), (of_N_normal pb mb eb Hnb).
  destruct Hna as (Hda & Hra & Hva). destruct Hnb as (Hdb & Hrb & Hvb).
  rewrite (ltb_canonical ma mb ea eb 23) by (assumption || lia).
  rewrite <- Hva, <- Hvb. change (0 + 23) with 23.
  destruct (Z.ltb_spec (Z.pos pa * 2 ^ 23) (Z.pos pb * 2 ^ 23));
    destruct (N.ltb_spec (N.pos pa) (N.pos pb)); try reflexivity; lia.
Qed.

End Binary32.

Section Binary32Products.

Local Open Scope Z_scope.

(** A binary32 number times a power of two is a binary32 number. *)
Lemma normal32_scale (p : positive) (m' : positive) (e' k : Z) :
  0 <= k -> e' + k <= 104 ->
  normal32 (Z.pos p) 0 m' e' ->
  normal32 (Z.pos p * 2 ^ k) 0 m' (e' + k).
Proof.
  intros Hk Hrange (Hdig & Hr & Hval).
  split; [exact Hdig | ]. split; [lia | ].
  assert (E : 2 ^ (e' + k + 23) = 2 ^ (e' + 23) * 2 ^ k)
    by (rewrite <- Z.pow_add_r by lia; f_equal; lia).
  rewrite E, Z.mul_assoc, <- Hval. ring.
Qed.

(** 100 times a count of at most 671088 is a binary32 number: it is
    below 2^26 and a multiple of 4. *)
Lemma normal32_hundred (p : positive) :
  Z.pos p <= 671088 ->
  exists m' e', normal32 (Z.pos (100 * p)) 0 m' e' /\ e' <= 3.
Proof.
  intros Hp.
  destruct (normal32_exists (25 * p)) as (m' & e' & Hn & He).
  { change (2 ^ 24) with 16777216. lia. }
  exists m', (e' + 2). split; [ | lia].
  replace (Z.pos (100 * p)) with (Z.pos (25 * p) * 2 ^ 2) by lia.
  apply normal32_scale; [lia | lia | exact Hn].
Qed.

(** binary32 multiplication is exact on counts whose product is a
    binary32 number. *)
Lemma mul_exact (pa pb : positive) (mp : positive) (ep : Z) :
  Z.pos pa <= 2 ^ 24 -> Z.pos pb <= 2 ^ 24 ->
  normal32 (Z.pos (pa * pb)) 0 mp ep ->
  F32.mul (F32.of_N (N.pos pa)) (F32.of_N (N.pos pb))
  = F32.of_N (N.pos (pa * pb)).
Proof.
  intros Hpa Hpb Hp.
  destruct (normal32_exists pa) as (ma & ea & Ha & Hea); [lia | ].
  destruct (normal32_exists pb) as (mb & eb & Hb & Heb); [lia | ].
  rewrite (of_N_normal pa ma ea Ha), (of_N_normal pb mb eb Hb),
    (of_N_normal (pa * pb) mp ep Hp).
  unfold F32.mul, SFmul. cbn [xorb].
  destruct Ha as (Hda & Hra & Hva). destruct Hb as (Hdb & Hrb & Hvb).
  destruct Hp as (Hdp & Hrp & Hvp).
  change (0 + 23) with 23 in *.
  pose proof (digits2_bounds ma) as Hma. rewrite Hda in Hma.
  pose proof (digits2_bounds mb) as Hmb. rewrite Hdb in Hmb.
  pose proof (digits2_bounds mp) as Hmp. rewrite Hdp in Hmp.
  change (24 - 1) with 23 in *.
  assert (Hval : Z.pos (ma * mb) * 2 ^ (ea + eb + 46)
                 = Z.pos mp * 2 ^ (ep + 46)).
  { assert (E1 : 2 ^ (ea + eb + 46) = 2 ^ (ea + 23) * 2 ^ (eb + 23))
      by (rewrite <- Z.pow_add_r by lia; f_equal; lia).
    assert (E2 : 2 ^ (ep + 46) = 2 ^ (ep + 23) * 2 ^ 23)
      by (rewrite <- Z.pow_add_r by lia; f_equal; lia).
    rewrite E1, E2. rewrite Pos2Z.inj_mul in *.
    transitivity ((Z.pos ma * 2 ^ (ea + 23)) * (Z.pos mb * 2 ^ (eb + 23)));
      [ring | ].
    rewrite <- Hva, <- Hvb.
    transitivity ((Z.pos pa * Z.pos pb * 2 ^ 23) * 2 ^ 23); [ring | ].
    rewrite Hvp. ring. }
  assert (Hle : ea + eb <= ep).
  { destruct (Z.le_gt_cases (ea + eb) ep) as [H|H]; [exact H | exfalso].
    replace (ea + eb + 46) with ((ea + eb - ep) + (ep + 46)) in Hval by lia.
    rewrite (Z.pow_add_r 2 (ea + eb - ep)), Z.mul_assoc in Hval by lia.
    assert (0 < 2 ^ (ep + 46)) by (apply Z.pow_pos_nonneg; lia).
    apply Z.mul_reg_r in Hval; [ | lia].
    assert (0 < 2 ^ (ea + eb - ep)) by (apply Z.pow_pos_nonneg; lia).
    rewrite Pos2Z.inj_mul in Hval.
    assert (2 ^ 23 * 2 ^ 23 <= Z.pos ma * Z.pos mb) by nia.
    assert (2 ^ 24 < 2 ^ 23 * 2 ^ 23) by reflexivity.
    nia. }
  apply binary_round_aux_exact; try assumption; try lia.
  replace (ep + 46) with ((ep - (ea + eb)) + (ea + eb + 46)) in Hval by lia.
  rewrite (Z.pow_add_r 2 (ep - (ea + eb))), Z.mul_assoc in Hval by lia.
  assert (0 < 2 ^ (ea + eb + 46)) by (apply Z.pow_pos_nonneg; lia).
  apply Z.mul_reg_r in Hval; [exact Hval | lia].
Qed.

(** binary32 division is exact when the dividend is a binary32 number
    and the quotient a count. *)
Lemma div_exact (c m : positive) (ma : positive) (ea : Z) :
  Z.pos c <= 2 ^ 24 -> Z.pos m <= 2 ^ 24 ->
  normal32 (Z.pos (c * m)) 0 ma ea ->
  F32.div (F32.of_N (N.pos (c * m))) (F32.of_N (N.pos m)) = F32.of_N (N.pos c).
Proof.
  intros Hcb Hmb Ha.
  destruct (normal32_exists m) as (mm & em & Hm & Hem); [lia | ].
  destruct (normal32_exists c) as (mc & ec & Hc & Hec); [lia | ].
  rewrite (of_N_normal _ ma ea Ha), (of_N_normal _ mm em Hm),
    (of_N_normal _ mc ec Hc).
  destruct Ha as (Hda & Hra & Hva). destruct Hm as (Hdm & Hrm & Hvm).
  destruct Hc as (Hdc & Hrc & Hvc).
  change (0 + 23) with 23 in *.
  pose proof (digits2_bounds ma) as Hma. rewrite Hda in Hma.
  pose proof (digits2_bounds mm) as Hmm. rewrite Hdm in Hmm.
  pose proof (digits2_bounds mc) as Hmc. rewrite Hdc in Hmc.
  change (24 - 1) with 23 in *.
  rewrite div_normal by (assumption || lia).
  assert (Hval : Z.pos ma * 2 ^ (ea + 46)
                 = Z.pos mc * Z.pos mm * 2 ^ (ec + em + 46)).
  { assert (E1 : 2 ^ (ea + 46) = 2 ^ (ea + 23) * 2 ^ 23)
      by (rewrite <- Z.pow_add_r by lia; f_equal; lia).
    assert (E2 : 2 ^ (ec + em + 46) = 2 ^ (ec + 23) * 2 ^ (em + 23))
      by (rewrite <- Z.pow_add_r by lia; f_equal; lia).
    rewrite E1, E2, Z.mul_assoc, <- Hva, Pos2Z.inj_mul.
    transitivity ((Z.pos c * 2 ^ 23) * (Z.pos m * 2 ^ 23)); [ring | ].
    rewrite Hvc, Hvm. ring. }
  set (k := ea - em - ec) in *.
  assert (Hk : 23 <= k <= 24).
  { assert (Hprod2 : 2 ^ 46 <= Z.pos mc * Z.pos mm < 2 ^ 48).
    { change (2 ^ 46) with (2 ^ 23 * 2 ^ 23).
      change (2 ^ 48) with (2 ^ 24 * 2 ^ 24). nia. }
    destruct (Z.lt_ge_cases k 23) as [Hlt|Hge].
    - exfalso.
      assert (E1 : 2 ^ (ec + em + 46) = 2 ^ (23 - k) * 2 ^ (ea + 23))
        by (rewrite <- Z.pow_add_r by lia; f_equal; unfold k; lia).
      assert (E2 : 2 ^ (ea + 46) = 2 ^ 23 * 2 ^ (ea + 23))
        by (rewrite <- Z.pow_add_r by lia; f_equal; lia).
      rewrite E1, E2, !Z.mul_assoc in Hval.
      assert (0 < 2 ^ (ea + 23)) by (apply Z.pow_pos_nonneg; lia).
      apply Z.mul_reg_r in Hval; [ | lia].
      assert (2 <= 2 ^ (23 - k)).
      { change 2 with (2 ^ 1) at 1. apply Z.pow_le_mono_r; lia. }
      change (2 ^ 23) with 8388608 in *. change (2 ^ 24) with 16777216 in *.
      change (2 ^ 46) with 70368744177664 in *. nia.
    - split; [exact Hge | ].
      destruct (Z.le_gt_cases k 24) as [Hle|Hgt]; [exact Hle | exfalso].
      assert (E : 2 ^ (ea + 46) = 2 ^ (k - 24) * 2 ^ 24 * 2 ^ (ec + em + 46))
        by (rewrite <- !Z.pow_add_r by lia; f_equal; unfold k; lia).
      rewrite E, !Z.mul_assoc in Hval.
      assert (0 < 2 ^ (ec + em + 46)) by (apply Z.pow_pos_nonneg; lia).
      apply Z.mul_reg_r in Hval; [ | lia].
      assert (2 <= 2 ^ (k - 24)).
      { change 2 with (2 ^ 1) at 1. apply Z.pow_le_mono_r; lia. }
      change (2 ^ 23) with 8388608 in *. change (2 ^ 24) with 16777216 in *.
      change (2 ^ 48) with 281474976710656 in *. nia. }
  assert (Hquot : Z.pos ma * 2 ^ 24 = Z.pos mc * 2 ^ (24 - k) * Z.pos mm).
  { assert (E0 : 2 ^ (ea + 46) = 2 ^ k * 2 ^ (ec + em + 46))
      by (rewrite <- Z.pow_add_r by lia; f_equal; unfold k; lia).
    rewrite E0, Z.mul_assoc in Hval.
    assert (0 < 2 ^ (ec + em + 46)) by (apply Z.pow_pos_nonneg; lia).
    apply Z.mul_reg_r in Hval; [ | lia].
    assert (E : 2 ^ 24 = 2 ^ k * 2 ^ (24 - k))
      by (rewrite <- Z.pow_add_r by lia; f_equal; lia).
    rewrite E, Z.mul_assoc, Hval. ring. }
  rewrite Hquot, Z.div_mul, Z.mod_mul by lia.
  assert (Hq : 0 < Z.pos mc * 2 ^ (24 - k)).
  { assert (0 < 2 ^ (24 - k)) by (apply Z.pow_pos_nonneg; lia). nia. }
  destruct (Z.pos mc * 2 ^ (24 - k)) as [|pq|pq] eqn:Hpq; try lia.
  replace (new_location (Z.pos mm) 0) with loc_Exact
    by (unfold new_location, new_location_even, new_location_odd;
        destruct (Z.even (Z.pos mm)); reflexivity).
  apply binary_round_aux_exact; try assumption; try (unfold k in *; lia).
  rewrite <- Hpq. f_equal. f_equal. unfold k. lia.
Qed.

(** A smaller number has no larger exponent. *)
Lemma normal32_exponent_le (p1 p2 m1 m2 : positive) (e1 e2 j : Z) :
  normal32 (Z.pos p1) 0 m1 e1 -> normal32 (Z.pos p2) 0 m2 e2 ->
  0 <= j -> Z.pos p1 < Z.pos p2 * 2 ^ j ->
  e1 <= e2 + j.
Proof.
  intros (Hd1 & Hr1 & Hv1) (Hd2 & Hr2 & Hv2) Hj Hlt.
  change (0 + 23) with 23 in *.
  pose proof (digits2_bounds m1) as Hm1. rewrite Hd1 in Hm1.
  pose proof (digits2_bounds m2) as Hm2. rewrite Hd2 in Hm2.
  change (24 - 1) with 23 in *.
  destruct (Z.le_gt_cases e1 (e2 + j)) as [Hle|Hgt]; [exact Hle | exfalso].
  set (A := 2 ^ (e2 + 23)) in *. set (J := 2 ^ j) in *.
  assert (HA : 0 < A) by (apply Z.pow_pos_nonneg; lia).
  assert (HJ : 0 < J) by (apply Z.pow_pos_nonneg; lia).
  assert (E : 2 ^ (e1 + 23) = 2 ^ (e1 - e2 - j) * (J * A)).
  { unfold A, J. rewrite <- !Z.pow_add_r by lia. f_equal. lia. }
  assert (H2 : 2 <= 2 ^ (e1 - e2 - j)).
  { change 2 with (2 ^ 1) at 1. apply Z.pow_le_mono_r; lia. }
  assert (HJA : 0 < J * A) by nia.
  assert (Hbig : 2 * (J * A) <= 2 ^ (e1 + 23)) by (rewrite E; nia).
  assert (H1 : Z.pos p1 * 2 ^ 23 < Z.pos p2 * 2 ^ 23 * J) by nia.
  rewrite Hv1, Hv2 in H1.
  change (2 ^ 23) with 8388608 in *. change (2 ^ 24) with 16777216 in *.
  assert (H3 : 8388608 * (2 * (J * A)) <= Z.pos m1 * 2 ^ (e1 + 23)) by nia.
  assert (H4 : Z.pos m2 * A * J < 16777216 * (J * A)) by nia.
  lia.
Qed.

(** binary32 division of the product with a smaller count stays at or
    below the exact quotient of the product with the divisor. *)
Lemma div_below (c x m : positive) (ma : positive) (ea : Z) :
  Z.pos x < Z.pos m -> Z.pos c <= 2 ^ 24 -> Z.pos m <= 2 ^ 24 ->
  Z.pos x <= 2 ^ 22 ->
  normal32 (Z.pos (c * x)) 0 ma ea -> ea <= 3 ->
  F32.leb (F32.div (F32.of_N (N.pos (c * x))) (F32.of_N (N.pos m)))
    (F32.of_N (N.pos c)) = true /\
  F32.leb (S754_zero false)
    (F32.div (F32.of_N (N.pos (c * x))) (F32.of_N (N.pos m))) = true.
Proof.
  intros Hxm Hcb Hmb Hx Ha Hea.
  destruct (normal32_exists m) as (mm & em & Hm & Hem); [lia | ].
  destruct (normal32_exists c) as (mc & ec & Hc & Hec); [lia | ].
  rewrite (of_N_normal _ ma ea Ha), (of_N_normal _ mm em Hm),
    (of_N_normal _ mc ec Hc).
  destruct Ha as (Hda & Hra & Hva). destruct Hm as (Hdm & Hrm & Hvm).
  destruct Hc as (Hdc & Hrc & Hvc).
  change (0 + 23) with 23 in *. rewrite Pos2Z.inj_mul in Hva.
  pose proof (digits2_bounds ma) as Hma. rewrite Hda in Hma.
  pose proof (digits2_bounds mm) as Hmm. rewrite Hdm in Hmm.
  change (24 - 1) with 23 in *.
  rewrite div_normal by (assumption || lia).
  set (q := Z.pos ma * 2 ^ 24 / Z.pos mm).
  set (e0 := ea - em - 24).
  assert (Hq : 2 ^ 23 <= q < 2 ^ 25).
  { unfold q. split.
    - apply Z.div_le_lower_bound; [lia | ].
      change (2 ^ 24) with 16777216. change (2 ^ 23) with 8388608 in *. nia.
    - apply Z.div_lt_upper_bound; [lia | ].
      change (2 ^ 25) with 33554432. change (2 ^ 24) with 16777216 in *.
      change (2 ^ 23) with 8388608 in *. nia. }
  destruct (round_aux_bound q e0
              (new_location (Z.pos mm) (Z.pos ma * 2 ^ 24 mod Z.pos mm)))
    as (mr & er & -> & Hdr & Her & Hval); [exact Hq | unfold e0; lia | ].
  split; [ | reflexivity].
  assert (Hexp : ea <= em + 24).
  { apply (normal32_exponent_le (c * x) m ma mm ea em 24);
      [split; [exact Hda | split; [exact Hra | exact Hva]]
      | split; [exact Hdm | split; [exact Hrm | exact Hvm]] | lia | ].
    rewrite Pos2Z.inj_mul. nia. }
  set (K := 2 ^ (em - ea + 24)).
  assert (HK : 0 < K) by (apply Z.pow_pos_nonneg; lia).
  assert (Hqm : q * Z.pos mm <= Z.pos ma * 2 ^ 24).
  { unfold q. rewrite Z.mul_comm. apply Z.mul_div_le. lia. }
  assert (Pa : 0 < 2 ^ (ea + 23)) by (apply Z.pow_pos_nonneg; lia).
  assert (Pm : 0 < 2 ^ (em + 23)) by (apply Z.pow_pos_nonneg; lia).
  assert (EK : 2 ^ 24 * 2 ^ (em + 23) = 2 ^ (ea + 23) * K).
  { unfold K. rewrite <- !Z.pow_add_r by lia. f_equal. lia. }
  assert (H1 : q * Z.pos m <= Z.pos c * Z.pos x * K).
  { apply Z.mul_le_mono_pos_r with (p := 2 ^ 23); [reflexivity | ].
    replace (q * Z.pos m * 2 ^ 23) with (q * (Z.pos m * 2 ^ 23)) by ring.
    rewrite Hvm.
    replace (Z.pos c * Z.pos x * K * 2 ^ 23)
      with ((Z.pos c * Z.pos x * 2 ^ 23) * K) by ring.
    rewrite Hva.
    replace (Z.pos ma * 2 ^ (ea + 23) * K)
      with (Z.pos ma * (2 ^ (ea + 23) * K)) by ring.
    rewrite <- EK.
    replace (q * (Z.pos mm * 2 ^ (em + 23)))
      with ((q * Z.pos mm) * 2 ^ (em + 23)) by ring.
    replace (Z.pos ma * (2 ^ 24 * 2 ^ (em + 23)))
      with ((Z.pos ma * 2 ^ 24) * 2 ^ (em + 23)) by ring.
    apply Z.mul_le_mono_nonneg_r; lia. }
  assert (H2 : 2 * Z.pos m < Z.pos c * K).
  { assert (Hlow : 2 ^ 23 * (2 ^ 24 * 2 ^ (em + 23))
                   <= Z.pos c * Z.pos x * 2 ^ 23 * K).
    { rewrite Hva, EK.
      replace (Z.pos ma * 2 ^ (ea + 23) * K)
        with (Z.pos ma * (2 ^ (ea + 23) * K)) by ring.
      apply Z.mul_le_mono_nonneg_r; nia. }
    assert (Hup : Z.pos m * 2 ^ 23 < 2 ^ 24 * 2 ^ (em + 23)).
    { rewrite Hvm. apply Z.mul_lt_mono_pos_r; lia. }
    change (2 ^ 22) with 4194304 in *. change (2 ^ 23) with 8388608 in *.
    change (2 ^ 24) with 16777216 in *.
    assert (Hcx : Z.pos c * Z.pos x * K <= Z.pos c * K * 4194304) by nia.
    nia. }
  assert (H3 : q + 2 <= Z.pos c * K).
  { assert ((q + 2) * Z.pos m < Z.pos c * K * Z.pos m) by nia.
    nia. }
  apply (leb_canonical mr mc er ec (23 - e0)); try assumption;
    try (unfold e0 in *; lia).
  replace (er + (23 - e0)) with ((er - e0) + 23) by lia.
  replace (ec + (23 - e0)) with ((ec + 23) + (em - ea + 24))
    by (unfold e0; lia).
  rewrite !Z.pow_add_r by (unfold e0 in *; lia). fold K.
  rewrite !Z.mul_assoc, <- Hvc.
  replace (Z.pos c * 2 ^ 23 * K) with ((Z.pos c * K) * 2 ^ 23) by ring.
  apply Z.mul_le_mono_nonneg_r; [lia | ]. lia.
Qed.

End Binary32Products.

(** ** Candle sticks by lane *)

Section CandleStickByLaneFacts.

Context {Metric Options Point : Type}.
Context `{!TileRecord Metric, !TileFilter Options Metric, !CandlePoint Point}.
Variable proxy : Metric -> metric_type -> float32.
Variable options : Options.
Variable type : metric_type.

Local Abbreviation contrib := (contributes proxy options type).
Local Abbreviation values := (lane_values proxy options type).
Local Abbreviation fill := (fill_lanes proxy options type).

Lemma lane_values_nil (l : nat) : values [] l = [].
Proof. reflexivity. Qed.

Lemma lane_values_cons (b : Metric) (rs : list Metric) (l : nat) :
  values (b :: rs) l =
  if contrib b && Nat.eqb (lane b) l
  then proxy b type :: values rs l
  else values rs l.
Proof.
  unfold lane_values at 1. rewrite filter_cons.
  case_decide as Hd.
  - destruct Hd as [-> ->]. rewrite Nat.eqb_refl. reflexivity.
  - destruct (contrib b); simpl; [ | reflexivity].
    destruct (Nat.eqb_spec (lane b) l) as [He|He]; [ | reflexivity].
    exfalso. apply Hd. split; [reflexivity | exact He].
Qed.

Lemma push_back_lane_in_range (B : list (list float32)) (b : Metric)
    (val : float32) :
  1 <= lane b <= length B ->
  exists B', push_back_lane B b val = Ok B' /\
    length B' = length B /\
    forall i, B' !! i =
      (fun bucket => if Nat.eqb (lane b) (S i) then bucket ++ [val]
                     else bucket) <$> B !! i.
Proof.
  intros [Hlo Hhi]. unfold push_back_lane.
  destruct (lane b) as [|j] eqn:Hl; [lia | ]. simpl.
  destruct (at_index_lt B j) as (bucket & -> & Hb); [lia | ]. simpl.
  eexists. split; [reflexivity | ]. split; [apply length_insert | ].
  intros i. destruct (Nat.eqb_spec j i) as [->|Hne].
  - rewrite list_lookup_insert_eq by lia. rewrite Hb. simpl.
    rewrite ?Nat.eqb_refl. reflexivity.
  - rewrite list_lookup_insert_ne by exact Hne.
    destruct (B !! i) as [x|]; simpl; [ | reflexivity].
    destruct (Nat.eqb_spec j i); [contradiction | reflexivity].
Qed.

Lemma push_back_lane_out_of_range (B : list (list float32)) (b : Metric)
    (val : float32) :
  ~ (1 <= lane b <= length B) ->
  push_back_lane B b val = Err IndexOutOfBounds.
Proof.
  intros Hout. unfold push_back_lane.
  destruct (lane b) as [|j]; [reflexivity | ]. simpl.
  rewrite at_index_ge by lia. reflexivity.
Qed.

(** With every contributing record in range, the first loop appends to
    each bucket the values of its lane, in record order. *)
Lemma fill_lanes_in_range (rs : list Metric) (B : list (list float32)) :
  (forall b, b ∈ rs -> contrib b = true -> 1 <= lane b <= length B) ->
  exists B', fill rs B = Ok B' /\
    length B' = length B /\
    forall i, B' !! i = (fun bucket => bucket ++ values rs (S i)) <$> B !! i.
Proof.
  revert B. induction rs as [|b rs IH]; intros B Hin.
  - exists B. split; [reflexivity | ]. split; [reflexivity | ].
    intros i. destruct (B !! i); simpl; [ | reflexivity].
    rewrite app_nil_r. reflexivity.
  - assert (Htail : forall B0 : list (list float32), length B0 = length B ->
              forall b', b' ∈ rs -> contrib b' = true ->
                1 <= lane b' <= length B0).
    { intros B0 HB0 b' Hb' Hc. rewrite HB0. apply Hin; [ | exact Hc].
      apply list_elem_of_further. exact Hb'. }
    cbn [fill_lanes].
    pose proof (lane_values_cons b rs) as Hcons.
    unfold contributes in Hcons, Hin |- *.
    destruct (valid_tile options b) eqn:Hv; simpl in *.
    + destruct (F32.isnan (proxy b type)) eqn:Hn; simpl in *.
      * destruct (IH B (Htail B eq_refl)) as (B' & HB' & Hlen & Hget).
        exists B'. split; [exact HB' | ]. split; [exact Hlen | ].
        intros i. rewrite Hget, Hcons. reflexivity.
      * destruct (push_back_lane_in_range B b (proxy b type))
          as (B1 & -> & Hlen1 & Hget1).
        { apply Hin; [ | rewrite Hv, Hn; reflexivity]. apply list_elem_of_here. }
        simpl. destruct (IH B1 (Htail B1 Hlen1)) as (B' & HB' & Hlen & Hget).
        exists B'. split; [exact HB' | ]. split; [congruence | ].
        intros i. rewrite Hget, Hget1, Hcons.
        destruct (B !! i) as [bucket|]; simpl; [ | reflexivity].
        destruct (Nat.eqb (lane b) (S i)); [ | reflexivity].
        rewrite <- app_assoc. reflexivity.
    + destruct (IH B (Htail B eq_refl)) as (B' & HB' & Hlen & Hget).
      exists B'. split; [exact HB' | ]. split; [exact Hlen | ].
      intros i. rewrite Hget, Hcons. reflexivity.
Qed.

(** A contributing record outside the lanes of the set stops the first
    loop at an access past the end of the bucket vector. *)
Lemma fill_lanes_out_of_range (rs : list Metric) (B : list (list float32))
    (b : Metric) :
  b ∈ rs -> contrib b = true -> ~ (1 <= lane b <= length B) ->
  fill rs B = Err IndexOutOfBounds.
Proof.
  revert B. induction rs as [|b0 rs IH]; intros B Hb Hc Hout.
  - inversion Hb.
  - cbn [fill_lanes].
    apply elem_of_cons in Hb as [->|Hb].
    + unfold contributes in Hc.
      apply andb_true_iff in Hc as [-> Hn]. apply negb_true_iff in Hn.
      simpl. rewrite Hn.
      rewrite push_back_lane_out_of_range by exact Hout. reflexivity.
    + destruct (negb (valid_tile options b0)); [apply IH; assumption | ].
      simpl. destruct (F32.isnan (proxy b0 type)); [apply IH; assumption | ].
      destruct (Nat.le_gt_cases 1 (lane b0)) as [Hlo|Hlo].
      * destruct (Nat.le_gt_cases (lane b0) (length B)) as [Hhi|Hhi].
        -- destruct (push_back_lane_in_range B b0 (proxy b0 type))
             as (B1 & -> & Hlen1 & _); [lia | ].
           simpl. apply IH; [exact Hb | exact Hc | rewrite Hlen1; exact Hout].
        -- rewrite push_back_lane_out_of_range by lia. reflexivity.
      * rewrite push_back_lane_out_of_range by lia. reflexivity.
Qed.

(** Lanes kept by a filter of [seq] stay in increasing order. *)
Lemma filter_seq_increasing (P : nat -> Prop) `{!forall l, Decision (P l)}
    (n start k1 k2 l1 l2 : nat) :
  k1 < k2 ->
  filter P (seq start n) !! k1 = Some l1 ->
  filter P (seq start n) !! k2 = Some l2 ->
  l1 < l2.
Proof.
  revert start k1 k2.
  induction n as [|n IH]; intros start k1 k2 Hk H1 H2; [discriminate | ].
  simpl in H1, H2. rewrite filter_cons in H1, H2.
  case_decide; [ | eapply IH; eassumption].
  destruct k2 as [|k2]; [lia | ]. simpl in H2.
  destruct k1 as [|k1]; simpl in H1.
  - injection H1 as <-.
    assert (Hin : l2 ∈ filter P (seq (S start) n))
      by (apply list_elem_of_lookup; exists k2; exact H2).
    apply list_elem_of_filter in Hin as [_ Hin].
    apply elem_of_seq in Hin. lia.
  - eapply (IH (S start) k1 k2); [lia | eassumption | eassumption].
Qed.

(** The second loop fills one point per non-empty bucket, from [offset]
    on, and leaves the points before [offset] alone. *)
Lemma emit_points_spec (f : nat -> list float32) (n i : nat)
    (points : list Point) (offset : nat) (outliers : list float32) :
  offset + n <= length points ->
  exists points' offset',
    emit_points (map f (seq (S i) n)) i points offset outliers
      = Ok (points', offset') /\
    length points' = length points /\
    offset' = offset + length (filter (fun l => f l <> []) (seq (S i) n)) /\
    (forall j, j < offset -> points' !! j = points !! j) /\
    forall k l, filter (fun l => f l <> []) (seq (S i) n) !! k = Some l ->
      exists p out,
        points !! (offset + k) = Some p /\
        points' !! (offset + k)
          = Some (fst (plot_candle_stick p (f l) (F32.of_nat l) out)).
Proof.
  revert i points offset outliers.
  induction n as [|n IH]; intros i points offset outliers Hlen.
  - exists points, offset. simpl. repeat split; [lia | ].
    intros k l Hk. discriminate.
  - cbn [seq map emit_points]. rewrite filter_cons.
    destruct (f (S i)) as [|v vs] eqn:Hf.
    + rewrite decide_False by (intros Hne; apply Hne; reflexivity).
      apply IH. lia.
    + rewrite decide_True by discriminate.
      destruct (at_index_lt points offset) as (p & -> & Hp); [lia | ].
      cbn [bind].
      destruct (plot_candle_stick p (v :: vs) (F32.of_nat (i + 1)) outliers)
        as [p' outliers'] eqn:Hplot.
      destruct (IH (S i) (<[offset := p']> points) (S offset) outliers')
        as (points' & offset' & -> & Hlen' & Hoff & Hkeep & Hnew).
      { rewrite length_insert. lia. }
      exists points', offset'. split; [reflexivity | ].
      rewrite length_insert in Hlen'. split; [exact Hlen' | ].
      split; [simpl; lia | ].
      split.
      * intros j Hj. rewrite Hkeep by lia.
        apply list_lookup_insert_ne. lia.
      * intros [|k] l Hk; simpl in Hk.
        -- injection Hk as <-. exists p, outliers.
           rewrite Nat.add_0_r. split; [exact Hp | ].
           rewrite Hkeep by lia. rewrite list_lookup_insert_eq by lia.
           rewrite Hf, <- (Nat.add_1_r i), Hplot. reflexivity.
        -- destruct (Hnew k l Hk) as (q & out & Hq & Hq').
           exists q, out. rewrite <- Nat.add_succ_comm.
           split; [ | exact Hq'].
           rewrite list_lookup_insert_ne in Hq by lia. exact Hq.
Qed.

(** The buckets the first loop builds from empty ones. *)
Lemma fill_lanes_from_empty (rs : list Metric) (n : nat) :
  (forall b, b ∈ rs -> contrib b = true -> 1 <= lane b <= n) ->
  fill rs (replicate n []) = Ok (map (values rs) (seq 1 n)).
Proof.
  intros Hin.
  destruct (fill_lanes_in_range rs (replicate n [])) as (B' & -> & Hlen & Hget).
  { rewrite length_replicate. exact Hin. }
  f_equal. apply list_eq. intros i. rewrite Hget, list_lookup_fmap.
  destruct (Nat.lt_ge_cases i n) as [Hi|Hi].
  - rewrite lookup_replicate_2, lookup_seq_lt by exact Hi. reflexivity.
  - rewrite lookup_seq_ge by exact Hi.
    rewrite (proj1 (lookup_replicate_None n [] i)) by exact Hi. reflexivity.
Qed.

Lemma lane_values_nonempty (rs : list Metric) (l : nat) :
  values rs l <> [] <->
  exists b, b ∈ rs /\ contrib b = true /\ lane b = l.
Proof.
  induction rs as [|b rs IH].
  - split; [intros H; contradiction | ].
    intros (b & Hb & _). inversion Hb.
  - rewrite lane_values_cons.
    destruct (contrib b && Nat.eqb (lane b) l) eqn:Hc.
    + split; [intros _ | discriminate].
      apply andb_true_iff in Hc as [Hc He]. apply Nat.eqb_eq in He.
      exists b. split; [apply list_elem_of_here | ]. split; assumption.
    + rewrite IH. split; intros (b' & Hb' & Hc' & Hl').
      * exists b'. split; [apply list_elem_of_further; exact Hb' | ].
        split; assumption.
      * exists b'. split; [ | split; assumption].
        apply elem_of_cons in Hb' as [->|Hb']; [ | exact Hb'].
        rewrite Hc' in Hc. apply Nat.eqb_eq in Hl'. rewrite Hl' in Hc.
        discriminate.
Qed.

(** Without a contributing record no point is emitted. *)
Lemma populate_no_values (metrics : metric_set Metric) (points : list Point) :
  (forall b, b ∈ records metrics -> contrib b = false) ->
  populate_candle_stick_by_lane proxy metrics options type points = Ok [].
Proof.
  intros Hnone. unfold populate_candle_stick_by_lane.
  rewrite fill_lanes_from_empty
    by (intros b Hb Hc; rewrite (Hnone b Hb) in Hc; discriminate).
  cbn [bind].
  destruct (emit_points_spec (values (records metrics)) (max_lane metrics) 0
              (resize (max_lane metrics) default_point points) 0 [])
    as (points' & offset' & -> & _ & Hoff & _).
  { rewrite length_resize. lia. }
  cbn [bind]. replace offset' with 0; [destruct points'; reflexivity | ].
  rewrite Hoff. simpl. symmetry. apply length_zero_iff_nil.
  apply elem_of_nil_inv. intros l Hl.
  apply list_elem_of_filter in Hl as [Hne _].
  apply lane_values_nonempty in Hne as (b & Hb & Hc & _).
  rewrite (Hnone b Hb) in Hc. discriminate.
Qed.

(** The engine fails in one way only: by an access out of range. *)
Lemma fill_lanes_failure (rs : list Metric) (B : list (list float32))
    (e : error) :
  fill rs B = Err e -> e = IndexOutOfBounds.
Proof.
  revert B. induction rs as [|b rs IH]; intros B; [discriminate | ].
  cbn [fill_lanes].
  destruct (negb (valid_tile options b)); [apply IH | ].
  simpl. destruct (F32.isnan (proxy b type)); [apply IH | ].
  unfold push_back_lane.
  destruct (pred_index (lane b)) as [i|]; [ | simpl; congruence].
  unfold at_index. destruct (B !! i); simpl; [apply IH | congruence].
Qed.

Lemma emit_points_failure (buckets : list (list float32)) (i : nat)
    (points : list Point) (offset : nat) (outliers : list float32)
    (e : error) :
  emit_points buckets i points offset outliers = Err e ->
  e = IndexOutOfBounds.
Proof.
  revert i points offset outliers.
  induction buckets as [|bucket rest IH]; intros i points offset outliers;
    [discriminate | ].
  cbn [emit_points]. destruct bucket as [|v vs]; [apply IH | ].
  unfold at_index. destruct (points !! offset) as [p|]; simpl; [ | congruence].
  destruct (plot_candle_stick p (v :: vs) (F32.of_nat (i + 1)) outliers).
  apply IH.
Qed.

Lemma populate_failure (metrics : metric_set Metric) (points : list Point)
    (e : error) :
  populate_candle_stick_by_lane proxy metrics options type points = Err e ->
  e = IndexOutOfBounds.
Proof.
  unfold populate_candle_stick_by_lane.
  destruct (fill _ _) as [B'|e1] eqn:Hfill; simpl.
  - destruct (emit_points _ _ _ _ _) as [[points2 offset]|e2] eqn:Hemit;
      simpl; [discriminate | ].
    intros [= <-]. eapply emit_points_failure. exact Hemit.
  - intros [= <-]. eapply fill_lanes_failure. exact Hfill.
Qed.

(** With every contributing record in range the engine returns. *)
Lemma populate_returns (metrics : metric_set Metric) (points : list Point) :
  lanes_in_range proxy options type metrics ->
  exists pts,
    populate_candle_stick_by_lane proxy metrics options type points = Ok pts.
Proof.
  intros Hin. unfold populate_candle_stick_by_lane.
  rewrite fill_lanes_from_empty by exact Hin. cbn [bind].
  destruct (emit_points_spec (values (records metrics)) (max_lane metrics) 0
              (resize (max_lane metrics) default_point points) 0 [])
    as (points' & offset' & -> & _).
  { rewrite length_resize. lia. }
  cbn [bind]. eexists. reflexivity.
Qed.

(** C1: with every contributing record in a lane of the set,
    [populate_candle_stick_by_lane] emits exactly one point per lane that
    has a record passing [valid_tile] with a proxy value that is not NaN.
    The points follow the increasing order of those lanes without gaps,
    and the point of lane [l] is the candle stick, at x = [l], of the
    proxy values of the contributing records of lane [l]. *)
Theorem populate_candle_stick_by_lane_points (metrics : metric_set Metric)
    (points : list Point) :
  lanes_in_range proxy options type metrics ->
  exists pts lanes,
    populate_candle_stick_by_lane proxy metrics options type points = Ok pts /\
    (forall l, l ∈ lanes <->
       exists b, b ∈ records metrics /\ contrib b = true /\ lane b = l) /\
    (forall k1 k2 l1 l2, k1 < k2 ->
       lanes !! k1 = Some l1 -> lanes !! k2 = Some l2 -> l1 < l2) /\
    length pts = length lanes /\
    forall k l, lanes !! k = Some l ->
      exists p outliers,
        pts !! k =
          Some (fst (plot_candle_stick p (values (records metrics) l)
                       (F32.of_nat l) outliers)).
Proof.
  intros Hin. unfold populate_candle_stick_by_lane.
  rewrite fill_lanes_from_empty by exact Hin. cbn [bind].
  destruct (emit_points_spec (values (records metrics)) (max_lane metrics) 0
              (resize (max_lane metrics) default_point points) 0 [])
    as (points' & offset' & -> & Hlen' & Hoff & _ & Hnew).
  { rewrite length_resize. lia. }
  cbn [bind]. rewrite length_resize in Hlen'. simpl in Hoff.
  exists (resize offset' default_point points'),
    (lanes_with_values proxy options type metrics).
  split; [reflexivity | ]. split; [ | split; [ | split]].
  - intros l. unfold lanes_with_values.
    rewrite list_elem_of_filter, elem_of_seq, lane_values_nonempty.
    split; [intros [H _]; exact H | ].
    intros (b & Hb & Hc & Hl). split; [exists b; auto | ].
    specialize (Hin b Hb Hc). lia.
  - intros k1 k2 l1 l2. unfold lanes_with_values.
    apply filter_seq_increasing.
  - rewrite length_resize. exact Hoff.
  - intros k l Hk. destruct (Hnew k l Hk) as (p & out & _ & Hp).
    exists p, out. simpl in Hp.
    apply lookup_lt_Some in Hk. unfold lanes_with_values in Hk.
    rewrite lookup_resize; [exact Hp | lia | ].
    apply lookup_lt_Some in Hp. exact Hp.
Qed.

(** C10: the bucket vector is read at [lane - 1] unchecked. When every
    record has its lane in [1, max_lane] no access leaves the vector and
    the points are produced; a contributing record with lane 0 or with a
    lane above [max_lane] makes its access fall outside the vector. *)
Theorem bucket_access_in_bounds (metrics : metric_set Metric)
    (points : list Point) :
  ((forall b, b ∈ records metrics -> 1 <= lane b <= max_lane metrics) ->
   exists pts,
     populate_candle_stick_by_lane proxy metrics options type points = Ok pts)
  /\
  (forall b, b ∈ records metrics -> contrib b = true ->
     lane b = 0 \/ max_lane metrics < lane b ->
     populate_candle_stick_by_lane proxy metrics options type points
       = Err IndexOutOfBounds).
Proof.
  split.
  - intros Hin. unfold populate_candle_stick_by_lane.
    rewrite fill_lanes_from_empty by (intros b Hb _; apply Hin; exact Hb).
    cbn [bind].
    destruct (emit_points_spec (values (records metrics)) (max_lane metrics) 0
                (resize (max_lane metrics) default_point points) 0 [])
      as (points' & offset' & -> & _).
    { rewrite length_resize. lia. }
    cbn [bind]. eexists. reflexivity.
  - intros b Hb Hc Hout. unfold populate_candle_stick_by_lane.
    rewrite (fill_lanes_out_of_range (records metrics) _ b Hb Hc).
    + reflexivity.
    + rewrite length_replicate. lia.
Qed.

End CandleStickByLaneFacts.

(** ** [plot_by_lane] *)

Section PlotByLaneFacts.

Context {TM QM QLM Options Point : Type}.
Context `{!TileRecord TM, !TileFilter Options TM, !FilterOptions Options,
          !CandlePoint Point, !PlotHelpers TM Point}.

Implicit Types (metrics : run_metrics TM QM QLM) (options : Options)
  (data : plot_data Point) (type : metric_type).

(** Evaluation of the plot-data shell, leaving arithmetic alone. *)
Ltac eval_shell :=
  cbn [data_series x_range y_range x_label y_label title
       set_series set_xrange set_yrange set_xlabel set_ylabel set_title
       series_points series_title series_color
       at_index lookup list_lookup insert list_insert app bind fst snd].

(** Case analysis on the population of the second ("PF") series. *)
Ltac destruct_second_series pts e H :=
  match goal with
  | |- context [populate_candle_stick_by_lane ?p ?m ?o
                  (if ?c then ?a else ?b) ?ps] =>
      destruct (populate_candle_stick_by_lane p m o (if c then a else b) ps)
        as [pts|e] eqn:H
  end.

Ltac unfold_shell :=
  unfold auto_scale; eval_shell;
  repeat match goal with
    | |- context [scale_ranges ?ss ?b ?f] =>
        destruct (scale_ranges ss b f) as [? ?]; eval_shell
    end.

(** The result of [plot_by_lane] does not depend on what the plot data
    held before the call. *)
Lemma plot_by_lane_overwrites metrics type options data data' :
  plot_by_lane metrics type options data
  = plot_by_lane metrics type options data'.
Proof.
  unfold plot_by_lane, populate_series. eval_shell.
  destruct (populate_candle_stick_by_lane _ _ _ type _) as [pts|e];
    [ | reflexivity].
  eval_shell.
  destruct (metric_type_eqb type ClusterCount || metric_type_eqb type Density);
    eval_shell.
  - destruct_second_series pts' e H2; [ | reflexivity].
    unfold_shell.
    destruct (metric_type_eqb type PercentPrephasing
              || metric_type_eqb type PercentPhasing); reflexivity.
  - unfold_shell.
    destruct (metric_type_eqb type PercentPrephasing
              || metric_type_eqb type PercentPhasing); reflexivity.
Qed.

Lemma plot_by_lane_failure metrics type options data (e : error) :
  plot_by_lane metrics type options data = Err e -> e = IndexOutOfBounds.
Proof.
  unfold plot_by_lane, populate_series. eval_shell.
  destruct (populate_candle_stick_by_lane _ _ _ type _) as [pts|e1] eqn:H1;
    eval_shell.
  - destruct (metric_type_eqb type ClusterCount
              || metric_type_eqb type Density); eval_shell; [ | discriminate].
    destruct_second_series pts' e2 H2; eval_shell; [discriminate | ].
    intros [= <-]. eapply populate_failure. exact H2.
  - intros [= <-]. eapply populate_failure. exact H1.
Qed.

(** C5: for [PercentPhasing] and [PercentPrephasing], [plot_by_lane]
    leaves the y-range at exactly [0, 1], whatever [auto_scale] computed
    from the data with its padding of 1.2. *)
Theorem plot_by_lane_phasing_y_range metrics type options data :
  type = PercentPhasing \/ type = PercentPrephasing ->
  lanes_in_range (metric_value (read options)) options type
    (tile_metrics metrics) ->
  exists d,
    plot_by_lane metrics type options data = Ok d /\
    y_range d = (F32.of_Z 0, F32.of_Z 1) /\
    F32.to_Z (fst (y_range d)) = Some 0%Z /\
    F32.to_Z (snd (y_range d)) = Some 1%Z.
Proof.
  intros Htype Hin.
  destruct (populate_returns (metric_value (read options)) options type
              (tile_metrics metrics) [] Hin) as [pts Hpts].
  unfold plot_by_lane, populate_series. eval_shell. rewrite Hpts. eval_shell.
  destruct Htype as [-> | ->]; cbn [metric_type_eqb orb]; eval_shell;
    eexists; (split; [reflexivity | ]); eval_shell;
    repeat split.
Qed.

(** C8: the string form of [plot_by_lane] fails with the invalid-argument
    error of the enum parser exactly when the metric name is unknown. For
    a known name and a metric set that is empty or holds no number for
    any passing record, it returns plot data whose series are present and
    have no points. *)
Theorem plot_by_lane_named_failure metrics (name : string) options data :
  (plot_by_lane_named metrics name options data = Err InvalidArgument <->
   metric_type_of_name name = None) /\
  (forall type, metric_type_of_name name = Some type ->
     (forall b t, b ∈ records (tile_metrics metrics) ->
        valid_tile options b = true ->
        F32.isnan (metric_value (read options) b t) = true) ->
     exists d,
       plot_by_lane_named metrics name options data = Ok d /\
       data_series d <> [] /\
       forall s, s ∈ data_series d -> series_points s = []).
Proof.
  unfold plot_by_lane_named, parse_metric_type. split.
  - destruct (metric_type_of_name name) as [type|]; cbn [bind].
    + split; [ | discriminate]. intros Hfail.
      apply plot_by_lane_failure in Hfail. discriminate.
    + split; reflexivity.
  - intros type -> Hnan. cbn [bind].
    assert (Hnone : forall t, forall b, b ∈ records (tile_metrics metrics) ->
              contributes (metric_value (read options)) options t b = false).
    { intros t b Hb. unfold contributes.
      destruct (valid_tile options b) eqn:Hv; [ | reflexivity].
      rewrite (Hnan b t Hb Hv). reflexivity. }
    unfold plot_by_lane, populate_series. eval_shell.
    rewrite (populate_no_values _ _ _ _ _ (Hnone type)). eval_shell.
    destruct (metric_type_eqb type ClusterCount
              || metric_type_eqb type Density); eval_shell.
    + rewrite (populate_no_values _ _ _ _ _ (Hnone _)). eval_shell.
      eexists. split; [reflexivity | ].
      destruct (metric_type_eqb type PercentPrephasing
                || metric_type_eqb type PercentPhasing);
        unfold_shell; (split; [discriminate | ]); intros s Hs;
        repeat (apply elem_of_cons in Hs as [->|Hs]);
        try reflexivity; inversion Hs.
    + eexists. split; [reflexivity | ].
      destruct (metric_type_eqb type PercentPrephasing
                || metric_type_eqb type PercentPhasing);
        unfold_shell; (split; [discriminate | ]); intros s Hs;
        repeat (apply elem_of_cons in Hs as [->|Hs]);
        try reflexivity; inversion Hs.
Qed.

End PlotByLaneFacts.

(** ** The heat-map matrix *)

Lemma for_range_invariant {S : Type} (I : nat -> S -> Prop)
    (count start : nat) (body : nat -> S -> result S) (s : S) :
  I start s ->
  (forall i s, start <= i < start + count -> I i s ->
     exists s', body i s = Ok s' /\ I (Datatypes.S i) s') ->
  exists s', for_range count start body s = Ok s' /\ I (start + count) s'.
Proof.
  revert start s. induction count as [|count IH]; intros start s H0 Hstep.
  - exists s. rewrite Nat.add_0_r. split; [reflexivity | exact H0].
  - destruct (Hstep start s) as (s1 & Hbody & H1); [lia | exact H0 | ].
    destruct (IH (Datatypes.S start) s1 H1) as (s' & Hrest & Hs').
    { intros i s2 Hi. apply Hstep. lia. }
    exists s'. cbn [for_range]. rewrite Hbody. cbn [bind].
    split; [exact Hrest | ]. rewrite <- Nat.add_succ_comm. exact Hs'.
Qed.

Lemma for_range_invariant_upto {S : Type} (I : nat -> S -> Prop)
    (start stop : nat) (body : nat -> S -> result S) (s : S) :
  start <= stop ->
  I start s ->
  (forall i s, start <= i < stop -> I i s ->
     exists s', body i s = Ok s' /\ I (Datatypes.S i) s') ->
  exists s', for_range (stop - start) start body s = Ok s' /\ I stop s'.
Proof.
  intros Hle H0 Hstep.
  destruct (for_range_invariant I (stop - start) start body s H0)
    as (s' & Hrun & Hs').
  - intros i s1 Hi. apply Hstep. lia.
  - exists s'. split; [exact Hrun | ].
    replace (start + (stop - start)) with stop in Hs' by lia. exact Hs'.
Qed.

Lemma for_each_invariant {A S : Type} (I : list A -> S -> Prop)
    (l : list A) (body : A -> S -> result S) (s : S) :
  I [] s ->
  (forall pre a post s, l = pre ++ a :: post -> I pre s ->
     exists s', body a s = Ok s' /\ I (pre ++ [a]) s') ->
  exists s', for_each l body s = Ok s' /\ I l s'.
Proof.
  intros H0 Hstep.
  assert (Hgen : forall post pre s, l = pre ++ post -> I pre s ->
            exists s', for_each post body s = Ok s' /\ I l s').
  { induction post as [|a post IH]; intros pre s1 Hl Hpre.
    - exists s1. rewrite app_nil_r in Hl. subst pre.
      split; [reflexivity | exact Hpre].
    - destruct (Hstep pre a post s1 Hl Hpre) as (s2 & Hbody & H2).
      destruct (IH (pre ++ [a]) s2) as (s' & Hrest & Hs').
      { rewrite <- app_assoc. exact Hl. }
      { exact H2. }
      exists s'. cbn [for_each]. rewrite Hbody. cbn [bind].
      split; [exact Hrest | exact Hs']. }
  apply (Hgen l [] s); [reflexivity | exact H0].
Qed.

Lemma cell_index_lt (R C r c : nat) : r < R -> c < C -> r * C + c < R * C.
Proof.
  intros Hr Hc.
  pose proof (Nat.mul_le_mono_r (Datatypes.S r) R C Hr) as Hmul.
  simpl in Hmul. lia.
Qed.

Lemma cell_index_inj (C r c r' c' : nat) :
  c < C -> c' < C -> r * C + c = r' * C + c' -> r = r' /\ c = c'.
Proof.
  intros Hc Hc' Heq.
  assert (Hr : r = r').
  { destruct (Nat.lt_trichotomy r r') as [Hlt|[Heq'|Hgt]]; [ | exact Heq' | ].
    - pose proof (Nat.mul_le_mono_r (Datatypes.S r) r' C Hlt) as Hmul.
      simpl in Hmul. lia.
    - pose proof (Nat.mul_le_mono_r (Datatypes.S r') r C Hgt) as Hmul.
      simpl in Hmul. lia. }
  subst r'. split; [reflexivity | lia].
Qed.

Lemma represents_ext (R C : nat) (G G' : nat -> nat -> float32)
    (d : heatmap_data) :
  (forall r c, r < R -> c < C -> G r c = G' r c) ->
  represents R C G d -> represents R C G' d.
Proof.
  intros Hext (HR & HC & Hlen & Hget). repeat split; try assumption.
  intros r c Hr Hc. rewrite <- Hext by assumption. apply Hget; assumption.
Qed.

(** Every well-formed heat map is the matrix of its cells. *)
Lemma well_formed_represents (d : heatmap_data) :
  well_formed d ->
  represents (row_count d) (column_count d)
    (fun r c => default F32.zero (cells d !! (r * column_count d + c))) d.
Proof.
  intros Hwf. repeat split; [exact Hwf | ].
  intros r c Hr Hc.
  destruct (lookup_lt_is_Some_2 (cells d) (r * column_count d + c))
    as [x Hx].
  - rewrite Hwf. apply cell_index_lt; assumption.
  - rewrite Hx. reflexivity.
Qed.

Lemma heatmap_at_represents (R C : nat) (G : nat -> nat -> float32)
    (d : heatmap_data) (r c : nat) :
  represents R C G d -> r < R -> c < C ->
  heatmap_at d (Some r) (Some c) = Ok (G r c).
Proof.
  intros (HR & HC & Hlen & Hget) Hr Hc. unfold heatmap_at, index_of.
  rewrite HR, HC.
  rewrite (proj2 (Nat.ltb_lt r R) Hr), (proj2 (Nat.ltb_lt c C) Hc).
  cbn [andb bind]. unfold at_index. rewrite Hget by assumption. reflexivity.
Qed.

Lemma heatmap_at_out_of_range (d : heatmap_data) (r c : nat) :
  ~ (r < row_count d /\ c < column_count d) ->
  heatmap_at d (Some r) (Some c) = Err IndexOutOfBounds.
Proof.
  intros Hout. unfold heatmap_at, index_of.
  destruct (Nat.ltb_spec r (row_count d)); [ | reflexivity].
  destruct (Nat.ltb_spec c (column_count d)); [ | reflexivity].
  exfalso. apply Hout. split; assumption.
Qed.

Lemma heatmap_set_represents (R C : nat) (G : nat -> nat -> float32)
    (d : heatmap_data) (r c : nat) (v : float32) :
  represents R C G d -> r < R -> c < C ->
  exists d',
    heatmap_set d (Some r) (Some c) v = Ok d' /\
    d' = with_cells (<[r * C + c := v]> (cells d)) d /\
    represents R C
      (fun r' c' => if Nat.eqb r' r && Nat.eqb c' c then v else G r' c') d'.
Proof.
  intros (HR & HC & Hlen & Hget) Hr Hc. unfold heatmap_set, index_of.
  rewrite HR, HC.
  rewrite (proj2 (Nat.ltb_lt r R) Hr), (proj2 (Nat.ltb_lt c C) Hc).
  cbn [andb bind]. unfold at_index. rewrite Hget by assumption.
  cbn [bind]. eexists. split; [reflexivity | ]. split; [reflexivity | ].
  unfold with_cells. repeat split; cbn; try assumption.
  - rewrite length_insert. exact Hlen.
  - intros r' c' Hr' Hc'.
    destruct (Nat.eqb_spec r' r) as [->|Hne]; cbn [andb].
    + destruct (Nat.eqb_spec c' c) as [->|Hne].
      * apply list_lookup_insert_eq. rewrite Hlen.
        apply cell_index_lt; assumption.
      * rewrite list_lookup_insert_ne by lia. apply Hget; assumption.
    + rewrite list_lookup_insert_ne.
      * apply Hget; assumption.
      * intros Heq. apply cell_index_inj in Heq as [Heq _]; try assumption.
        congruence.
Qed.

(** ** Bin re-expansion *)

Lemma first_column_eq (q : q_score_bin) : first_column q = lower q - 1.
Proof. unfold first_column. lia. Qed.

Lemma pred_index_pos (x : nat) : 1 <= x -> pred_index x = Some (x - 1).
Proof.
  intros Hx. destruct x as [|x]; [lia | ]. simpl.
  rewrite Nat.sub_0_r. reflexivity.
Qed.

(** The innermost loop copies the representative column into column
    [col], row by row. *)
Lemma remap_cycle_loop (R C : nat) (G : nat -> nat -> float32)
    (q : q_score_bin) (col max_cycle : nat) (d : heatmap_data) :
  represents R C G d -> max_cycle <= R -> col < C ->
  1 <= value q <= C ->
  exists d',
    for_range max_cycle 0
      (fun cycle data =>
         do x <- heatmap_at data (Some cycle) (pred_index (value q));
         heatmap_set data (Some cycle) (Some col) x) d = Ok d' /\
    represents R C
      (fun r c => if (r <? max_cycle) && (c =? col)
                  then G r (value q - 1) else G r c) d'.
Proof.
  intros Hrep Hmax Hcol Hval.
  apply (for_range_invariant
           (fun i s => represents R C
              (fun r c => if (r <? i) && (c =? col)
                          then G r (value q - 1) else G r c) s)).
  - eapply represents_ext; [ | exact Hrep]. reflexivity.
  - intros i s Hi Hs. rewrite pred_index_pos by lia.
    rewrite (heatmap_at_represents _ _ _ _ i (value q - 1) Hs) by lia.
    cbn [bind]. rewrite Nat.ltb_irrefl. cbn [andb].
    destruct (heatmap_set_represents _ _ _ _ i col (G i (value q - 1)) Hs)
      as (s' & Hset & _ & Hs'); [lia | exact Hcol | ].
    exists s'. split; [exact Hset | ].
    eapply represents_ext; [ | exact Hs']. intros r c Hr Hc. cbn beta.
    destruct (Nat.eqb_spec r i) as [Heq|Hne];
      destruct (Nat.eqb_spec c col) as [Heq'|Hne'];
      destruct (Nat.ltb_spec r (Datatypes.S i));
      destruct (Nat.ltb_spec r i); cbn [andb]; subst;
      try reflexivity; lia.
Qed.

(** The loop over the columns of one bin. *)
Lemma remap_column_loop (R C : nat) (G : nat -> nat -> float32)
    (q : q_score_bin) (max_cycle : nat) (d : heatmap_data) :
  represents R C G d -> max_cycle <= R ->
  1 <= lower q -> lower q <= value q -> value q <= upper q -> upper q <= C ->
  exists d',
    for_range (upper q - first_column q) (first_column q)
      (fun bin data =>
         for_range max_cycle 0
           (fun cycle data =>
              do x <- heatmap_at data (Some cycle) (pred_index (value q));
              heatmap_set data (Some cycle) (Some bin) x)
           data) d = Ok d' /\
    represents R C
      (fun r c => if (r <? max_cycle) && (lower q - 1 <=? c) && (c <? upper q)
                  then G r (value q - 1) else G r c) d'.
Proof.
  intros Hrep Hmax Hlo Hlv Hvu Hup. rewrite first_column_eq.
  apply (for_range_invariant_upto
           (fun i s => represents R C
              (fun r c => if (r <? max_cycle) && (lower q - 1 <=? c) && (c <? i)
                          then G r (value q - 1) else G r c) s)).
  - lia.
  - eapply represents_ext; [ | exact Hrep]. intros r c _ _. cbn beta.
    destruct (Nat.leb_spec (lower q - 1) c);
      destruct (Nat.ltb_spec c (lower q - 1));
      rewrite ?andb_false_r; cbn [andb]; try reflexivity; lia.
  - intros i s Hi Hs.
    destruct (remap_cycle_loop R C _ q i max_cycle s Hs) as (s' & Hloop & Hs');
      [exact Hmax | lia | lia | ].
    exists s'. split; [exact Hloop | ].
    eapply represents_ext; [ | exact Hs']. intros r c Hr Hc. cbn beta.
    destruct (Nat.ltb_spec r max_cycle); cbn [andb]; [ | reflexivity].
    destruct (Nat.eqb_spec c i) as [->|Hne]; cbn [andb].
    + destruct (Nat.leb_spec (lower q - 1) i); [ | lia].
      destruct (Nat.ltb_spec i (Datatypes.S i)); [ | lia]. cbn [andb].
      destruct ((lower q - 1 <=? value q - 1) && (value q - 1 <? i));
        reflexivity.
    + destruct (Nat.leb_spec (lower q - 1) c); cbn [andb]; [ | reflexivity].
      destruct (Nat.ltb_spec c (Datatypes.S i));
        destruct (Nat.ltb_spec c i); try reflexivity; lia.
Qed.

Lemma covers_dec (q : q_score_bin) (c : nat) : covers q c \/ ~ covers q c.
Proof. unfold covers. lia. Qed.

Lemma covers_test_true (q : q_score_bin) (max_cycle r c : nat) :
  r < max_cycle -> covers q c ->
  (r <? max_cycle) && (lower q - 1 <=? c) && (c <? upper q) = true.
Proof.
  unfold covers. intros Hr [Hlo Hup].
  rewrite (proj2 (Nat.ltb_lt _ _) Hr), (proj2 (Nat.leb_le _ _) Hlo),
    (proj2 (Nat.ltb_lt _ _) Hup). reflexivity.
Qed.

Lemma covers_test_false (q : q_score_bin) (max_cycle r c : nat) :
  ~ covers q c ->
  (r <? max_cycle) && (lower q - 1 <=? c) && (c <? upper q) = false.
Proof.
  unfold covers. intros Hnot.
  destruct (Nat.leb_spec (lower q - 1) c);
    destruct (Nat.ltb_spec c (upper q));
    rewrite ?andb_false_r; try reflexivity.
  exfalso. apply Hnot. split; assumption.
Qed.

(** C2: for bins with 1-based bounds, [lower <= value <= upper], inside
    the grid and with disjoint ranges, [remap_to_bins] leaves in every
    column of a bin's range, for every row below [max_cycle], the value
    the bin's representative column [value - 1] held before the call. *)
Theorem remap_to_bins_spreads (bins : list q_score_bin) (max_cycle : nat)
    (data : heatmap_data) :
  well_formed data ->
  max_cycle <= row_count data ->
  (forall q, q ∈ bins ->
     1 <= lower q /\ lower q <= value q /\ value q <= upper q /\
     upper q <= column_count data) ->
  (forall i j qi qj c, i < j -> bins !! i = Some qi -> bins !! j = Some qj ->
     covers qi c -> covers qj c -> False) ->
  exists data',
    remap_to_bins bins max_cycle data = Ok data' /\
    forall q r c, q ∈ bins -> r < max_cycle -> covers q c ->
      exists x,
        heatmap_at data (Some r) (Some (value q - 1)) = Ok x /\
        heatmap_at data' (Some r) (Some c) = Ok x.
Proof.
  intros Hwf Hmax Hbins Hdisj.
  pose proof (well_formed_represents data Hwf) as Hrep.
  set (R := row_count data) in *. set (C := column_count data) in *.
  set (G := fun r c => default F32.zero (cells data !! (r * C + c))) in *.
  destruct (for_each_invariant
              (fun pre s => exists G',
                 represents R C G' s /\
                 (forall q r c, q ∈ pre -> r < max_cycle -> covers q c ->
                    G' r c = G r (value q - 1)) /\
                 (forall r c, (forall q, q ∈ pre -> ~ covers q c) ->
                    G' r c = G r c))
              bins
              (fun q data =>
                 for_range (upper q - first_column q) (first_column q)
                   (fun bin data =>
                      for_range max_cycle 0
                        (fun cycle data =>
                           do x <- heatmap_at data (Some cycle)
                                     (pred_index (value q));
                           heatmap_set data (Some cycle) (Some bin) x)
                        data)
                   data)
              data) as (data' & Hrun & G' & Hrep' & Hcov & _).
  - exists G. split; [exact Hrep | ]. split; [ | reflexivity].
    intros q r c Hq. inversion Hq.
  - intros pre a post s Hsplit (G1 & Hrep1 & Hcov1 & Hrest1).
    assert (Ha : a ∈ bins).
    { rewrite Hsplit. apply elem_of_app. right. apply list_elem_of_here. }
    destruct (Hbins a Ha) as (Hlo & Hlv & Hvu & Hup).
    assert (Hapart : forall q c, q ∈ pre -> covers q c -> covers a c -> False).
    { intros q c Hq Hqc Hac.
      apply list_elem_of_lookup in Hq as [i Hi].
      apply (Hdisj i (length pre) q a c); try assumption.
      - apply lookup_lt_Some in Hi. exact Hi.
      - rewrite Hsplit. rewrite lookup_app_l by (eapply lookup_lt_Some; eauto).
        exact Hi.
      - rewrite Hsplit. rewrite list_lookup_middle; reflexivity. }
    destruct (remap_column_loop R C G1 a max_cycle s Hrep1)
      as (s' & Hloop & Hs'); try assumption.
    exists s'. split; [exact Hloop | ].
    eexists. split; [exact Hs' | ]. cbn beta.
    assert (Hrepr : forall r, G1 r (value a - 1) = G r (value a - 1)).
    { intros r. apply Hrest1. intros q Hq Hqc.
      apply (Hapart q (value a - 1) Hq Hqc). unfold covers. lia. }
    split.
    + intros q r c Hq Hr Hqc. apply elem_of_app in Hq as [Hq|Hq].
      * destruct (covers_dec a c) as [Hac|Hac];
          [exfalso; exact (Hapart q c Hq Hqc Hac) | ].
        rewrite (covers_test_false _ _ _ _ Hac). apply Hcov1; assumption.
      * apply list_elem_of_singleton in Hq as ->.
        rewrite (covers_test_true _ _ _ _ Hr Hqc). apply Hrepr.
    + intros r c Hnone.
      rewrite covers_test_false.
      * apply Hrest1. intros q Hq. apply Hnone.
        apply elem_of_app. left. exact Hq.
      * apply Hnone. apply elem_of_app. right. apply list_elem_of_here.
  - exists data'. split; [exact Hrun | ].
    intros q r c Hq Hr Hc. exists (G r (value q - 1)).
    destruct (Hbins q Hq) as (Hlo & Hlv & Hvu & Hup). unfold covers in Hc.
    split.
    + apply (heatmap_at_represents R C G); [exact Hrep | lia | lia].
    + rewrite <- (Hcov q r c Hq Hr Hc).
      apply (heatmap_at_represents R C G'); [exact Hrep' | lia | lia].
Qed.

(** ** Titles *)

Lemma append_assoc (a b c : string) :
  ((a ++ b) ++ c = a ++ (b ++ c))%string.
Proof.
  induction a as [|ch a IH]; simpl; [reflexivity | ].
  rewrite IH. reflexivity.
Qed.

Lemma nonempty_true (s : string) : s <> EmptyString -> nonempty s = true.
Proof. destruct s; [contradiction | reflexivity]. Qed.

Lemma nonempty_append_r (a b : string) :
  nonempty b = true -> nonempty (a ++ b) = true.
Proof. destruct a; simpl; [intros H; exact H | reflexivity]. Qed.

(** ** [plot_qscore_heatmap] *)

Section PlotQScoreHeatmapFacts.

Context {TM QM QLM Options : Type}.
Context `{!QRecord QM, !QRecord QLM, !FilterOptions Options,
          !TileFilter Options QM, !TileFilter Options QLM,
          !QSetHelpers QM, !QSetHelpers QLM, !QByLane QM QLM}.

Implicit Types (metrics : run_metrics TM QM QLM) (options : Options)
  (data : heatmap_data).

(** The title the code composes is the join of its non-empty components
    as soon as the lane description and an appended surface description
    are not empty. *)
Lemma heatmap_title_join metrics options :
  lane_description options <> EmptyString ->
  ((1 <? surface_count metrics) && is_specific_surface options = true ->
   surface_description options <> EmptyString) ->
  heatmap_title metrics options = join_nonempty (title_parts metrics options).
Proof.
  intros Hlane Hsurface. unfold heatmap_title, title_parts.
  destruct (lane_description options) as [|c1 l1]; [contradiction | ].
  destruct ((1 <? surface_count metrics) && is_specific_surface options).
  - specialize (Hsurface eq_refl).
    destruct (surface_description options) as [|c2 s2]; [contradiction | ].
    destruct (barcode metrics) as [|c0 b0]; cbn; [reflexivity | ].
    rewrite !append_assoc. reflexivity.
  - destruct (barcode metrics) as [|c0 b0]; cbn; [reflexivity | ].
    rewrite !append_assoc. reflexivity.
Qed.

(** C7: when the q-metric set the call selects is empty (the q-metric set
    under a surface selector; otherwise the by-lane set after the attempt
    to derive it), [plot_qscore_heatmap] returns without failure and
    leaves the heat map as [clear] made it. *)
Theorem plot_qscore_heatmap_empty_set metrics options data :
  selected_q_size options (fst (plot_qscore_heatmap metrics options data)) = 0 ->
  snd (plot_qscore_heatmap metrics options data) = Ok (heatmap_clear data).
Proof.
  unfold plot_qscore_heatmap, selected_q_size.
  destruct (is_specific_surface options) eqn:Hsurface.
  - destruct (Nat.eqb_spec (set_size (q_metrics metrics)) 0) as [Hz|Hnz];
      cbn [fst snd]; rewrite ?Hsurface; [reflexivity | ].
    intros Hsize. contradiction.
  - destruct (0 =? set_size (q_by_lane_metrics metrics));
      match goal with
      | |- context [set_size (q_by_lane_metrics ?m) =? 0] =>
          destruct (Nat.eqb_spec (set_size (q_by_lane_metrics m)) 0)
            as [Hz|Hnz]
      end; cbn [fst snd]; rewrite ?Hsurface; try reflexivity;
      intros Hsize; contradiction.
Qed.

(** C6 as the code has it: when the selected set is not empty and the
    heat map is produced, its title is the flowcell barcode, the lane
    description and, for a flowcell with several surfaces under a surface
    selector, the surface description, joined by single spaces; the
    separator after the barcode is dropped when the barcode is empty.
    The lane description and an appended surface description are taken
    to be non-empty. *)
Theorem plot_qscore_heatmap_title metrics options data metrics'
    (d : heatmap_data) :
  plot_qscore_heatmap metrics options data = (metrics', Ok d) ->
  selected_q_size options metrics' <> 0 ->
  lane_description options <> EmptyString ->
  ((1 <? surface_count metrics) && is_specific_surface options = true ->
   surface_description options <> EmptyString) ->
  heat_title d = join_nonempty (title_parts metrics options).
Proof.
  intros Hcall Hsize Hlane Hsurface.
  rewrite <- (heatmap_title_join metrics options Hlane Hsurface).
  revert Hcall Hsize. unfold plot_qscore_heatmap, selected_q_size.
  destruct (is_specific_surface options) eqn:Hspecific.
  - destruct (Nat.eqb_spec (set_size (q_metrics metrics)) 0) as [Hz|Hnz];
      intros [= <- Hd] Hsize; [contradiction | ].
    destruct (populate_heatmap _ _ _) as [d1|e]; [ | discriminate].
    cbn [bind] in Hd. injection Hd as <-. reflexivity.
  - destruct (0 =? set_size (q_by_lane_metrics metrics));
      match goal with
      | |- context [set_size (q_by_lane_metrics ?m) =? 0] =>
          destruct (Nat.eqb_spec (set_size (q_by_lane_metrics m)) 0)
            as [Hz|Hnz]
      end; intros [= <- Hd] Hsize; try contradiction;
      (destruct (populate_heatmap _ _ _) as [d1|e]; [ | discriminate]);
      cbn [bind] in Hd; injection Hd as <-;
      unfold decorate_heatmap, heat_set_title, heatmap_title; cbn;
      rewrite ?Hspecific; reflexivity.
Qed.

End PlotQScoreHeatmapFacts.

(** ** Calling an engine twice *)

Section Repeatable.

Context {TM QM QLM Options Point : Type}.
Context `{!QRecord QM, !QRecord QLM, !FilterOptions Options,
          !TileFilter Options QM, !TileFilter Options QLM,
          !QSetHelpers QM, !QSetHelpers QLM, !QByLane QM QLM,
          !TileRecord TM, !TileFilter Options TM,
          !CandlePoint Point, !PlotHelpers TM Point}.

(** C9: a second call of an engine on the same run metrics and options
    gives what the first call gave. For [plot_qscore_heatmap] the second
    call runs on the run metrics the first call left, which may hold the
    by-lane set the first call derived; the aggregator is taken to give
    an empty set again when it is run again after it gave an empty set.
    For [plot_by_lane] the second call may start from any plot data, the
    first call's output included. *)
Theorem engines_repeatable (metrics : run_metrics TM QM QLM)
    (options : Options) (data data' : heatmap_data) (type : metric_type)
    (plot plot' : plot_data Point) :
  (set_size (q_by_lane_metrics metrics) = 0 ->
   set_size (create_q_metrics_by_lane (q_metrics metrics)
               (q_by_lane_metrics metrics)) = 0 ->
   set_size (create_q_metrics_by_lane (q_metrics metrics)
               (create_q_metrics_by_lane (q_metrics metrics)
                  (q_by_lane_metrics metrics))) = 0) ->
  snd (plot_qscore_heatmap
         (fst (plot_qscore_heatmap metrics options data)) options data')
  = snd (plot_qscore_heatmap metrics options data)
  /\
  plot_by_lane metrics type options plot'
  = plot_by_lane metrics type options plot.
Proof.
  intros Hagain. split; [ | apply plot_by_lane_overwrites].
  unfold plot_qscore_heatmap.
  destruct (is_specific_surface options) eqn:Hsurface.
  - destruct (Nat.eqb_spec (set_size (q_metrics metrics)) 0) as [Hz|Hnz];
      cbn [fst snd].
    + rewrite (proj2 (Nat.eqb_eq _ _) Hz). reflexivity.
    + rewrite (proj2 (Nat.eqb_neq _ _) Hnz). reflexivity.
  - destruct (Nat.eqb_spec 0 (set_size (q_by_lane_metrics metrics)))
      as [Hz|Hnz].
    + symmetry in Hz.
      destruct (Nat.eqb_spec
                  (set_size (q_by_lane_metrics (derive_q_by_lane metrics))) 0)
        as [Hz'|Hnz']; cbn [fst snd].
      * rewrite (proj2 (Nat.eqb_eq 0 _) (eq_sym Hz')).
        unfold derive_q_by_lane in Hz' |- *.
        cbn [q_by_lane_metrics q_metrics] in Hz' |- *.
        rewrite (proj2 (Nat.eqb_eq _ 0) (Hagain Hz Hz')). reflexivity.
      * rewrite (proj2 (Nat.eqb_neq 0 _) (fun H => Hnz' (eq_sym H))).
        rewrite (proj2 (Nat.eqb_neq _ 0) Hnz'). reflexivity.
    + destruct (Nat.eqb_spec (set_size (q_by_lane_metrics metrics)) 0)
        as [Hz'|Hnz']; [congruence | ].
      cbn [fst snd]. rewrite (proj2 (Nat.eqb_neq 0 _) Hnz).
      rewrite (proj2 (Nat.eqb_neq _ 0) Hnz'). reflexivity.
Qed.

End Repeatable.

(** ** Normalisation *)

Lemma with_cells_twice (cs cs' : list float32) (d : heatmap_data) :
  with_cells cs (with_cells cs' d) = with_cells cs d.
Proof. reflexivity. Qed.

Lemma heatmap_at_lookup (d : heatmap_data) (r c : nat) (x : float32) :
  r < row_count d -> c < column_count d ->
  cells d !! (r * column_count d + c) = Some x ->
  heatmap_at d (Some r) (Some c) = Ok x.
Proof.
  intros Hr Hc Hx. unfold heatmap_at, index_of.
  rewrite (proj2 (Nat.ltb_lt _ _) Hr), (proj2 (Nat.ltb_lt _ _) Hc).
  cbn [andb bind]. unfold at_index. rewrite Hx. reflexivity.
Qed.

Lemma heatmap_at_cells (d : heatmap_data) (cs : list float32) (r c : nat)
    (x : float32) :
  r < row_count d -> c < column_count d ->
  cs !! (r * column_count d + c) = Some x ->
  heatmap_at (with_cells cs d) (Some r) (Some c) = Ok x.
Proof.
  intros Hr Hc Hx. unfold heatmap_at, index_of.
  cbn [with_cells row_count column_count cells].
  rewrite (proj2 (Nat.ltb_lt _ _) Hr), (proj2 (Nat.ltb_lt _ _) Hc).
  cbn [andb bind]. unfold at_index. rewrite Hx. reflexivity.
Qed.

Lemma heatmap_set_cells (d : heatmap_data) (cs : list float32) (r c : nat)
    (x v : float32) :
  r < row_count d -> c < column_count d ->
  cs !! (r * column_count d + c) = Some x ->
  heatmap_set (with_cells cs d) (Some r) (Some c) v
  = Ok (with_cells (<[r * column_count d + c := v]> cs) d).
Proof.
  intros Hr Hc Hx. unfold heatmap_set, index_of.
  cbn [with_cells row_count column_count cells].
  rewrite (proj2 (Nat.ltb_lt _ _) Hr), (proj2 (Nat.ltb_lt _ _) Hc).
  cbn [andb bind]. unfold at_index. rewrite Hx. reflexivity.
Qed.

Lemma with_cells_same (d : heatmap_data) : with_cells (cells d) d = d.
Proof. destruct d. reflexivity. Qed.

(** The first pass of [normalize_heatmap] folds [std::max] over the
    cells in storage order. *)
Lemma heatmap_max_fold (d : heatmap_data) :
  well_formed d ->
  heatmap_max d = Ok (fold_left F32.max (cells d) F32.zero).
Proof.
  intros Hwf. unfold heatmap_max.
  set (C := column_count d). set (R := row_count d).
  destruct (for_range_invariant
              (fun r acc =>
                 acc = fold_left F32.max (take (r * C) (cells d)) F32.zero)
              R 0
              (fun r max_value =>
                 for_range C 0
                   (fun c max_value =>
                      do x <- heatmap_at d (Some r) (Some c);
                      Ok (F32.max max_value x))
                   max_value)
              F32.zero) as (m & Hrun & Hm).
  - reflexivity.
  - intros r acc Hr Hacc.
    destruct (for_range_invariant
                (fun c acc =>
                   acc = fold_left F32.max (take (r * C + c) (cells d))
                           F32.zero)
                C 0
                (fun c max_value =>
                   do x <- heatmap_at d (Some r) (Some c);
                   Ok (F32.max max_value x))
                acc) as (acc' & Hrun' & Hacc').
    + rewrite Nat.add_0_r. exact Hacc.
    + intros c acc1 Hc Hacc1.
      destruct (lookup_lt_is_Some_2 (cells d) (r * C + c)) as [x Hx].
      { rewrite Hwf. apply cell_index_lt; lia. }
      rewrite (heatmap_at_lookup d r c x) by (assumption || lia).
      cbn [bind]. eexists. split; [reflexivity | ].
      rewrite Nat.add_succ_r, (take_S_r _ _ _ Hx), fold_left_app, <- Hacc1.
      reflexivity.
    + exists acc'. split; [exact Hrun' | ]. rewrite Hacc'.
      do 2 f_equal. simpl. lia.
  - rewrite Hrun. f_equal. rewrite Hm. f_equal.
    apply take_ge. rewrite Hwf. simpl. fold R C. lia.
Qed.

(** [normalize_heatmap] rewrites the cells, in storage order, to
    [100 * cell / max_value]. *)
Lemma normalize_heatmap_cells (d : heatmap_data) :
  well_formed d ->
  normalize_heatmap d
  = Ok (with_cells
          (map (fun x =>
                  F32.div (F32.mul (F32.of_Z 100) x)
                    (fold_left F32.max (cells d) F32.zero))
             (cells d)) d).
Proof.
  intros Hwf. unfold normalize_heatmap.
  rewrite (heatmap_max_fold d Hwf). cbn [bind].
  set (f := fun x => F32.div (F32.mul (F32.of_Z 100) x)
                       (fold_left F32.max (cells d) F32.zero)).
  set (C := column_count d). set (R := row_count d).
  set (state := fun k =>
         with_cells (map f (take k (cells d)) ++ drop k (cells d)) d).
  assert (Hinner : forall r s, r < R -> s = state (r * C) ->
            exists s',
              for_range (column_count s) 0
                (fun c data =>
                   do x <- heatmap_at data (Some r) (Some c);
                   heatmap_set data (Some r) (Some c)
                     (F32.div (F32.mul (F32.of_Z 100) x)
                        (fold_left F32.max (cells d) F32.zero))) s
              = Ok s' /\ s' = state (Datatypes.S r * C)).
  { intros r s Hr ->.
    destruct (for_range_invariant
                (fun c s => s = state (r * C + c)) C 0
                (fun c data =>
                   do x <- heatmap_at data (Some r) (Some c);
                   heatmap_set data (Some r) (Some c) (f x))
                (state (r * C))) as (s' & Hrun & Hs').
    - rewrite Nat.add_0_r. reflexivity.
    - intros c s Hc ->.
      destruct (lookup_lt_is_Some_2 (cells d) (r * C + c)) as [x Hx].
      { rewrite Hwf. apply cell_index_lt; lia. }
      assert (Hk : r * C + c <= length (cells d)).
      { apply lookup_lt_Some in Hx. lia. }
      assert (Hcur : (map f (take (r * C + c) (cells d))
                      ++ drop (r * C + c) (cells d)) !! (r * C + c)
                     = Some x).
      { rewrite lookup_app_r
          by (rewrite length_map, length_take_le; [lia | exact Hk]).
        rewrite length_map, length_take_le by exact Hk.
        rewrite Nat.sub_diag, lookup_drop, Nat.add_0_r. exact Hx. }
      unfold state at 1 2.
      rewrite (heatmap_at_cells d _ r c x) by (exact Hcur || fold R C; lia).
      cbn [bind].
      rewrite (heatmap_set_cells d _ r c x) by (exact Hcur || fold R C; lia).
      eexists. split; [reflexivity | ]. unfold state. f_equal. fold C.
      rewrite insert_app_r_alt
        by (rewrite length_map, length_take_le; [lia | exact Hk]).
      rewrite length_map, length_take_le by exact Hk.
      rewrite Nat.sub_diag, (drop_S _ _ _ Hx). cbn [insert list_insert].
      rewrite Nat.add_succ_r, (take_S_r _ _ _ Hx), map_app, <- app_assoc.
      reflexivity.
    - exists s'. split; [exact Hrun | ]. rewrite Hs'. f_equal. simpl. lia. }
  destruct (for_range_invariant (fun r s => s = state (r * C)) R 0
              (fun r data =>
                 for_range (column_count data) 0
                   (fun c data =>
                      do x <- heatmap_at data (Some r) (Some c);
                      heatmap_set data (Some r) (Some c) (f x))
                   data)
              d) as (s' & Hrun & Hs').
  - unfold state. simpl. rewrite drop_0. symmetry. apply with_cells_same.
  - intros r s Hr Hs. apply Hinner; [lia | exact Hs].
  - unfold f in Hrun. rewrite Hrun, Hs'. unfold state. do 2 f_equal.
    simpl. fold R C.
    rewrite take_ge, drop_ge by (rewrite Hwf; fold R C; lia).
    apply app_nil_r.
Qed.

Lemma max_cases (a b : float32) : F32.max a b = a \/ F32.max a b = b.
Proof. unfold F32.max. destruct (F32.ltb a b); [right | left]; reflexivity. Qed.

Lemma max_upper (a b : float32) :
  F32.leb F32.zero a = true -> F32.leb F32.zero b = true ->
  F32.leb a (F32.max a b) = true /\ F32.leb b (F32.max a b) = true.
Proof.
  intros Ha Hb. unfold F32.max. destruct (F32.ltb a b) eqn:Hlt.
  - split; [apply ltb_leb; exact Hlt | apply leb_refl; exact Hb].
  - split; [apply leb_refl; exact Ha | apply leb_total; assumption].
Qed.

(** The running maximum over non-negative cells bounds every cell and is
    one of them, or the initial value. *)
Lemma fold_max_upper (l : list float32) (a : float32) :
  F32.leb F32.zero a = true ->
  (forall x, x ∈ l -> F32.leb F32.zero x = true) ->
  F32.leb F32.zero (fold_left F32.max l a) = true /\
  F32.leb a (fold_left F32.max l a) = true /\
  (forall x, x ∈ l -> F32.leb x (fold_left F32.max l a) = true) /\
  (fold_left F32.max l a = a \/ fold_left F32.max l a ∈ l).
Proof.
  revert a. induction l as [|y l IH]; intros a Ha Hl; cbn [fold_left].
  - split; [exact Ha | ]. split; [apply leb_refl; exact Ha | ].
    split; [ | left; reflexivity]. intros x Hx. inversion Hx.
  - assert (Hy : F32.leb F32.zero y = true) by (apply Hl; apply list_elem_of_here).
    destruct (max_upper a y Ha Hy) as [Hamax Hymax].
    assert (Hmax : F32.leb F32.zero (F32.max a y) = true)
      by (destruct (max_cases a y) as [-> | ->]; assumption).
    destruct (IH (F32.max a y) Hmax) as (Hm & Hle & Hall & Hmem).
    { intros x Hx. apply Hl. apply list_elem_of_further. exact Hx. }
    split; [exact Hm | ].
    split; [exact (leb_trans _ _ _ Ha Hmax Hm Hamax Hle) | ].
    split.
    + intros x Hx. apply elem_of_cons in Hx as [->|Hx];
        [exact (leb_trans _ _ _ Hy Hmax Hm Hymax Hle) | apply Hall; exact Hx].
    + destruct Hmem as [Heq|Hin].
      * rewrite Heq. destruct (max_cases a y) as [-> | ->];
          [left; reflexivity | right; apply list_elem_of_here].
      * right. apply list_elem_of_further. exact Hin.
Qed.

Lemma heatmap_at_Ok (d : heatmap_data) (r c : nat) (x : float32) :
  heatmap_at d (Some r) (Some c) = Ok x ->
  r < row_count d /\ c < column_count d /\
  cells d !! (r * column_count d + c) = Some x.
Proof.
  unfold heatmap_at, index_of.
  destruct (Nat.ltb_spec r (row_count d)); [ | discriminate].
  destruct (Nat.ltb_spec c (column_count d)); [ | discriminate].
  cbn [andb bind]. intros Hx. apply at_index_Ok in Hx. auto.
Qed.

Lemma max_counts (a b : N) :
  (a <= 2 ^ 24)%N -> (b <= 2 ^ 24)%N ->
  F32.max (F32.of_N a) (F32.of_N b) = F32.of_N (N.max a b).
Proof.
  intros Ha Hb. unfold F32.max. rewrite ltb_counts by assumption.
  destruct (N.ltb_spec a b).
  - rewrite N.max_r by lia. reflexivity.
  - rewrite N.max_l by lia. reflexivity.
Qed.

Lemma fold_max_counts (ns : list N) (a : N) :
  (a <= 2 ^ 24)%N -> (forall n, n ∈ ns -> (n <= 2 ^ 24)%N) ->
  fold_left F32.max (map F32.of_N ns) (F32.of_N a)
  = F32.of_N (fold_left N.max ns a).
Proof.
  revert a. induction ns as [|n ns IH]; intros a Ha Hns; [reflexivity | ].
  cbn [map fold_left].
  assert (Hn : (n <= 2 ^ 24)%N) by (apply Hns; apply list_elem_of_here).
  rewrite max_counts by assumption. apply IH; [lia | ].
  intros n' Hn'. apply Hns. apply list_elem_of_further. exact Hn'.
Qed.

Lemma fold_N_max_spec (ns : list N) (a : N) :
  (a <= fold_left N.max ns a)%N /\
  (forall n, n ∈ ns -> (n <= fold_left N.max ns a)%N) /\
  (fold_left N.max ns a = a \/ fold_left N.max ns a ∈ ns).
Proof.
  revert a. induction ns as [|n ns IH]; intros a; cbn [fold_left].
  - split; [lia | ]. split; [ | left; reflexivity].
    intros n Hn. inversion Hn.
  - destruct (IH (N.max a n)) as (Hle & Hall & Hmem).
    split; [lia | ]. split.
    + intros n' Hn'. apply elem_of_cons in Hn' as [->|Hn'];
        [lia | apply Hall; exact Hn'].
    + destruct Hmem as [Heq|Hin].
      * rewrite Heq. destruct (N.max_spec a n) as [[_ ->]|[_ ->]];
          [right; apply list_elem_of_here | left; reflexivity].
      * right. apply list_elem_of_further. exact Hin.
Qed.

(** On counts for which [100 * count] is exact, the cell of the largest
    count becomes 100 and the others stay within [0, 100]. *)
Lemma rescale_counts (n top : N) :
  (0 < top)%N -> (n <= top)%N -> (top <= max_exact_count)%N ->
  let y := F32.div (F32.mul (F32.of_Z 100) (F32.of_N n)) (F32.of_N top) in
  (n = top -> y = F32.of_Z 100) /\
  F32.leb F32.zero y = true /\ F32.leb y (F32.of_Z 100) = true.
Proof.
  unfold max_exact_count. intros Htop Hn Hexact. cbv zeta.
  change (F32.of_Z 100) with (F32.of_N 100).
  destruct top as [|ptop]; [lia | ].
  assert (Hsmall : (Z.pos ptop <= 2 ^ 24)%Z)
    by (change (2 ^ 24)%Z with 16777216%Z; lia).
  destruct n as [|pn].
  - replace (F32.mul (F32.of_N 100) (F32.of_N 0)) with (F32.of_N 0)
      by reflexivity.
    destruct (normal32_exists ptop) as (mt & et & Ht & _); [exact Hsmall | ].
    rewrite (of_N_normal ptop mt et Ht).
    split; [discriminate | split; reflexivity].
  - destruct (normal32_hundred pn) as (mp & ep & Hp & Hep); [lia | ].
    rewrite (mul_exact 100 pn mp ep)
      by (exact Hp || (change (2 ^ 24)%Z with 16777216%Z; lia)).
    destruct (N.eq_dec (N.pos pn) (N.pos ptop)) as [Heq|Hne].
    + injection Heq as ->.
      rewrite (div_exact 100 ptop mp ep)
        by (exact Hp || (change (2 ^ 24)%Z with 16777216%Z; lia)).
      split; [reflexivity | split; reflexivity].
    + split; [intros Heq; contradiction | ].
      destruct (div_below 100 pn ptop mp ep) as [Hle Hzero];
        try assumption;
        try (change (2 ^ 24)%Z with 16777216%Z;
             change (2 ^ 22)%Z with 4194304%Z; lia).
      split; [exact Hzero | exact Hle].
Qed.

(** C3 as the code has it: [normalize_heatmap] rewrites every cell to
    100 times its old value divided by the old grid maximum, the product
    and the quotient each rounded to binary32. For non-negative cells
    the old grid maximum bounds every old cell and is one of them (or
    zero when no cell is above zero). When the cells are counts of at
    most 671088, not all zero, so that 100 times a cell is exact (a
    multiple of 4 below 2^26), the maximum cell of the result equals 100
    and every cell lies in [0, 100]; 671089 is the first count for which
    it does not hold. *)
Theorem normalize_heatmap_rescales (d : heatmap_data) :
  well_formed d ->
  exists max_value d',
    heatmap_max d = Ok max_value /\
    normalize_heatmap d = Ok d' /\
    row_count d' = row_count d /\ column_count d' = column_count d /\
    (forall r c x, heatmap_at d (Some r) (Some c) = Ok x ->
       heatmap_at d' (Some r) (Some c)
       = Ok (F32.div (F32.mul (F32.of_Z 100) x) max_value)) /\
    ((forall x, x ∈ cells d -> F32.leb F32.zero x = true) ->
     (forall x, x ∈ cells d -> F32.leb x max_value = true) /\
     (max_value ∈ cells d \/ max_value = F32.zero)) /\
    (forall ns,
       cells d = map F32.of_N ns ->
       (forall n, n ∈ ns -> (n <= max_exact_count)%N) ->
       (exists n, n ∈ ns /\ (0 < n)%N) ->
       F32.of_Z 100 ∈ cells d' /\
       forall y, y ∈ cells d' ->
         F32.leb F32.zero y = true /\ F32.leb y (F32.of_Z 100) = true).
Proof.
  intros Hwf.
  exists (fold_left F32.max (cells d) F32.zero). eexists.
  split; [apply heatmap_max_fold; exact Hwf | ].
  split; [apply normalize_heatmap_cells; exact Hwf | ].
  split; [reflexivity | ]. split; [reflexivity | ].
  split; [ | split].
  - intros r c x Hx. apply heatmap_at_Ok in Hx as (Hr & Hc & Hx).
    apply heatmap_at_cells; [exact Hr | exact Hc | ].
    rewrite list_lookup_fmap, Hx. reflexivity.
  - intros Hnonneg.
    destruct (fold_max_upper (cells d) F32.zero eq_refl Hnonneg)
      as (_ & _ & Hall & Hmem).
    split; [exact Hall | ].
    destruct Hmem as [Hz|Hin]; [right; exact Hz | left; exact Hin].
  - intros ns Hcells Hexact (n0 & Hn0 & Hpos).
    cbn [with_cells cells]. rewrite Hcells.
    assert (Hsmall : forall n, n ∈ ns -> (n <= 2 ^ 24)%N).
    { intros n Hn. specialize (Hexact n Hn). unfold max_exact_count in Hexact.
      assert (671088 <= 2 ^ 24)%N by (vm_compute; discriminate). lia. }
    change F32.zero with (F32.of_N 0).
    rewrite fold_max_counts by (exact Hsmall || (vm_compute; discriminate)).
    fold (N_max ns).
    destruct (fold_N_max_spec ns 0) as (_ & Hall & Hmem). fold (N_max ns) in *.
    assert (Htop : (0 < N_max ns)%N) by (specialize (Hall n0 Hn0); lia).
    destruct Hmem as [Hz|Hin]; [lia | ].
    split.
    + apply list_elem_of_fmap. exists (F32.of_N (N_max ns)). split.
      * symmetry.
        destruct (rescale_counts (N_max ns) (N_max ns)) as (Htop100 & _);
          [lia | lia | apply Hexact; exact Hin | ].
        apply Htop100. reflexivity.
      * apply list_elem_of_fmap. exists (N_max ns). auto.
    + intros y Hy. apply list_elem_of_fmap in Hy as (x & -> & Hx).
      apply list_elem_of_fmap in Hx as (n & -> & Hn).
      destruct (rescale_counts n (N_max ns)) as (_ & Hrange);
        [lia | apply Hall; exact Hn | apply Hexact; exact Hin | ].
      exact Hrange.
Qed.

(** ** The heat-map fold *)

Lemma N_sum_cons (x : N) (l : list N) : N_sum (x :: l) = (x + N_sum l)%N.
Proof. reflexivity. Qed.

Lemma N_sum_app (l1 l2 : list N) :
  N_sum (l1 ++ l2) = (N_sum l1 + N_sum l2)%N.
Proof.
  induction l1 as [|x l1 IH]; [reflexivity | ].
  cbn [app]. rewrite !N_sum_cons, IH. lia.
Qed.

Section HeatmapFoldFacts.

Context {M Options : Type}.
Context `{!QRecord M, !TileFilter Options M}.

Lemma hist_total_app (options : Options) (l1 l2 : list M) :
  hist_total options (l1 ++ l2)
  = (hist_total options l1 + hist_total options l2)%N.
Proof.
  unfold hist_total. rewrite filter_app, map_app, N_sum_app. reflexivity.
Qed.

Lemma hist_total_one (options : Options) (b : M) :
  hist_total options [b]
  = if valid_tile options b then N_sum (qscore_hist b) else 0%N.
Proof.
  unfold hist_total. rewrite filter_cons, filter_nil.
  case_decide as Hv.
  - rewrite Hv. cbn [map]. rewrite N_sum_cons.
    change (N_sum []) with 0%N. lia.
  - destruct (valid_tile options b); [contradiction | reflexivity].
Qed.

End HeatmapFoldFacts.

(** * The claims on sample inputs *)

Section Samples.

#[local] Existing Instance Sample.tile_record.
#[local] Existing Instance Sample.q_record.
#[local] Existing Instance Sample.filter_options.
#[local] Existing Instance Sample.pass_all.
#[local] Existing Instance Sample.candle_point.
#[local] Existing Instance Sample.helpers.
#[local] Existing Instance Sample.q_set_helpers.
#[local] Existing Instance Sample.q_by_lane.

Ltac in_sample H :=
  repeat (apply elem_of_cons in H as [->|H]); [ .. | inversion H].

(** Two lanes, three tiles: two points, for lanes 1 and 2. *)
Lemma populate_candle_stick_by_lane_points_witness :
  exists pts lanes,
    populate_candle_stick_by_lane (metric_value 1) Sample.tiles
      Sample.all_lanes Density [] = Ok pts /\
    (forall l, l ∈ lanes <->
       exists b, b ∈ records Sample.tiles /\
         contributes (metric_value 1) Sample.all_lanes Density b = true /\
         lane b = l) /\
    (forall k1 k2 l1 l2, k1 < k2 ->
       lanes !! k1 = Some l1 -> lanes !! k2 = Some l2 -> l1 < l2) /\
    length pts = length lanes /\
    forall k l, lanes !! k = Some l ->
      exists p outliers,
        pts !! k =
          Some (fst (plot_candle_stick p
                       (lane_values (metric_value 1) Sample.all_lanes Density
                          (records Sample.tiles) l)
                       (F32.of_nat l) outliers)).
Proof.
  apply (populate_candle_stick_by_lane_points (metric_value 1)
           Sample.all_lanes Density Sample.tiles []).
  intros b Hb _. in_sample Hb; cbn; lia.
Defined.

(** The same set: every lane is 1 or 2, and lane 3 would not be. *)
Lemma bucket_access_in_bounds_witness :
  (exists pts,
     populate_candle_stick_by_lane (metric_value 1) Sample.tiles
       Sample.all_lanes Density [] = Ok pts) /\
  populate_candle_stick_by_lane (metric_value 1)
    {| records := [(3, F32.of_Z 1)]; max_lane := 2; max_cycle := 0;
       bins := [] |}
    Sample.all_lanes Density ([] : list Sample.point)
  = Err IndexOutOfBounds.
Proof.
  split.
  - apply (bucket_access_in_bounds (metric_value 1) Sample.all_lanes Density
             Sample.tiles []).
    intros b Hb. in_sample Hb; cbn; lia.
  - apply (proj2 (bucket_access_in_bounds (metric_value 1) Sample.all_lanes
                    Density _ []) (3, F32.of_Z 1)).
    + apply list_elem_of_here.
    + reflexivity.
    + right. cbn. lia.
Defined.

Lemma plot_by_lane_phasing_y_range_witness :
  exists d,
    plot_by_lane (Sample.run "FC1" Sample.no_q) PercentPhasing
      Sample.all_lanes Sample.empty_plot = Ok d /\
    y_range d = (F32.of_Z 0, F32.of_Z 1) /\
    F32.to_Z (fst (y_range d)) = Some 0%Z /\
    F32.to_Z (snd (y_range d)) = Some 1%Z.
Proof.
  apply (plot_by_lane_phasing_y_range (Sample.run "FC1" Sample.no_q)
           PercentPhasing Sample.all_lanes Sample.empty_plot).
  - left. reflexivity.
  - intros b Hb _. cbn in Hb. in_sample Hb; cbn; lia.
Defined.

Lemma plot_by_lane_named_failure_witness :
  plot_by_lane_named (Sample.run "FC1" Sample.no_q) "NoSuchMetric"
    Sample.all_lanes Sample.empty_plot = Err InvalidArgument /\
  exists d,
    plot_by_lane_named
      {| tile_metrics :=
           {| records := [(1, S754_nan)]; max_lane := 1; max_cycle := 0;
              bins := [] |};
         q_metrics := Sample.no_q; q_by_lane_metrics := Sample.no_q;
         barcode := "FC1"; surface_count := 1 |}
      "Density" Sample.all_lanes Sample.empty_plot = Ok d /\
    data_series d <> [] /\
    forall s, s ∈ data_series d -> series_points s = [].
Proof.
  split.
  - apply (plot_by_lane_named_failure (Sample.run "FC1" Sample.no_q)
             "NoSuchMetric" Sample.all_lanes Sample.empty_plot).
    reflexivity.
  - apply (proj2 (plot_by_lane_named_failure _ "Density" Sample.all_lanes
                    Sample.empty_plot) Density).
    + reflexivity.
    + intros b t Hb _. cbn in Hb. in_sample Hb. reflexivity.
Defined.

(** A 2 by 4 grid and the bins 1..2 (value 1) and 3..4 (value 4). *)
Lemma remap_to_bins_spreads_witness :
  exists data',
    remap_to_bins
      [ {| lower := 1; upper := 2; value := 1 |};
        {| lower := 3; upper := 4; value := 4 |} ] 2
      (Sample.grid 2 4 (map F32.of_Z [1; 2; 3; 4; 5; 6; 7; 8]%Z)) = Ok data' /\
    forall q r c,
      q ∈ [ {| lower := 1; upper := 2; value := 1 |};
            {| lower := 3; upper := 4; value := 4 |} ] ->
      r < 2 -> covers q c ->
      exists x,
        heatmap_at (Sample.grid 2 4 (map F32.of_Z [1; 2; 3; 4; 5; 6; 7; 8]%Z))
          (Some r) (Some (value q - 1)) = Ok x /\
        heatmap_at data' (Some r) (Some c) = Ok x.
Proof.
  apply (remap_to_bins_spreads _ 2 (Sample.grid 2 4 _)).
  - reflexivity.
  - cbn. lia.
  - intros q Hq. in_sample Hq; cbn; lia.
  - intros i j qi qj c Hij Hi Hj.
    destruct i as [|[|i]]; destruct j as [|[|j]]; try lia;
      cbn in Hi, Hj; try discriminate.
    injection Hi as <-. injection Hj as <-. unfold covers. cbn. lia.
Defined.

(** The counts 671088, the largest the bound admits, and 3. *)
Lemma normalize_heatmap_rescales_witness :
  exists max_value d',
    heatmap_max (Sample.grid 1 2 [F32.of_N 671088; F32.of_N 3])
    = Ok max_value /\
    normalize_heatmap (Sample.grid 1 2 [F32.of_N 671088; F32.of_N 3])
    = Ok d' /\
    F32.of_Z 100 ∈ cells d' /\
    forall y, y ∈ cells d' ->
      F32.leb F32.zero y = true /\ F32.leb y (F32.of_Z 100) = true.
Proof.
  destruct (normalize_heatmap_rescales
              (Sample.grid 1 2 [F32.of_N 671088; F32.of_N 3]) eq_refl)
    as (max_value & d' & Hmax & Hrun & _ & _ & _ & _ & Hcounts).
  exists max_value, d'. split; [exact Hmax | ]. split; [exact Hrun | ].
  apply (Hcounts [671088; 3]%N).
  - reflexivity.
  - intros n Hn. in_sample Hn; vm_compute; discriminate.
  - exists 671088%N. split; [apply list_elem_of_here | reflexivity].
Defined.

(** C3 fails under rounding: a grid whose only cell is 671089 is
    normalised to 100 - 2^-17, and one whose only cell is 671091 to
    100 + 2^-17, above 100. *)
Lemma normalize_heatmap_misses_100 :
  (well_formed (Sample.grid 1 1 [F32.of_Z 671089]) /\
   F32.ltb F32.zero (F32.of_Z 671089) = true /\
   normalize_heatmap (Sample.grid 1 1 [F32.of_Z 671089])
   = Ok (Sample.grid 1 1 [S754_finite false 13107199 (-17)]) /\
   F32.eqb (S754_finite false 13107199 (-17)) (F32.of_Z 100) = false) /\
  (well_formed (Sample.grid 1 1 [F32.of_Z 671091]) /\
   F32.ltb F32.zero (F32.of_Z 671091) = true /\
   normalize_heatmap (Sample.grid 1 1 [F32.of_Z 671091])
   = Ok (Sample.grid 1 1 [S754_finite false 13107201 (-17)]) /\
   F32.leb (S754_finite false 13107201 (-17)) (F32.of_Z 100) = false).
Proof. repeat split; vm_compute; reflexivity. Qed.

(** C4 fails under rounding: the counts 16777216 and 1 of two passing
    records fold into one cell that holds 16777216. *)
Lemma heatmap_fold_loses_count :
  well_formed (Sample.grid 1 1 [F32.zero]) /\
  hist_total Sample.all_lanes [(1, [16777216%N]); (1, [1%N])]
  = 16777217%N /\
  exists data',
    populate_heatmap_from_uncompressed [(1, [16777216%N]); (1, [1%N])]
      Sample.all_lanes (Sample.grid 1 1 [F32.zero]) = Ok data' /\
    grid_sum data' = Some 16777216%Z /\
    grid_sum data'
    <> Some (Z.of_N (hist_total Sample.all_lanes
                       [(1, [16777216%N]); (1, [1%N])])).
Proof.
  split; [reflexivity | ]. split; [vm_compute; reflexivity | ].
  eexists. split; [vm_compute; reflexivity | ].
  split; [vm_compute; reflexivity | vm_compute; discriminate].
Qed.

Lemma plot_qscore_heatmap_title_witness :
  exists d,
    plot_qscore_heatmap (Sample.run "FC1" Sample.one_q) Sample.all_lanes
      (Sample.grid 0 0 []) = (Sample.run "FC1" Sample.one_q, Ok d) /\
    heat_title d
    = join_nonempty
        (title_parts (Sample.run "FC1" Sample.one_q) Sample.all_lanes) /\
    heat_title d = "FC1 All Lanes"%string.
Proof.
  exists (match snd (plot_qscore_heatmap (Sample.run "FC1" Sample.one_q)
                       Sample.all_lanes (Sample.grid 0 0 [])) with
          | Ok d => d
          | Err _ => Sample.grid 0 0 []
          end).
  split; [vm_compute; reflexivity | ].
  split; [ | vm_compute; reflexivity].
  apply (plot_qscore_heatmap_title (Sample.run "FC1" Sample.one_q)
           Sample.all_lanes (Sample.grid 0 0 [])
           (Sample.run "FC1" Sample.one_q)).
  - vm_compute. reflexivity.
  - vm_compute. discriminate.
  - discriminate.
  - discriminate.
Defined.

(** C6 fails for an empty lane description: the separator after the
    barcode stays. *)
Lemma heatmap_title_trailing_space :
  exists metrics' d,
    plot_qscore_heatmap (Sample.run "FC1" Sample.one_q)
      {| Sample.specific_surface := false; Sample.lane_text := EmptyString;
         Sample.surface_text := "Surface 1" |}
      (Sample.grid 0 0 []) = (metrics', Ok d) /\
    heat_title d = "FC1 "%string /\
    join_nonempty
      (title_parts (Sample.run "FC1" Sample.one_q)
         {| Sample.specific_surface := false;
            Sample.lane_text := EmptyString;
            Sample.surface_text := "Surface 1" |}) = "FC1"%string.
Proof.
  eexists. eexists. split; [vm_compute; reflexivity | ].
  split; reflexivity.
Qed.

Lemma plot_qscore_heatmap_empty_set_witness :
  selected_q_size Sample.all_lanes
    (fst (plot_qscore_heatmap (Sample.run "FC1" Sample.no_q) Sample.all_lanes
            (Sample.grid 1 1 [F32.of_Z 7]))) = 0 /\
  snd (plot_qscore_heatmap (Sample.run "FC1" Sample.no_q) Sample.all_lanes
         (Sample.grid 1 1 [F32.of_Z 7]))
  = Ok (heatmap_clear (Sample.grid 1 1 [F32.of_Z 7])).
Proof.
  split; [reflexivity | ].
  apply (plot_qscore_heatmap_empty_set (Sample.run "FC1" Sample.no_q)
           Sample.all_lanes (Sample.grid 1 1 [F32.of_Z 7])).
  reflexivity.
Defined.

Lemma engines_repeatable_witness :
  snd (plot_qscore_heatmap
         (fst (plot_qscore_heatmap (Sample.run "FC1" Sample.one_q)
                 Sample.all_lanes (Sample.grid 0 0 [])))
         Sample.all_lanes (Sample.grid 1 1 [F32.of_Z 7]))
  = snd (plot_qscore_heatmap (Sample.run "FC1" Sample.one_q)
           Sample.all_lanes (Sample.grid 0 0 []))
  /\
  plot_by_lane (Sample.run "FC1" Sample.one_q) Density Sample.all_lanes
    (set_title "old" Sample.empty_plot)
  = plot_by_lane (Sample.run "FC1" Sample.one_q) Density Sample.all_lanes
      Sample.empty_plot.
Proof.
  apply (engines_repeatable (Sample.run "FC1" Sample.one_q) Sample.all_lanes
           (Sample.grid 0 0 []) (Sample.grid 1 1 [F32.of_Z 7]) Density
           Sample.empty_plot (set_title "old" Sample.empty_plot)).
  cbn. discriminate.
Defined.

End Samples.

(** ** The sign of binary32 sums of counts *)

Section Binary32Sign.

Local Open Scope Z_scope.

Lemma iter_pos_preserves {A : Type} (P : A -> Prop) (f : A -> A) :
  (forall x, P x -> P (f x)) ->
  forall (p : positive) (x : A), P x -> P (SpecFloat.iter_pos f p x).
Proof.
  intros Hf. induction p as [p IH|p IH| ]; intros x Hx;
    cbn [SpecFloat.iter_pos]; auto.
Qed.

Lemma shr_1_nonneg (mrs : shr_record) : 0 <= shr_m mrs -> 0 <= shr_m (shr_1 mrs).
Proof.
  intros Hm. rewrite shr_m_shr_1 by exact Hm. apply Z.div_pos; lia.
Qed.

Lemma shr_nonneg (mrs : shr_record) (e n : Z) :
  0 <= shr_m mrs -> 0 <= shr_m (fst (shr mrs e n)).
Proof.
  intros Hm. unfold shr. destruct n as [|p|p]; cbn [fst]; try exact Hm.
  apply (iter_pos_preserves (fun r => 0 <= shr_m r)); [ | exact Hm].
  apply shr_1_nonneg.
Qed.

Lemma shr_fexp_nonneg (m e : Z) (l : location) :
  0 <= m -> 0 <= shr_m (fst (shr_fexp F32.prec F32.emax m e l)).
Proof.
  intros Hm. unfold shr_fexp. apply shr_nonneg.
  destruct l as [|[ | | ]]; cbn; exact Hm.
Qed.

Lemma binary_round_aux_nonneg (m e : Z) (l : location) :
  0 <= m ->
  F32.leb F32.zero (binary_round_aux F32.prec F32.emax false m e l) = true.
Proof.
  intros Hm. unfold binary_round_aux.
  pose proof (shr_fexp_nonneg m e l Hm) as H1.
  destruct (shr_fexp F32.prec F32.emax m e l) as [mrs' e'].
  cbn [fst] in H1.
  pose proof (round_nearest_even_bounds (shr_m mrs')
                (loc_of_shr_record mrs')) as Hr.
  assert (H2 : 0 <= round_nearest_even (shr_m mrs') (loc_of_shr_record mrs'))
    by lia.
  pose proof (shr_fexp_nonneg _ e' loc_Exact H2) as H3.
  destruct (shr_fexp F32.prec F32.emax
              (round_nearest_even (shr_m mrs') (loc_of_shr_record mrs')) e'
              loc_Exact) as [mrs'' e''].
  cbn [fst] in H3.
  destruct (shr_m mrs'') as [|p|p]; [reflexivity | | lia].
  destruct (e'' <=? F32.emax - F32.prec); reflexivity.
Qed.

Lemma binary_normalize_nonneg (z e : Z) :
  0 <= z ->
  F32.leb F32.zero (binary_normalize F32.prec F32.emax z e false) = true.
Proof.
  intros Hz. destruct z as [|p|p]; [reflexivity | | lia].
  cbn [binary_normalize]. unfold binary_round.
  destruct (shl_align p e _) as [mz ez].
  apply binary_round_aux_nonneg. lia.
Qed.

Lemma of_N_nonneg (n : N) : F32.leb F32.zero (F32.of_N n) = true.
Proof. apply binary_normalize_nonneg. lia. Qed.

(** Adding a count to a number that is not negative gives a number that
    is not negative, whatever the rounding: zero, a positive number or
    plus infinity, never NaN. *)
Lemma add_count_nonneg (x : float32) (n : N) :
  F32.leb F32.zero x = true ->
  F32.leb F32.zero (F32.add x (F32.of_N n)) = true.
Proof.
  intros Hx. pose proof (of_N_nonneg n) as Hn.
  destruct (nonneg_cases x Hx) as [[sx ->]|[->|(mx & ex & ->)]];
    destruct (nonneg_cases _ Hn) as [[sn ->]|[->|(mn & en & ->)]];
    try reflexivity.
  - destruct sx, sn; reflexivity.
  - unfold F32.add, SFadd. cbn [cond_Zopp].
    apply binary_normalize_nonneg. lia.
Qed.

End Binary32Sign.

(** * Further properties of the engines *)

(** ** Candle sticks as a fold over the lanes *)

Section CandleSticksFacts.

Context {Metric Options Point : Type}.
Context `{!TileRecord Metric, !TileFilter Options Metric, !CandlePoint Point}.
Variable proxy : Metric -> metric_type -> float32.
Variable options : Options.
Variable type : metric_type.

Lemma candle_sticks_length (f : nat -> list float32) (lanes : list nat)
    (points : list Point) (outliers : list float32) :
  length (candle_sticks f lanes points outliers) = length lanes.
Proof.
  revert points outliers. induction lanes as [|l rest IH];
    intros points outliers; [reflexivity | ].
  cbn [candle_sticks].
  destruct (plot_candle_stick _ _ _ _) as [p out]. cbn [length].
  rewrite IH. reflexivity.
Qed.

Lemma candle_sticks_resize (f : nat -> list float32) (lanes : list nat)
    (n : nat) (points : list Point) (outliers : list float32) :
  length lanes <= n ->
  candle_sticks f lanes (resize n default_point points) outliers
  = candle_sticks f lanes points outliers.
Proof.
  revert n points outliers. induction lanes as [|l rest IH];
    intros n points outliers Hn; [reflexivity | ].
  cbn [length] in Hn. destruct n as [|n]; [lia | ].
  cbn [candle_sticks].
  assert (Hhead : default default_point (head (resize (S n) default_point points))
                  = default default_point (head points)).
  { destruct points; reflexivity. }
  assert (Htail : tail (resize (S n) default_point points)
                  = resize n default_point (tail points)).
  { destruct points as [|p points]; [ | reflexivity].
    cbn [tail]. rewrite !resize_nil. reflexivity. }
  rewrite Hhead, Htail.
  destruct (plot_candle_stick _ _ _ _) as [p out].
  rewrite IH by lia. reflexivity.
Qed.

Lemma emit_points_sticks (f : nat -> list float32) (n i : nat)
    (points : list Point) (offset : nat) (outliers : list float32) :
  offset + n <= length points ->
  exists points' offset',
    emit_points (map f (seq (S i) n)) i points offset outliers
      = Ok (points', offset') /\
    offset' <= length points' /\
    take offset' points'
    = take offset points ++
      candle_sticks f (filter (fun l => f l <> []) (seq (S i) n))
        (drop offset points) outliers.
Proof.
  revert i points offset outliers.
  induction n as [|n IH]; intros i points offset outliers Hlen.
  - exists points, offset. cbn. rewrite app_nil_r.
    split; [reflexivity | ]. split; [lia | reflexivity].
  - cbn [seq map emit_points]. rewrite filter_cons.
    destruct (f (S i)) as [|v vs] eqn:Hf.
    + destruct (IH (S i) points offset outliers) as (points' & offset' & E & Hle & Ht);
        [lia | ].
      exists points', offset'. split; [exact E | ]. split; [exact Hle | ].
      case_decide as Hd; [exfalso; apply Hd; reflexivity | exact Ht].
    + destruct (at_index_lt points offset) as (p & Hp & Hlook); [lia | ].
      rewrite Hp. cbn [bind].
      replace (i + 1) with (S i) by lia.
      case_decide as Hd; [ | discriminate Hd].
      cbn [candle_sticks].
      pose proof (lookup_lt_Some _ _ _ Hlook) as Hoff.
      rewrite (drop_S points p offset Hlook). cbn [head default from_option id tail]. change (id p) with p.
      rewrite Hf.
      destruct (plot_candle_stick p (v :: vs) (F32.of_nat (S i)) outliers)
        as [p' out'].
      destruct (IH (S i) (<[offset := p']> points) (S offset) out')
        as (points' & offset' & E & Hle & Ht).
      { rewrite length_insert. lia. }
      exists points', offset'. split; [exact E | ]. split; [exact Hle | ].
      rewrite Ht. clear Ht E.
      assert (Htake : take (S offset) (<[offset := p']> points)
                      = take offset points ++ [p']).
      { rewrite (take_S_r _ _ p') by (apply list_lookup_insert_eq; exact Hoff).
        rewrite take_insert_ge by lia. reflexivity. }
      assert (Hdrop : drop (S offset) (<[offset := p']> points)
                      = drop (S offset) points).
      { apply drop_insert_lt. lia. }
      rewrite Htake, Hdrop, <- app_assoc. reflexivity.
Qed.

(** X1: with every contributing record in a lane of the set,
    [populate_candle_stick_by_lane] returns the candle sticks of the
    lanes that have values, in increasing lane order: the stick of the
    k-th such lane fills the k-th point the collection held before the
    call (a default point when it held fewer), from the values of the
    lane at x = lane, and receives the outlier buffer as the stick of the
    lane before left it, the first one an empty buffer. *)
Theorem populate_candle_stick_by_lane_fold (metrics : metric_set Metric)
    (points : list Point) :
  lanes_in_range proxy options type metrics ->
  populate_candle_stick_by_lane proxy metrics options type points
  = Ok (candle_sticks (lane_values proxy options type (records metrics))
          (lanes_with_values proxy options type metrics) points []).
Proof.
  intros Hin. unfold populate_candle_stick_by_lane.
  rewrite fill_lanes_from_empty by exact Hin. cbn [bind].
  destruct (emit_points_sticks
              (lane_values proxy options type (records metrics))
              (max_lane metrics) 0
              (resize (max_lane metrics) default_point points) 0 [])
    as (points' & offset' & -> & Hle & Htake).
  { rewrite length_resize. lia. }
  cbn [bind]. f_equal.
  rewrite resize_le by exact Hle. rewrite Htake.
  cbn [take app]. rewrite drop_0.
  apply candle_sticks_resize.
  unfold lanes_with_values.
  etransitivity; [apply length_filter | ]. rewrite length_seq. lia.
Qed.

(** X2: the points depend on the metric set only through [max_lane]
    and, for each lane, the sequence of values of its contributing
    records: two sets that agree on these give the same result, however
    the records of different lanes are interleaved and whatever records
    without a value lie in between. *)
Theorem populate_candle_stick_by_lane_lane_values
    (metrics1 metrics2 : metric_set Metric) (points : list Point) :
  max_lane metrics1 = max_lane metrics2 ->
  lanes_in_range proxy options type metrics1 ->
  lanes_in_range proxy options type metrics2 ->
  (forall l, 1 <= l <= max_lane metrics1 ->
     lane_values proxy options type (records metrics1) l
     = lane_values proxy options type (records metrics2) l) ->
  populate_candle_stick_by_lane proxy metrics1 options type points
  = populate_candle_stick_by_lane proxy metrics2 options type points.
Proof.
  intros Hmax Hin1 Hin2 Hvalues. unfold populate_candle_stick_by_lane.
  rewrite !fill_lanes_from_empty by assumption.
  rewrite <- Hmax.
  replace (map (lane_values proxy options type (records metrics2))
             (seq 1 (max_lane metrics1)))
    with (map (lane_values proxy options type (records metrics1))
            (seq 1 (max_lane metrics1))); [reflexivity | ].
  apply map_ext_in. intros l Hl. apply in_seq in Hl. apply Hvalues. lia.
Qed.

End CandleSticksFacts.

(** ** The plot data [plot_by_lane] builds *)

Lemma metric_type_eqb_eq (a b : metric_type) :
  metric_type_eqb a b = true <-> a = b.
Proof.
  split.
  - destruct a, b; cbn; try discriminate; try reflexivity.
    intros H. apply Nat.eqb_eq in H. subst. reflexivity.
  - intros <-. destruct a; cbn; try reflexivity. apply Nat.eqb_refl.
Qed.

Lemma all_lanes_lanes_in_range {M Options : Type}
    `{!TileRecord M, !TileFilter Options M}
    (proxy : M -> metric_type -> float32) (options : Options)
    (type : metric_type) (metrics : metric_set M) :
  all_lanes_in_range metrics -> lanes_in_range proxy options type metrics.
Proof. intros Hall b Hb _. apply Hall. exact Hb. Qed.

Section PlotByLaneShape.

Context {TM QM QLM Options Point : Type}.
Context `{!TileRecord TM, !TileFilter Options TM, !FilterOptions Options,
          !CandlePoint Point, !PlotHelpers TM Point}.

Implicit Types (metrics : run_metrics TM QM QLM) (options : Options)
  (data : plot_data Point).

Ltac shell :=
  cbn [data_series x_range y_range x_label y_label title
       set_series set_xrange set_yrange set_xlabel set_ylabel set_title
       series_points series_title series_color
       at_index lookup list_lookup insert list_insert app bind fst snd].

(** The plot data of a call on lanes that are all in range, written
    out. *)
Lemma plot_by_lane_unfold metrics type options data :
  all_lanes_in_range (tile_metrics metrics) ->
  exists pts pf,
    populate_candle_stick_by_lane (metric_value (read options))
      (tile_metrics metrics) options type [] = Ok pts /\
    populate_candle_stick_by_lane (metric_value (read options))
      (tile_metrics metrics) options (pf_type type) [] = Ok pf /\
    plot_by_lane metrics type options data
    = Ok (let ss :=
            {| series_title := to_description type; series_color := "Blue";
               series_points := pts |}
            :: (if has_pf_series type
                then [ {| series_title := "PF"; series_color := "DarkGreen";
                          series_points := pf |} ]
                else []) in
          let scaled := scale_ranges ss true F32.lit_1_2 in
          {| data_series := ss;
             x_range := (F32.of_Z 0,
                         F32.add (snd (fst scaled)) (F32.of_Z 1));
             y_range :=
               if metric_type_eqb type PercentPrephasing
                  || metric_type_eqb type PercentPhasing
               then (F32.of_Z 0, F32.of_Z 1)
               else (fst (snd scaled), snd (snd scaled));
             x_label := "Lane"; y_label := to_description type;
             title := by_lane_title metrics type options |}).
Proof.
  intros Hall.
  destruct (populate_returns (metric_value (read options)) options type
              (tile_metrics metrics) []
              (all_lanes_lanes_in_range _ _ _ _ Hall)) as [pts Hpts].
  destruct (populate_returns (metric_value (read options)) options
              (pf_type type) (tile_metrics metrics) []
              (all_lanes_lanes_in_range _ _ _ _ Hall)) as [pf Hpf].
  exists pts, pf. split; [exact Hpts | ]. split; [exact Hpf | ].
  unfold plot_by_lane, populate_series, has_pf_series. shell.
  rewrite Hpts. shell.
  destruct (metric_type_eqb type ClusterCount || metric_type_eqb type Density);
    shell.
  - fold (pf_type type). rewrite Hpf. shell.
    unfold auto_scale. shell.
    destruct (scale_ranges _ true F32.lit_1_2) as [xr yr]. shell.
    destruct (metric_type_eqb type PercentPrephasing
              || metric_type_eqb type PercentPhasing); reflexivity.
  - unfold auto_scale. shell.
    destruct (scale_ranges _ true F32.lit_1_2) as [xr yr]. shell.
    destruct (metric_type_eqb type PercentPrephasing
              || metric_type_eqb type PercentPhasing); reflexivity.
Qed.

(** X3: with every tile in a lane of the set, [plot_by_lane] returns
    plot data whose first series is titled with the description of the
    metric, coloured Blue, and holds the candle sticks of the metric.
    For [ClusterCount] and [Density] a second series follows, titled PF
    and coloured DarkGreen, with the candle sticks of [ClusterCountPF]
    or [DensityPF]; for every other type there is no second series. *)
Theorem plot_by_lane_series metrics type options data :
  all_lanes_in_range (tile_metrics metrics) ->
  exists d pts,
    plot_by_lane metrics type options data = Ok d /\
    populate_candle_stick_by_lane (metric_value (read options))
      (tile_metrics metrics) options type [] = Ok pts /\
    ((type = ClusterCount \/ type = Density) ->
     exists pf,
       populate_candle_stick_by_lane (metric_value (read options))
         (tile_metrics metrics) options
         (if metric_type_eqb type Density then DensityPF else ClusterCountPF)
         [] = Ok pf /\
       data_series d
       = [ {| series_title := to_description type; series_color := "Blue";
              series_points := pts |};
           {| series_title := "PF"; series_color := "DarkGreen";
              series_points := pf |} ]) /\
    (type <> ClusterCount -> type <> Density ->
     data_series d
     = [ {| series_title := to_description type; series_color := "Blue";
            series_points := pts |} ]).
Proof.
  intros Hall.
  destruct (plot_by_lane_unfold metrics type options data Hall)
    as (pts & pf & Hpts & Hpf & Hrun).
  eexists. exists pts. split; [exact Hrun | ].
  split; [exact Hpts | ].
  cbv zeta. cbn [data_series]. unfold has_pf_series. split.
  - intros Htype. exists pf. split; [exact Hpf | ].
    destruct Htype as [-> | ->]; reflexivity.
  - intros Hc Hd.
    destruct (metric_type_eqb type ClusterCount) eqn:E1;
      [apply metric_type_eqb_eq in E1; contradiction | ].
    destruct (metric_type_eqb type Density) eqn:E2;
      [apply metric_type_eqb_eq in E2; contradiction | ].
    reflexivity.
Qed.

(** X4: [plot_by_lane] labels the x axis Lane and the y axis with the
    description of the metric; its x-range runs from 0 to one more than
    the upper end [auto_scale] computed from the series, and for every
    type other than the two phasing types the y-range is the one
    [auto_scale] computed. *)
Theorem plot_by_lane_axes metrics type options data :
  all_lanes_in_range (tile_metrics metrics) ->
  exists d,
    plot_by_lane metrics type options data = Ok d /\
    x_label d = "Lane"%string /\
    y_label d = to_description type /\
    x_range d
    = (F32.of_Z 0,
       F32.add (snd (fst (scale_ranges (data_series d) true F32.lit_1_2)))
         (F32.of_Z 1)) /\
    (type <> PercentPhasing -> type <> PercentPrephasing ->
     y_range d = snd (scale_ranges (data_series d) true F32.lit_1_2)).
Proof.
  intros Hall.
  destruct (plot_by_lane_unfold metrics type options data Hall)
    as (pts & pf & _ & _ & Hrun).
  eexists. split; [exact Hrun | ].
  cbv zeta. cbn [data_series x_range y_range x_label y_label].
  repeat split.
  intros Hp Hpre.
  destruct (metric_type_eqb type PercentPrephasing) eqn:E1;
    [apply metric_type_eqb_eq in E1; contradiction | ].
  destruct (metric_type_eqb type PercentPhasing) eqn:E2;
    [apply metric_type_eqb_eq in E2; contradiction | ].
  cbn [orb]. symmetry. apply surjective_pairing.
Qed.

Lemma by_lane_title_join metrics type options :
  (is_specific_read options type = true ->
   read_description options <> EmptyString) ->
  ((1 <? surface_count metrics) && is_specific_surface options = true ->
   surface_description options <> EmptyString) ->
  by_lane_title metrics type options
  = join_nonempty (by_lane_title_parts metrics type options).
Proof.
  intros Hread Hsurface. unfold by_lane_title, by_lane_title_parts.
  destruct (is_specific_read options type);
    destruct ((1 <? surface_count metrics) && is_specific_surface options);
    try specialize (Hread eq_refl); try specialize (Hsurface eq_refl);
    try (destruct (read_description options) as [|c1 r1]; [contradiction | ]);
    try (destruct (surface_description options) as [|c2 s2];
         [contradiction | ]);
    destruct (barcode metrics) as [|c0 b0]; cbn;
    rewrite ?append_assoc; try reflexivity.
Qed.

(** X5: the title of [plot_by_lane] is the flowcell barcode, then the
    read description when the selector is read-specific for the metric,
    then the surface description when the flowcell has several surfaces
    and the selector is surface-specific, the components that are not
    empty joined by single spaces; an appended description is taken to
    be non-empty. *)
Theorem plot_by_lane_title metrics type options data :
  all_lanes_in_range (tile_metrics metrics) ->
  (is_specific_read options type = true ->
   read_description options <> EmptyString) ->
  ((1 <? surface_count metrics) && is_specific_surface options = true ->
   surface_description options <> EmptyString) ->
  exists d,
    plot_by_lane metrics type options data = Ok d /\
    title d = join_nonempty (by_lane_title_parts metrics type options).
Proof.
  intros Hall Hread Hsurface.
  destruct (plot_by_lane_unfold metrics type options data Hall)
    as (pts & pf & _ & _ & Hrun).
  eexists. split; [exact Hrun | ].
  cbv zeta. cbn [title]. apply by_lane_title_join; assumption.
Qed.

End PlotByLaneShape.

(** ** The heat-map folds as lists of additions *)

Lemma for_range_ext {S : Type} (count start : nat)
    (body body' : nat -> S -> result S) (s : S) :
  (forall i s, start <= i < start + count -> body i s = body' i s) ->
  for_range count start body s = for_range count start body' s.
Proof.
  revert start s. induction count as [|count IH]; intros start s Hext;
    [reflexivity | ].
  cbn [for_range]. rewrite Hext by lia.
  destruct (body' start s) as [s'|e]; [ | reflexivity].
  cbn [bind]. apply IH. intros i s1 Hi. apply Hext. lia.
Qed.

Lemma for_each_ext {A S : Type} (l : list A)
    (body body' : A -> S -> result S) (s : S) :
  (forall a s, a ∈ l -> body a s = body' a s) ->
  for_each l body s = for_each l body' s.
Proof.
  revert s. induction l as [|a l IH]; intros s Hext; [reflexivity | ].
  cbn [for_each]. rewrite Hext by apply list_elem_of_here.
  destruct (body' a s) as [s'|e]; [ | reflexivity].
  cbn [bind]. apply IH. intros a' s1 Ha'. apply Hext.
  apply list_elem_of_further. exact Ha'.
Qed.

Lemma same_axes_refl (d : heatmap_data) : same_axes d d.
Proof. repeat split. Qed.

Lemma same_axes_trans (d1 d2 d3 : heatmap_data) :
  same_axes d1 d2 -> same_axes d2 d3 -> same_axes d1 d3.
Proof.
  unfold same_axes. intros (A1 & A2 & A3 & A4 & A5) (B1 & B2 & B3 & B4 & B5).
  repeat split; congruence.
Qed.

Lemma same_axes_with_cells (cs : list float32) (d : heatmap_data) :
  same_axes d (with_cells cs d).
Proof. repeat split. Qed.

(** Two heat maps with the same cells, dimensions and axes are equal. *)
Lemma represents_unique (R C : nat) (G : nat -> nat -> float32)
    (d1 d2 : heatmap_data) :
  represents R C G d1 -> represents R C G d2 -> same_axes d1 d2 -> d1 = d2.
Proof.
  intros (HR1 & HC1 & Hl1 & Hc1) (HR2 & HC2 & Hl2 & Hc2)
    (A1 & A2 & A3 & A4 & A5).
  assert (Hcells : cells d1 = cells d2).
  { apply list_eq. intros k.
    destruct (Nat.lt_ge_cases k (R * C)) as [Hk|Hk].
    - assert (HC : 0 < C) by (destruct C; lia).
      assert (Hc : k mod C < C) by (apply Nat.mod_upper_bound; lia).
      assert (Hr : k / C < R).
      { apply Nat.Div0.div_lt_upper_bound. lia. }
      pose proof (Nat.div_mod_eq k C) as Hk'.
      replace k with (k / C * C + k mod C) by lia.
      rewrite Hc1, Hc2 by assumption. reflexivity.
    - rewrite !lookup_ge_None_2 by lia. reflexivity. }
  destruct d1, d2. cbn in *. congruence.
Qed.

Lemma represents_elem (R C : nat) (G : nat -> nat -> float32)
    (d : heatmap_data) (x : float32) :
  represents R C G d -> x ∈ cells d ->
  exists r c, r < R /\ c < C /\ x = G r c.
Proof.
  intros (HR & HC & Hl & Hc) Hx.
  apply list_elem_of_lookup in Hx as [k Hk].
  pose proof (lookup_lt_Some _ _ _ Hk) as Hlt. rewrite Hl in Hlt.
  assert (HC0 : 0 < C) by (destruct C; lia).
  assert (Hmod : k mod C < C) by (apply Nat.mod_upper_bound; lia).
  assert (Hr : k / C < R) by (apply Nat.Div0.div_lt_upper_bound; lia).
  pose proof (Nat.div_mod_eq k C) as Hk'.
  exists (k / C), (k mod C). split; [exact Hr | ]. split; [exact Hmod | ].
  specialize (Hc _ _ Hr Hmod).
  replace (k / C * C + k mod C) with k in Hc by lia. congruence.
Qed.

Lemma represents_well_formed (R C : nat) (G : nat -> nat -> float32)
    (d : heatmap_data) :
  represents R C G d -> well_formed d.
Proof. intros (HR & HC & Hl & _). unfold well_formed. congruence. Qed.

Section FoldAsAdditions.

Context {M Options : Type}.
Context `{!QRecord M, !TileFilter Options M}.

Lemma apply_adds_snoc (G : nat -> nat -> float32) (adds : list (nat * nat * N))
    (r c : nat) (h : N) :
  apply_adds G (adds ++ [(r, c, h)])
  = grid_update (apply_adds G adds) r c
      (F32.add (apply_adds G adds r c) (F32.of_N h)).
Proof. unfold apply_adds. rewrite fold_left_app. reflexivity. Qed.

(** One [+=] on a matrix. *)
Lemma add_count_grid (R C : nat) (G : nat -> nat -> float32)
    (d : heatmap_data) (b : M) (bin col : nat) (h : N) :
  represents R C G d ->
  qscore_hist b !! bin = Some h ->
  1 <= cycle b <= R -> col < C ->
  exists d',
    add_count b bin (Some col) d = Ok d' /\
    represents R C
      (grid_update G (cycle b - 1) col
         (F32.add (G (cycle b - 1) col) (F32.of_N h))) d' /\
    same_axes d d'.
Proof.
  intros Hd Hh Hcycle Hcol. unfold add_count, at_index. rewrite Hh.
  cbn [bind]. rewrite pred_index_pos by lia.
  rewrite (heatmap_at_represents R C G d) by (exact Hd || lia).
  cbn [bind].
  destruct (heatmap_set_represents R C G d (cycle b - 1) col
              (F32.add (G (cycle b - 1) col) (F32.of_N h)) Hd)
    as (d' & Hset & Heq & Hd'); [lia | exact Hcol | ].
  exists d'. split; [exact Hset | ]. split; [exact Hd' | ].
  rewrite Heq. apply same_axes_with_cells.
Qed.

(** Both folds run the additions of [fold_adds] in order. *)
Lemma fold_columns_adds (R C : nat) (G : nat -> nat -> float32)
    (n : M -> nat) (column : nat -> nat) (rs : list M) (options : Options)
    (d : heatmap_data) :
  represents R C G d ->
  (forall b, b ∈ rs -> valid_tile options b = true ->
     1 <= cycle b <= R /\ n b <= length (qscore_hist b) /\
     forall i, i < n b -> column i < C) ->
  exists d',
    fold_columns n column rs options d = Ok d' /\
    represents R C (apply_adds G (fold_adds options n column rs)) d' /\
    same_axes d d'.
Proof.
  intros Hd Hfit. unfold fold_columns.
  destruct (for_each_invariant
              (fun pre s =>
                 represents R C (apply_adds G (fold_adds options n column pre))
                   s /\ same_axes d s)
              rs
              (fun b data =>
                 if negb (valid_tile options b) then Ok data
                 else
                   for_range (n b) 0
                     (fun bin data => add_count b bin (Some (column bin)) data)
                     data) d) as (d' & Hrun & Hd' & Haxes).
  - split; [exact Hd | apply same_axes_refl].
  - intros pre a post s Hsplit [Hs Hax].
    assert (Ha : a ∈ rs).
    { rewrite Hsplit. apply elem_of_app. right. apply list_elem_of_here. }
    unfold fold_adds. rewrite flat_map_app. cbn [flat_map].
    rewrite app_nil_r. fold (fold_adds options n column pre).
    destruct (valid_tile options a) eqn:Hvalid; cbn [negb].
    + destruct (Hfit a Ha Hvalid) as (Hcycle & Hn & Hcol).
      destruct (for_range_invariant
                  (fun i s =>
                     represents R C
                       (apply_adds G
                          (fold_adds options n column pre ++
                           map (fun i => (cycle a - 1, column i,
                                          default 0%N (qscore_hist a !! i)))
                             (seq 0 i))) s /\ same_axes d s)
                  (n a) 0
                  (fun bin data => add_count a bin (Some (column bin)) data) s)
        as (s' & Hrun & Hs' & Hax').
      * cbn [seq map]. rewrite app_nil_r. split; assumption.
      * intros i s1 Hi [Hs1 Hax1].
        destruct (lookup_lt_is_Some_2 (qscore_hist a) i) as [h Hh]; [lia | ].
        destruct (add_count_grid R C _ s1 a i (column i) h Hs1 Hh Hcycle)
          as (s2 & Hadd & Hs2 & Hax2); [apply Hcol; lia | ].
        exists s2. split; [exact Hadd | ]. split.
        -- rewrite seq_S, map_app, app_assoc. cbn [map Nat.add].
           rewrite Hh. cbn [default from_option id].
           rewrite apply_adds_snoc. exact Hs2.
        -- eapply same_axes_trans; eassumption.
      * exists s'. split; [exact Hrun | ]. split; [exact Hs' | exact Hax'].
    + exists s. split; [reflexivity | ]. rewrite app_nil_r.
      split; assumption.
  - exists d'. split; [exact Hrun | ]. split; assumption.
Qed.

Lemma uncompressed_fold_columns (rs : list M) (options : Options)
    (d : heatmap_data) :
  populate_heatmap_from_uncompressed rs options d
  = fold_columns (fun b => length (qscore_hist b)) (fun i => i) rs options d.
Proof. reflexivity. Qed.

Lemma compressed_fold_columns (rs : list M) (bins : list q_score_bin)
    (options : Options) (d : heatmap_data) :
  (forall q, q ∈ bins -> 1 <= value q) ->
  populate_heatmap_from_compressed rs bins options d
  = fold_columns (fun _ => length bins) (bin_column bins) rs options d.
Proof.
  intros Hbins. unfold populate_heatmap_from_compressed, fold_columns.
  apply for_each_ext. intros b s _.
  destruct (negb (valid_tile options b)); [reflexivity | ].
  apply for_range_ext. intros i s1 Hi.
  destruct (lookup_lt_is_Some_2 bins i) as [q Hq]; [lia | ].
  unfold at_index at 1. rewrite Hq. cbn [bind].
  unfold bin_column. rewrite Hq.
  rewrite pred_index_pos; [reflexivity | ].
  apply Hbins. eapply list_elem_of_lookup_2. exact Hq.
Qed.

End FoldAsAdditions.

(** ** What the additions leave in a cell *)

Lemma apply_adds_ext (G G' : nat -> nat -> float32)
    (adds : list (nat * nat * N)) :
  (forall r c, G r c = G' r c) ->
  forall r c, apply_adds G adds r c = apply_adds G' adds r c.
Proof.
  revert G G'. induction adds as [|[[r0 c0] h] adds IH]; intros G G' Hext;
    [exact Hext | ].
  cbn [apply_adds fold_left fst snd]. apply IH. intros r c.
  unfold grid_update. rewrite !Hext. reflexivity.
Qed.

Lemma apply_adds_nonneg (G : nat -> nat -> float32)
    (adds : list (nat * nat * N)) :
  (forall r c, F32.leb F32.zero (G r c) = true) ->
  forall r c, F32.leb F32.zero (apply_adds G adds r c) = true.
Proof.
  revert G. induction adds as [|[[r0 c0] h] adds IH]; intros G HG;
    [exact HG | ].
  cbn [apply_adds fold_left fst snd]. apply IH. intros r c.
  unfold grid_update. destruct ((r =? r0) && (c =? c0)); [ | apply HG].
  apply add_count_nonneg. apply HG.
Qed.

Lemma adds_total_cons (r0 c0 : nat) (h : N) (adds : list (nat * nat * N))
    (r c : nat) :
  adds_total ((r0, c0, h) :: adds) r c
  = ((if Nat.eqb r0 r && Nat.eqb c0 c then h else 0) + adds_total adds r c)%N.
Proof. reflexivity. Qed.

Lemma adds_total_app (adds1 adds2 : list (nat * nat * N)) (r c : nat) :
  adds_total (adds1 ++ adds2) r c
  = (adds_total adds1 r c + adds_total adds2 r c)%N.
Proof. unfold adds_total. rewrite map_app. apply N_sum_app. Qed.

(** On a matrix of counts the additions are exact as long as no cell
    grows beyond 2^24. *)
Lemma apply_adds_counts (g : nat -> nat -> N) (adds : list (nat * nat * N)) :
  (forall r c, (g r c + adds_total adds r c <= 2 ^ 24)%N) ->
  forall r c,
    apply_adds (fun r c => F32.of_N (g r c)) adds r c
    = F32.of_N (g r c + adds_total adds r c).
Proof.
  revert g. induction adds as [|[[r0 c0] h] adds IH]; intros g Hbound r c.
  - cbn. rewrite N.add_0_r. reflexivity.
  - cbn [apply_adds fold_left fst snd].
    set (g' := fun r c => (g r c + if Nat.eqb r0 r && Nat.eqb c0 c then h else 0)%N).
    assert (Hg' : forall r c,
               grid_update (fun r c => F32.of_N (g r c)) r0 c0
                 (F32.add (F32.of_N (g r0 c0)) (F32.of_N h)) r c
               = F32.of_N (g' r c)).
    { intros r1 c1. unfold grid_update, g'.
      rewrite (Nat.eqb_sym r0 r1), (Nat.eqb_sym c0 c1).
      destruct (Nat.eqb_spec r1 r0) as [->|Hr];
        destruct (Nat.eqb_spec c1 c0) as [->|Hc]; cbn [andb];
        rewrite ?N.add_0_r; try reflexivity.
      apply add_counts_exact.
      specialize (Hbound r0 c0). rewrite adds_total_cons in Hbound.
      rewrite !Nat.eqb_refl in Hbound. cbn [andb] in Hbound. lia. }
    change (fold_left _ adds ?G0 r c) with (apply_adds G0 adds r c).
    rewrite (apply_adds_ext _ (fun r c => F32.of_N (g' r c)) adds Hg').
    rewrite IH.
    + unfold g'. rewrite adds_total_cons. f_equal. lia.
    + intros r1 c1. unfold g'. specialize (Hbound r1 c1).
      rewrite adds_total_cons in Hbound. lia.
Qed.

Lemma N_sum_zeros {A : Type} (l : list A) : N_sum (map (fun _ => 0%N) l) = 0%N.
Proof. induction l as [|a l IH]; [reflexivity | ]. cbn [map]. rewrite N_sum_cons, IH. reflexivity. Qed.

Lemma N_sum_perm (l1 l2 : list N) : l1 ≡ₚ l2 -> N_sum l1 = N_sum l2.
Proof.
  induction 1 as [|x l1 l2 _ IH|x y l|l1 l2 l3 _ IH1 _ IH2];
    rewrite ?N_sum_cons; try reflexivity; try lia.
Qed.

Lemma N_sum_single_index (f : nat -> N) (c start n : nat) :
  N_sum (map (fun i => if i =? c then f i else 0%N) (seq start n))
  = if (start <=? c) && (c <? start + n) then f c else 0%N.
Proof.
  revert start. induction n as [|n IH]; intros start.
  - cbn [seq map]. replace (c <? start + 0) with (c <? start) by (f_equal; lia).
    destruct (Nat.leb_spec start c); destruct (Nat.ltb_spec c start);
      try reflexivity; lia.
  - cbn [seq map]. rewrite N_sum_cons, IH.
    destruct (Nat.eqb_spec start c) as [->|Hne].
    + destruct (Nat.leb_spec (S c) c); [lia | ]. cbn [andb].
      destruct (Nat.leb_spec c c); [ | lia].
      destruct (Nat.ltb_spec c (c + S n)); [ | lia]. cbn [andb]. lia.
    + destruct (Nat.leb_spec (S start) c);
        destruct (Nat.ltb_spec c (S start + n));
        destruct (Nat.leb_spec start c);
        destruct (Nat.ltb_spec c (start + S n)); cbn [andb];
        try reflexivity; lia.
Qed.

Lemma column_total_identity (hist : list N) (c : nat) :
  column_total (fun i => i) hist (length hist) c = default 0%N (hist !! c).
Proof.
  unfold column_total.
  rewrite (N_sum_single_index (fun i => default 0%N (hist !! i))).
  cbn [Nat.leb Nat.add andb].
  destruct (Nat.ltb_spec c (length hist)) as [Hc|Hc]; [reflexivity | ].
  rewrite lookup_ge_None_2 by lia. reflexivity.
Qed.

Section CellCounts.

Context {M Options : Type}.
Context `{!QRecord M, !TileFilter Options M}.

Lemma adds_total_record (n : M -> nat) (column : nat -> nat) (b : M)
    (r c : nat) :
  adds_total (record_adds n column b) r c
  = if cycle b - 1 =? r then column_total column (qscore_hist b) (n b) c
    else 0%N.
Proof.
  unfold adds_total, record_adds, column_total. rewrite map_map.
  cbn [fst snd].
  destruct (cycle b - 1 =? r); cbn [andb]; [reflexivity | ].
  apply N_sum_zeros.
Qed.

Lemma cell_count_nil (per : M -> nat -> N) (options : Options) (r c : nat) :
  cell_count per options [] r c = 0%N.
Proof. reflexivity. Qed.

Lemma cell_count_cons (per : M -> nat -> N) (options : Options) (b : M)
    (rs : list M) (r c : nat) :
  cell_count per options (b :: rs) r c
  = ((if valid_tile options b && Nat.eqb (cycle b) (S r) then per b c else 0)
     + cell_count per options rs r c)%N.
Proof.
  unfold cell_count. rewrite filter_cons.
  case_decide as Hd.
  - destruct Hd as [-> ->]. rewrite Nat.eqb_refl. cbn [andb map].
    apply N_sum_cons.
  - destruct (valid_tile options b); cbn [andb]; [ | reflexivity].
    destruct (Nat.eqb_spec (cycle b) (S r)) as [Heq|Hne]; [ | reflexivity].
    exfalso. apply Hd. split; [reflexivity | exact Heq].
Qed.

Lemma cell_count_perm (per : M -> nat -> N) (options : Options)
    (rs rs' : list M) (r c : nat) :
  rs ≡ₚ rs' -> cell_count per options rs r c = cell_count per options rs' r c.
Proof.
  intros Hperm. unfold cell_count. apply N_sum_perm.
  apply fmap_Permutation. apply filter_Permutation. exact Hperm.
Qed.

(** The additions of the passing records send to cell [(r, c)] the
    count of the cell. *)
Lemma adds_total_fold (n : M -> nat) (column : nat -> nat)
    (options : Options) (rs : list M) (r c : nat) :
  (forall b, b ∈ rs -> valid_tile options b = true -> 1 <= cycle b) ->
  adds_total (fold_adds options n column rs) r c
  = cell_count (fun b c => column_total column (qscore_hist b) (n b) c)
      options rs r c.
Proof.
  induction rs as [|b rs IH]; intros Hcycle; [reflexivity | ].
  unfold fold_adds. cbn [flat_map]. fold (fold_adds options n column rs).
  rewrite adds_total_app, cell_count_cons, IH.
  - f_equal. destruct (valid_tile options b) eqn:Hvalid; cbn [andb];
      [ | reflexivity].
    rewrite adds_total_record.
    specialize (Hcycle b (list_elem_of_here _ _) Hvalid).
    destruct (Nat.eqb_spec (cycle b - 1) r);
      destruct (Nat.eqb_spec (cycle b) (S r)); try reflexivity; lia.
  - intros b' Hb'. apply Hcycle. apply list_elem_of_further. exact Hb'.
Qed.

Lemma cell_count_ext (per per' : M -> nat -> N) (options : Options)
    (rs : list M) (r c : nat) :
  (forall b, per b c = per' b c) ->
  cell_count per options rs r c = cell_count per' options rs r c.
Proof.
  intros Hext. unfold cell_count. f_equal. apply map_ext. exact Hext.
Qed.

(** The zero matrix behind a heat map whose cells are all zero. *)
Lemma zero_grid_represents (d : heatmap_data) :
  well_formed d -> (forall x, x ∈ cells d -> x = F32.zero) ->
  represents (row_count d) (column_count d) (fun _ _ => F32.of_N 0) d.
Proof.
  intros Hwf Hzero.
  apply (represents_ext _ _ _ _ d) with (2 := well_formed_represents d Hwf).
  intros r c Hr Hc. cbv beta.
  destruct (lookup_lt_is_Some_2 (cells d) (r * column_count d + c))
    as [x Hx].
  { rewrite Hwf. apply cell_index_lt; assumption. }
  rewrite Hx. cbn [default from_option id].
  apply Hzero. eapply list_elem_of_lookup_2. exact Hx.
Qed.

(** The cells of a fold that starts on zeros, while every cell count is
    at most 2^24. *)
Lemma fold_columns_counts (n : M -> nat) (column : nat -> nat)
    (rs : list M) (options : Options) (d : heatmap_data) :
  well_formed d -> (forall x, x ∈ cells d -> x = F32.zero) ->
  (forall b, b ∈ rs -> valid_tile options b = true ->
     1 <= cycle b <= row_count d /\ n b <= length (qscore_hist b) /\
     forall i, i < n b -> column i < column_count d) ->
  (forall r c,
     (cell_count (fun b c => column_total column (qscore_hist b) (n b) c)
        options rs r c <= 2 ^ 24)%N) ->
  exists d',
    fold_columns n column rs options d = Ok d' /\
    represents (row_count d) (column_count d)
      (fun r c =>
         F32.of_N
           (cell_count (fun b c => column_total column (qscore_hist b) (n b) c)
              options rs r c)) d' /\
    same_axes d d'.
Proof.
  intros Hwf Hzero Hfit Hbound.
  destruct (fold_columns_adds _ _ _ n column rs options d
              (zero_grid_represents d Hwf Hzero) Hfit)
    as (d' & Hrun & Hd' & Hax).
  exists d'. split; [exact Hrun | ]. split; [ | exact Hax].
  assert (Hcycle : forall b, b ∈ rs -> valid_tile options b = true ->
                     1 <= cycle b).
  { intros b Hb Hv. destruct (Hfit b Hb Hv) as [? _]. lia. }
  apply (represents_ext _ _ _ _ d') with (2 := Hd').
  intros r c _ _.
  rewrite (apply_adds_counts (fun _ _ => 0%N)).
  - rewrite adds_total_fold by exact Hcycle. reflexivity.
  - intros r1 c1. rewrite adds_total_fold by exact Hcycle.
    rewrite N.add_0_l. apply Hbound.
Qed.

Lemma fold_columns_nonneg (n : M -> nat) (column : nat -> nat)
    (rs : list M) (options : Options) (d : heatmap_data) :
  well_formed d -> (forall x, x ∈ cells d -> F32.leb F32.zero x = true) ->
  (forall b, b ∈ rs -> valid_tile options b = true ->
     1 <= cycle b <= row_count d /\ n b <= length (qscore_hist b) /\
     forall i, i < n b -> column i < column_count d) ->
  exists d',
    fold_columns n column rs options d = Ok d' /\
    row_count d' = row_count d /\ column_count d' = column_count d /\
    well_formed d' /\ same_axes d d' /\
    forall x, x ∈ cells d' -> F32.leb F32.zero x = true.
Proof.
  intros Hwf Hnonneg Hfit.
  destruct (fold_columns_adds _ _ _ n column rs options d
              (well_formed_represents d Hwf) Hfit)
    as (d' & Hrun & Hd' & Hax).
  exists d'. split; [exact Hrun | ].
  pose proof Hd' as (HR & HC & _ & _).
  split; [exact HR | ]. split; [exact HC | ].
  split; [eapply represents_well_formed; exact Hd' | ].
  split; [exact Hax | ].
  intros x Hx.
  destruct (represents_elem _ _ _ _ x Hd' Hx) as (r & c & _ & _ & ->).
  apply apply_adds_nonneg. intros r1 c1.
  destruct (cells d !! (r1 * column_count d + c1)) as [y|] eqn:Hy;
    cbn [default from_option id]; [ | reflexivity].
  apply Hnonneg. eapply list_elem_of_lookup_2. exact Hy.
Qed.

End CellCounts.

(** ** The sum of the cells after a fold *)

(** The store of a grid, cell by cell. *)
Lemma represents_cells (R C : nat) (G : nat -> nat -> float32)
    (d : heatmap_data) :
  represents R C G d ->
  cells d = map (fun k => G (k / C) (k mod C)) (seq 0 (R * C)).
Proof.
  intros (HR & HC & Hl & Hc). apply list_eq. intros k.
  rewrite list_lookup_fmap.
  destruct (Nat.lt_ge_cases k (R * C)) as [Hk|Hk].
  - rewrite lookup_seq_lt by exact Hk. cbn [fmap option_fmap option_map Nat.add].
    assert (HC0 : 0 < C) by (destruct C; lia).
    assert (Hmod : k mod C < C) by (apply Nat.mod_upper_bound; lia).
    assert (Hr : k / C < R) by (apply Nat.Div0.div_lt_upper_bound; lia).
    pose proof (Nat.div_mod_eq k C) as Hk'.
    rewrite <- (Hc _ _ Hr Hmod). f_equal. lia.
  - rewrite lookup_seq_ge by lia. rewrite lookup_ge_None_2 by lia.
    reflexivity.
Qed.

Lemma N_sum_map_add {A : Type} (f g : A -> N) (l : list A) :
  N_sum (map (fun a => (f a + g a)%N) l)
  = (N_sum (map f l) + N_sum (map g l))%N.
Proof.
  induction l as [|a l IH]; [reflexivity | ].
  cbn [map]. rewrite !N_sum_cons, IH. lia.
Qed.

(** The sum of the cells of a grid of counts, each at most 2^24. *)
Lemma grid_sum_cells (ns : list N) (d : heatmap_data) :
  cells d = map F32.of_N ns ->
  (forall n, n ∈ ns -> (n <= 2 ^ 24)%N) ->
  grid_sum d = Some (Z.of_N (N_sum ns)).
Proof.
  unfold grid_sum. intros ->. induction ns as [|n ns IH]; intros Hbound;
    [reflexivity | ].
  cbn [map foldr]. rewrite IH.
  - rewrite to_Z_of_N by (apply Hbound; apply list_elem_of_here).
    rewrite N_sum_cons. f_equal. lia.
  - intros n' Hn'. apply Hbound. apply list_elem_of_further. exact Hn'.
Qed.

(** A cell of the grid is one position of the row-major store. *)
Lemma cell_position (C r c k : nat) :
  c < C -> Nat.eqb r (k / C) && Nat.eqb c (k mod C) = Nat.eqb k (r * C + c).
Proof.
  intros Hc.
  destruct (Nat.eqb_spec k (r * C + c)) as [->|Hne].
  - assert (Hdiv : (r * C + c) / C = r).
    { rewrite Nat.div_add_l by lia. rewrite Nat.div_small by lia. lia. }
    assert (Hmod : (r * C + c) mod C = c).
    { rewrite (Nat.add_comm (r * C) c), Nat.Div0.mod_add.
      apply Nat.mod_small. exact Hc. }
    rewrite Hdiv, Hmod, !Nat.eqb_refl. reflexivity.
  - destruct (Nat.eqb_spec r (k / C)) as [Hr|Hr]; [ | reflexivity].
    destruct (Nat.eqb_spec c (k mod C)) as [Hm|Hm]; [ | reflexivity].
    exfalso. apply Hne. pose proof (Nat.div_mod_eq k C). lia.
Qed.

(** Additions inside a grid: summed over the cells of the grid, what
    they send to the cells is what they add. *)
Lemma adds_total_grid (R C : nat) (adds : list (nat * nat * N)) :
  Forall (fun add => fst (fst add) < R /\ snd (fst add) < C) adds ->
  N_sum (map (fun k => adds_total adds (k / C) (k mod C)) (seq 0 (R * C)))
  = N_sum (map snd adds).
Proof.
  induction 1 as [|[[r0 c0] h] adds [Hr Hc] _ IH]; cbn [fst snd] in *.
  - cbn [map]. apply N_sum_zeros.
  - rewrite (map_ext _
               (fun k => ((if Nat.eqb k (r0 * C + c0) then h else 0)
                          + adds_total adds (k / C) (k mod C))%N)).
    + rewrite N_sum_map_add, IH.
      rewrite (N_sum_single_index (fun _ => h)).
      cbn [Nat.leb andb map Nat.add].
      pose proof (cell_index_lt R C r0 c0 Hr Hc) as Hlt.
      rewrite (proj2 (Nat.ltb_lt _ _) Hlt). rewrite N_sum_cons. reflexivity.
    + intros k. rewrite adds_total_cons, cell_position by exact Hc.
      reflexivity.
Qed.

Lemma adds_total_outside (R C : nat) (adds : list (nat * nat * N))
    (r c : nat) :
  Forall (fun add => fst (fst add) < R /\ snd (fst add) < C) adds ->
  R <= r \/ C <= c -> adds_total adds r c = 0%N.
Proof.
  intros Hin Hout.
  induction Hin as [|[[r0 c0] h] adds [Hr Hc] _ IH]; [reflexivity | ].
  cbn [fst snd] in *. rewrite adds_total_cons, IH.
  destruct (Nat.eqb_spec r0 r) as [->|_]; [ | reflexivity].
  destruct (Nat.eqb_spec c0 c) as [->|_]; [ | reflexivity].
  lia.
Qed.

Lemma lookup_all (l : list N) :
  map (fun i => default 0%N (l !! i)) (seq 0 (length l)) = l.
Proof.
  apply list_eq. intros k. rewrite list_lookup_fmap.
  destruct (Nat.lt_ge_cases k (length l)) as [Hk|Hk].
  - rewrite lookup_seq_lt by exact Hk.
    destruct (lookup_lt_is_Some_2 l k Hk) as [x Hx].
    cbn [fmap option_fmap option_map Nat.add]. rewrite Hx. reflexivity.
  - rewrite lookup_seq_ge by lia. rewrite lookup_ge_None_2 by lia.
    reflexivity.
Qed.

Section HeatmapFoldSum.

Context {M Options : Type}.
Context `{!QRecord M, !TileFilter Options M}.

Lemma fold_adds_inside (R C : nat) (options : Options) (n : M -> nat)
    (column : nat -> nat) (rs : list M) :
  (forall b, b ∈ rs -> valid_tile options b = true ->
     1 <= cycle b <= R /\ forall i, i < n b -> column i < C) ->
  Forall (fun add => fst (fst add) < R /\ snd (fst add) < C)
    (fold_adds options n column rs).
Proof.
  induction rs as [|b rs IH]; intros Hfit; [constructor | ].
  unfold fold_adds. cbn [flat_map]. fold (fold_adds options n column rs).
  apply Forall_app. split.
  - destruct (valid_tile options b) eqn:Hvalid; [ | constructor].
    destruct (Hfit b (list_elem_of_here _ _) Hvalid) as [Hcycle Hcol].
    unfold record_adds. apply Forall_fmap, Forall_forall.
    intros i Hi. apply elem_of_seq in Hi. unfold compose. cbn [fst snd].
    split; [lia | apply Hcol; lia].
  - apply IH. intros b' Hb'. apply Hfit. apply list_elem_of_further.
    exact Hb'.
Qed.

Lemma fold_adds_sum (options : Options) (n : M -> nat) (column : nat -> nat)
    (rs : list M) :
  (forall b, b ∈ rs -> valid_tile options b = true ->
     n b = length (qscore_hist b)) ->
  N_sum (map snd (fold_adds options n column rs)) = hist_total options rs.
Proof.
  induction rs as [|b rs IH]; intros Hn; [reflexivity | ].
  unfold fold_adds. cbn [flat_map]. fold (fold_adds options n column rs).
  rewrite map_app, N_sum_app, IH
    by (intros b' Hb'; apply Hn; apply list_elem_of_further; exact Hb').
  change (b :: rs) with ([b] ++ rs).
  rewrite hist_total_app, hist_total_one. f_equal.
  destruct (valid_tile options b) eqn:Hvalid; [ | reflexivity].
  unfold record_adds. rewrite map_map. cbn [snd].
  rewrite (Hn b (list_elem_of_here _ _) Hvalid). rewrite lookup_all.
  reflexivity.
Qed.

(** Either fold, on zeros: while no cell count exceeds 2^24 the cells
    sum to the sum of the histograms of the passing records. *)
Lemma fold_columns_conserves (n : M -> nat) (column : nat -> nat)
    (rs : list M) (options : Options) (d : heatmap_data) :
  well_formed d -> (forall x, x ∈ cells d -> x = F32.zero) ->
  (forall b, b ∈ rs -> valid_tile options b = true ->
     1 <= cycle b <= row_count d /\ n b = length (qscore_hist b) /\
     forall i, i < n b -> column i < column_count d) ->
  (forall r c, r < row_count d -> c < column_count d ->
     (cell_count (fun b c => column_total column (qscore_hist b) (n b) c)
        options rs r c <= 2 ^ 24)%N) ->
  exists d',
    fold_columns n column rs options d = Ok d' /\
    grid_sum d' = Some (Z.of_N (hist_total options rs)).
Proof.
  intros Hwf Hzero Hfit Hbound.
  set (adds := fold_adds options n column rs).
  assert (Hinside : Forall (fun add => fst (fst add) < row_count d /\
                                       snd (fst add) < column_count d) adds).
  { apply fold_adds_inside. intros b Hb Hv.
    destruct (Hfit b Hb Hv) as (Hc & _ & Hcol). split; assumption. }
  assert (Hcycle : forall b, b ∈ rs -> valid_tile options b = true ->
                     1 <= cycle b).
  { intros b Hb Hv. destruct (Hfit b Hb Hv) as [? _]. lia. }
  assert (Hall : forall r c, (adds_total adds r c <= 2 ^ 24)%N).
  { intros r c.
    destruct (Nat.lt_ge_cases r (row_count d)) as [Hr|Hr];
      [ | rewrite (adds_total_outside _ _ adds r c Hinside) by (left; lia);
          apply N.le_0_l].
    destruct (Nat.lt_ge_cases c (column_count d)) as [Hc|Hc];
      [ | rewrite (adds_total_outside _ _ adds r c Hinside) by (right; lia);
          apply N.le_0_l].
    unfold adds. rewrite adds_total_fold by exact Hcycle.
    apply Hbound; assumption. }
  destruct (fold_columns_adds _ _ _ n column rs options d
              (zero_grid_represents d Hwf Hzero))
    as (d' & Hrun & Hd' & _).
  { intros b Hb Hv. destruct (Hfit b Hb Hv) as (Hc & Hn & Hcol).
    split; [exact Hc | ]. split; [lia | exact Hcol]. }
  exists d'. split; [exact Hrun | ]. fold adds in Hd'.
  rewrite (grid_sum_cells
             (map (fun k => adds_total adds (k / column_count d)
                              (k mod column_count d))
                (seq 0 (row_count d * column_count d))) d').
  - rewrite adds_total_grid by exact Hinside. unfold adds.
    rewrite fold_adds_sum; [reflexivity | ].
    intros b Hb Hv. destruct (Hfit b Hb Hv) as (_ & Hn & _). exact Hn.
  - rewrite (represents_cells _ _ _ _ Hd'), map_map. apply map_ext.
    intros k. rewrite (apply_adds_counts (fun _ _ => 0%N))
      by (intros r c; rewrite N.add_0_l; apply Hall).
    rewrite N.add_0_l. reflexivity.
  - intros x Hx. apply list_elem_of_fmap in Hx as (k & -> & _). apply Hall.
Qed.

(** C4 as the code has it: on an all-zero grid that has a row for the
    cycle of every passing record and a column for every bin value (or
    for every histogram index, for the uncompressed encoding), and while
    the counts folded into any one cell sum to at most 2^24, so that
    binary32 holds every partial sum of the cell exactly, the fold
    returns a grid whose cells sum to the sum of [qscore_hist] over all
    histogram indices of the passing records, however large that sum
    is. *)
Theorem heatmap_fold_conserves (rs : list M) (bins : list q_score_bin)
    (options : Options) (data : heatmap_data) :
  well_formed data ->
  (forall x, x ∈ cells data -> x = F32.zero) ->
  (forall b, b ∈ rs -> valid_tile options b = true ->
     1 <= cycle b <= row_count data) ->
  ((forall q, q ∈ bins -> 1 <= value q <= column_count data) ->
   (forall b, b ∈ rs -> valid_tile options b = true ->
      length (qscore_hist b) = length bins) ->
   (forall r c, r < row_count data -> c < column_count data ->
      (cell_count (compressed_count bins) options rs r c <= 2 ^ 24)%N) ->
   exists data',
     populate_heatmap_from_compressed rs bins options data = Ok data' /\
     grid_sum data' = Some (Z.of_N (hist_total options rs)))
  /\
  ((forall b, b ∈ rs -> valid_tile options b = true ->
      length (qscore_hist b) <= column_count data) ->
   (forall r c, r < row_count data -> c < column_count data ->
      (cell_count uncompressed_count options rs r c <= 2 ^ 24)%N) ->
   exists data',
     populate_heatmap_from_uncompressed rs options data = Ok data' /\
     grid_sum data' = Some (Z.of_N (hist_total options rs))).
Proof.
  intros Hwf Hzero Hcycle. split.
  - intros Hbins Hlen Hbound.
    rewrite compressed_fold_columns
      by (intros q Hq; specialize (Hbins q Hq); lia).
    apply fold_columns_conserves; try assumption.
    intros b Hb Hv. split; [apply Hcycle; assumption | ].
    split; [symmetry; apply Hlen; assumption | ]. intros i Hi.
    unfold bin_column.
    destruct (lookup_lt_is_Some_2 bins i Hi) as [q Hq]. rewrite Hq.
    specialize (Hbins q (list_elem_of_lookup_2 _ _ _ Hq)). lia.
  - intros Hlen Hbound. rewrite uncompressed_fold_columns.
    apply fold_columns_conserves; try assumption.
    + intros b Hb Hv. split; [apply Hcycle; assumption | ].
      split; [reflexivity | ]. intros i Hi. specialize (Hlen b Hb Hv). lia.
    + intros r c Hr Hc.
      rewrite (cell_count_ext _ uncompressed_count)
        by (intros b; apply column_total_identity).
      apply Hbound; assumption.
Qed.

End HeatmapFoldSum.

(** ** The heat-map folds *)

Section HeatmapFoldFurther.

Context {M Options : Type}.
Context `{!QRecord M, !TileFilter Options M}.

Lemma for_each_filtered (rs : list M) (options : Options)
    (body : M -> heatmap_data -> result heatmap_data) (d : heatmap_data) :
  for_each rs
    (fun b data => if negb (valid_tile options b) then Ok data
                   else body b data) d
  = for_each (filter (fun b => valid_tile options b = true) rs)
      (fun b data => if negb (valid_tile options b) then Ok data
                     else body b data) d.
Proof.
  revert d. induction rs as [|b rs IH]; intros d; [reflexivity | ].
  rewrite filter_cons. cbn [for_each].
  destruct (valid_tile options b) eqn:Hvalid; cbn [negb].
  - case_decide as Hd; [ | contradiction]. cbn [for_each].
    rewrite Hvalid. cbn [negb].
    destruct (body b d) as [d'|e]; [ | reflexivity]. cbn [bind]. apply IH.
  - case_decide as Hd; [discriminate Hd | ]. cbn [bind]. apply IH.
Qed.

Lemma for_each_none_pass (rs : list M) (options : Options)
    (body : M -> heatmap_data -> result heatmap_data) (d : heatmap_data) :
  (forall b, b ∈ rs -> valid_tile options b = false) ->
  for_each rs
    (fun b data => if negb (valid_tile options b) then Ok data
                   else body b data) d
  = Ok d.
Proof.
  induction rs as [|b rs IH]; intros Hnone; [reflexivity | ].
  cbn [for_each]. rewrite (Hnone b) by apply list_elem_of_here.
  cbn [negb bind]. apply IH. intros b' Hb'. apply Hnone.
  apply list_elem_of_further. exact Hb'.
Qed.

(** X6: both heat-map folds ignore the records that [valid_tile]
    rejects: folding a collection gives what folding its passing
    records gives, and when no record passes the grid is returned as it
    was, whatever cycles the rejected records carry. *)
Theorem heatmap_fold_skips_filtered (rs : list M) (bins : list q_score_bin)
    (options : Options) (data : heatmap_data) :
  populate_heatmap_from_compressed rs bins options data
  = populate_heatmap_from_compressed
      (filter (fun b => valid_tile options b = true) rs) bins options data /\
  populate_heatmap_from_uncompressed rs options data
  = populate_heatmap_from_uncompressed
      (filter (fun b => valid_tile options b = true) rs) options data /\
  ((forall b, b ∈ rs -> valid_tile options b = false) ->
   populate_heatmap_from_compressed rs bins options data = Ok data /\
   populate_heatmap_from_uncompressed rs options data = Ok data).
Proof.
  split; [apply for_each_filtered | ]. split; [apply for_each_filtered | ].
  intros Hnone. split; apply for_each_none_pass; exact Hnone.
Qed.

(** X7: on an all-zero grid with a row for the cycle of every passing
    record and a column for every histogram entry, the uncompressed fold
    leaves in cell [(r, c)] the sum of histogram entry [c] over the
    passing records of cycle [r + 1], as long as no such sum exceeds
    2^24. *)
Theorem uncompressed_fold_cells (rs : list M) (options : Options)
    (data : heatmap_data) :
  well_formed data ->
  (forall x, x ∈ cells data -> x = F32.zero) ->
  (forall b, b ∈ rs -> valid_tile options b = true ->
     1 <= cycle b <= row_count data /\
     length (qscore_hist b) <= column_count data) ->
  (forall r c, (cell_count uncompressed_count options rs r c <= 2 ^ 24)%N) ->
  exists data',
    populate_heatmap_from_uncompressed rs options data = Ok data' /\
    row_count data' = row_count data /\
    column_count data' = column_count data /\
    forall r c, r < row_count data -> c < column_count data ->
      heatmap_at data' (Some r) (Some c)
      = Ok (F32.of_N (cell_count uncompressed_count options rs r c)).
Proof.
  intros Hwf Hzero Hfit Hbound.
  assert (Hsame : forall r c,
            cell_count
              (fun b c => column_total (fun i => i) (qscore_hist b)
                            (length (qscore_hist b)) c) options rs r c
            = cell_count uncompressed_count options rs r c).
  { intros r c. apply cell_count_ext. intros b.
    apply column_total_identity. }
  destruct (fold_columns_counts (fun b => length (qscore_hist b))
              (fun i => i) rs options data Hwf Hzero)
    as (data' & Hrun & Hd' & _).
  - intros b Hb Hv. destruct (Hfit b Hb Hv) as [Hc Hl].
    split; [exact Hc | ]. split; [lia | ]. intros i Hi. lia.
  - intros r c. rewrite Hsame. apply Hbound.
  - exists data'. rewrite uncompressed_fold_columns.
    split; [exact Hrun | ].
    pose proof Hd' as (HR & HC & _ & _).
    split; [exact HR | ]. split; [exact HC | ].
    intros r c Hr Hc.
    rewrite (heatmap_at_represents _ _ _ _ r c Hd' Hr Hc), Hsame.
    reflexivity.
Qed.

(** X8: on an all-zero grid with a row for the cycle of every passing
    record and a column for every bin value, the compressed fold leaves
    in cell [(r, c)] the sum, over the passing records of cycle [r + 1],
    of the histogram entries whose bin has value [c + 1], as long as no
    such sum exceeds 2^24. *)
Theorem compressed_fold_cells (rs : list M) (bins : list q_score_bin)
    (options : Options) (data : heatmap_data) :
  well_formed data ->
  (forall x, x ∈ cells data -> x = F32.zero) ->
  (forall q, q ∈ bins -> 1 <= value q <= column_count data) ->
  (forall b, b ∈ rs -> valid_tile options b = true ->
     1 <= cycle b <= row_count data /\
     length bins <= length (qscore_hist b)) ->
  (forall r c,
     (cell_count (compressed_count bins) options rs r c <= 2 ^ 24)%N) ->
  exists data',
    populate_heatmap_from_compressed rs bins options data = Ok data' /\
    row_count data' = row_count data /\
    column_count data' = column_count data /\
    forall r c, r < row_count data -> c < column_count data ->
      heatmap_at data' (Some r) (Some c)
      = Ok (F32.of_N (cell_count (compressed_count bins) options rs r c)).
Proof.
  intros Hwf Hzero Hbins Hfit Hbound.
  destruct (fold_columns_counts (fun _ => length bins) (bin_column bins)
              rs options data Hwf Hzero)
    as (data' & Hrun & Hd' & _).
  - intros b Hb Hv. destruct (Hfit b Hb Hv) as [Hc Hl].
    split; [exact Hc | ]. split; [exact Hl | ]. intros i Hi.
    unfold bin_column.
    destruct (lookup_lt_is_Some_2 bins i Hi) as [q Hq]. rewrite Hq.
    specialize (Hbins q (list_elem_of_lookup_2 _ _ _ Hq)). lia.
  - exact Hbound.
  - exists data'. rewrite compressed_fold_columns
      by (intros q Hq; specialize (Hbins q Hq); lia).
    split; [exact Hrun | ].
    pose proof Hd' as (HR & HC & _ & _).
    split; [exact HR | ]. split; [exact HC | ].
    intros r c Hr Hc.
    rewrite (heatmap_at_represents _ _ _ _ r c Hd' Hr Hc). reflexivity.
Qed.

Lemma fold_columns_perm (n : M -> nat) (column : nat -> nat)
    (rs rs' : list M) (options : Options) (d : heatmap_data) :
  rs ≡ₚ rs' ->
  well_formed d -> (forall x, x ∈ cells d -> x = F32.zero) ->
  (forall b, b ∈ rs -> valid_tile options b = true ->
     1 <= cycle b <= row_count d /\ n b <= length (qscore_hist b) /\
     forall i, i < n b -> column i < column_count d) ->
  (forall r c,
     (cell_count (fun b c => column_total column (qscore_hist b) (n b) c)
        options rs r c <= 2 ^ 24)%N) ->
  exists d',
    fold_columns n column rs options d = Ok d' /\
    fold_columns n column rs' options d = Ok d'.
Proof.
  intros Hperm Hwf Hzero Hfit Hbound.
  destruct (fold_columns_counts n column rs options d Hwf Hzero Hfit Hbound)
    as (d1 & Hrun1 & Hd1 & Hax1).
  destruct (fold_columns_counts n column rs' options d Hwf Hzero)
    as (d2 & Hrun2 & Hd2 & Hax2).
  - intros b Hb. apply Hfit. rewrite Hperm. exact Hb.
  - intros r c. rewrite <- (cell_count_perm _ _ _ _ r c Hperm). apply Hbound.
  - exists d1. split; [exact Hrun1 | ]. rewrite Hrun2. f_equal.
    symmetry. eapply represents_unique; [exact Hd1 | | ].
    + apply (represents_ext _ _ _ _ d2) with (2 := Hd2).
      intros r c _ _. cbv beta. f_equal. symmetry.
      apply cell_count_perm. exact Hperm.
    + destruct Hax1 as (A1 & A2 & A3 & A4 & A5).
      destruct Hax2 as (B1 & B2 & B3 & B4 & B5).
      repeat split; congruence.
Qed.

(** X9: while every cell count is at most 2^24, the heat-map folds do
    not depend on the order of the records: a collection and any
    permutation of it fold an all-zero grid into the same grid. *)
Theorem heatmap_fold_record_order (rs rs' : list M)
    (bins : list q_score_bin) (options : Options) (data : heatmap_data) :
  rs ≡ₚ rs' ->
  well_formed data ->
  (forall x, x ∈ cells data -> x = F32.zero) ->
  (forall b, b ∈ rs -> valid_tile options b = true ->
     1 <= cycle b <= row_count data) ->
  ((forall q, q ∈ bins -> 1 <= value q <= column_count data) ->
   (forall b, b ∈ rs -> valid_tile options b = true ->
      length bins <= length (qscore_hist b)) ->
   (forall r c,
      (cell_count (compressed_count bins) options rs r c <= 2 ^ 24)%N) ->
   exists data',
     populate_heatmap_from_compressed rs bins options data = Ok data' /\
     populate_heatmap_from_compressed rs' bins options data = Ok data')
  /\
  ((forall b, b ∈ rs -> valid_tile options b = true ->
      length (qscore_hist b) <= column_count data) ->
   (forall r c,
      (cell_count uncompressed_count options rs r c <= 2 ^ 24)%N) ->
   exists data',
     populate_heatmap_from_uncompressed rs options data = Ok data' /\
     populate_heatmap_from_uncompressed rs' options data = Ok data').
Proof.
  intros Hperm Hwf Hzero Hcycle. split.
  - intros Hbins Hlen Hbound.
    rewrite !compressed_fold_columns
      by (intros q Hq; specialize (Hbins q Hq); lia).
    apply fold_columns_perm; try assumption.
    intros b Hb Hv. split; [apply Hcycle; assumption | ].
    split; [apply Hlen; assumption | ]. intros i Hi. unfold bin_column.
    destruct (lookup_lt_is_Some_2 bins i Hi) as [q Hq]. rewrite Hq.
    specialize (Hbins q (list_elem_of_lookup_2 _ _ _ Hq)). lia.
  - intros Hlen Hbound. rewrite !uncompressed_fold_columns.
    apply fold_columns_perm; try assumption.
    + intros b Hb Hv. split; [apply Hcycle; assumption | ].
      split; [lia | ]. intros i Hi. specialize (Hlen b Hb Hv). lia.
    + intros r c.
      rewrite (cell_count_ext _ uncompressed_count)
        by (intros b; apply column_total_identity).
      apply Hbound.
Qed.

(** X10: whatever the size of the counts, the folds keep the grid
    free of negative numbers and of NaN: from a grid whose cells are
    not negative, with the cycles of the passing records and the columns
    in range, the fold returns a grid whose cells are zero, positive or
    plus infinity. *)
Theorem heatmap_fold_nonneg (rs : list M) (bins : list q_score_bin)
    (options : Options) (data : heatmap_data) :
  well_formed data ->
  (forall x, x ∈ cells data -> F32.leb F32.zero x = true) ->
  (forall b, b ∈ rs -> valid_tile options b = true ->
     1 <= cycle b <= row_count data) ->
  ((forall q, q ∈ bins -> 1 <= value q <= column_count data) ->
   (forall b, b ∈ rs -> valid_tile options b = true ->
      length bins <= length (qscore_hist b)) ->
   exists data',
     populate_heatmap_from_compressed rs bins options data = Ok data' /\
     well_formed data' /\
     forall x, x ∈ cells data' ->
       F32.leb F32.zero x = true /\ F32.isnan x = false)
  /\
  ((forall b, b ∈ rs -> valid_tile options b = true ->
      length (qscore_hist b) <= column_count data) ->
   exists data',
     populate_heatmap_from_uncompressed rs options data = Ok data' /\
     well_formed data' /\
     forall x, x ∈ cells data' ->
       F32.leb F32.zero x = true /\ F32.isnan x = false).
Proof.
  intros Hwf Hnonneg Hcycle.
  assert (Hnan : forall x, F32.leb F32.zero x = true -> F32.isnan x = false).
  { intros x Hx. destruct x; try reflexivity. discriminate Hx. }
  split.
  - intros Hbins Hlen.
    rewrite compressed_fold_columns
      by (intros q Hq; specialize (Hbins q Hq); lia).
    destruct (fold_columns_nonneg (fun _ => length bins) (bin_column bins)
                rs options data Hwf Hnonneg)
      as (data' & Hrun & _ & _ & Hwf' & _ & Hcells).
    + intros b Hb Hv. split; [apply Hcycle; assumption | ].
      split; [apply Hlen; assumption | ]. intros i Hi. unfold bin_column.
      destruct (lookup_lt_is_Some_2 bins i Hi) as [q Hq]. rewrite Hq.
      specialize (Hbins q (list_elem_of_lookup_2 _ _ _ Hq)). lia.
    + exists data'. split; [exact Hrun | ]. split; [exact Hwf' | ].
      intros x Hx. split; [ | apply Hnan]; apply Hcells; exact Hx.
  - intros Hlen. rewrite uncompressed_fold_columns.
    destruct (fold_columns_nonneg (fun b => length (qscore_hist b))
                (fun i => i) rs options data Hwf Hnonneg)
      as (data' & Hrun & _ & _ & Hwf' & _ & Hcells).
    + intros b Hb Hv. split; [apply Hcycle; assumption | ].
      split; [lia | ]. intros i Hi. specialize (Hlen b Hb Hv). lia.
    + exists data'. split; [exact Hrun | ]. split; [exact Hwf' | ].
      intros x Hx. split; [ | apply Hnan]; apply Hcells; exact Hx.
Qed.

End HeatmapFoldFurther.

(** ** What the loops over a heat map keep *)

Lemma for_range_preserved {S : Type} (P : S -> S -> Prop) (count start : nat)
    (body : nat -> S -> result S) (s s' : S) :
  (forall s, P s s) ->
  (forall s1 s2 s3, P s1 s2 -> P s2 s3 -> P s1 s3) ->
  (forall i s s', body i s = Ok s' -> P s s') ->
  for_range count start body s = Ok s' -> P s s'.
Proof.
  intros Hrefl Htrans Hbody. revert start s.
  induction count as [|count IH]; intros start s; cbn [for_range].
  - intros [= <-]. apply Hrefl.
  - destruct (body start s) as [s1|e] eqn:Hstep; [ | discriminate].
    cbn [bind]. intros Hrest.
    eapply Htrans; [eapply Hbody; exact Hstep | eapply IH; exact Hrest].
Qed.

Lemma for_each_preserved {A S : Type} (P : S -> S -> Prop) (l : list A)
    (body : A -> S -> result S) (s s' : S) :
  (forall s, P s s) ->
  (forall s1 s2 s3, P s1 s2 -> P s2 s3 -> P s1 s3) ->
  (forall a s s', body a s = Ok s' -> P s s') ->
  for_each l body s = Ok s' -> P s s'.
Proof.
  intros Hrefl Htrans Hbody. revert s.
  induction l as [|a l IH]; intros s; cbn [for_each].
  - intros [= <-]. apply Hrefl.
  - destruct (body a s) as [s1|e] eqn:Hstep; [ | discriminate].
    cbn [bind]. intros Hrest.
    eapply Htrans; [eapply Hbody; exact Hstep | eapply IH; exact Hrest].
Qed.

Lemma same_frame_refl (d : heatmap_data) :
  same_axes d d /\ row_count d = row_count d /\
  column_count d = column_count d.
Proof. split; [apply same_axes_refl | split; reflexivity]. Qed.

Lemma same_frame_trans (d1 d2 d3 : heatmap_data) :
  same_axes d1 d2 /\ row_count d2 = row_count d1 /\
    column_count d2 = column_count d1 ->
  same_axes d2 d3 /\ row_count d3 = row_count d2 /\
    column_count d3 = column_count d2 ->
  same_axes d1 d3 /\ row_count d3 = row_count d1 /\
    column_count d3 = column_count d1.
Proof.
  intros (A & R1 & C1) (B & R2 & C2).
  split; [eapply same_axes_trans; eassumption | split; congruence].
Qed.

Lemma heatmap_set_frame (d d' : heatmap_data) (row col : option nat)
    (v : float32) :
  heatmap_set d row col v = Ok d' ->
  same_axes d d' /\ row_count d' = row_count d /\
  column_count d' = column_count d.
Proof.
  unfold heatmap_set. destruct (index_of d row col) as [i|e]; [ | discriminate].
  cbn [bind]. destruct (at_index (cells d) i) as [old|e]; [ | discriminate].
  cbn [bind]. intros [= <-].
  split; [apply same_axes_with_cells | split; reflexivity].
Qed.

(** [remap_to_bins] changes neither the dimensions nor the axes. *)
Lemma remap_to_bins_frame (bins : list q_score_bin) (max_cycle : nat)
    (d d' : heatmap_data) :
  remap_to_bins bins max_cycle d = Ok d' ->
  same_axes d d' /\ row_count d' = row_count d /\
  column_count d' = column_count d.
Proof.
  unfold remap_to_bins.
  apply (for_each_preserved
           (fun d d' => same_axes d d' /\ row_count d' = row_count d /\
                        column_count d' = column_count d));
    [apply same_frame_refl | apply same_frame_trans | ].
  intros q s s'.
  apply (for_range_preserved
           (fun d d' => same_axes d d' /\ row_count d' = row_count d /\
                        column_count d' = column_count d));
    [apply same_frame_refl | apply same_frame_trans | ].
  intros bin s1 s1'.
  apply (for_range_preserved
           (fun d d' => same_axes d d' /\ row_count d' = row_count d /\
                        column_count d' = column_count d));
    [apply same_frame_refl | apply same_frame_trans | ].
  intros cyc s2 s2'.
  destruct (heatmap_at s2 (Some cyc) (pred_index (value q))) as [x|e];
    [ | discriminate].
  cbn [bind]. apply heatmap_set_frame.
Qed.

(** ** Bin re-expansion, cell by cell *)

Lemma covered_dec (bins : list q_score_bin) (c : nat) :
  (exists q, q ∈ bins /\ covers q c) \/ (forall q, q ∈ bins -> ~ covers q c).
Proof.
  induction bins as [|a bins IH].
  - right. intros q Hq. inversion Hq.
  - destruct (covers_dec a c) as [Ha|Ha].
    + left. exists a. split; [apply list_elem_of_here | exact Ha].
    + destruct IH as [(q & Hq & Hc)|Hnone].
      * left. exists q. split; [apply list_elem_of_further; exact Hq | exact Hc].
      * right. intros q Hq. apply elem_of_cons in Hq as [->|Hq];
          [exact Ha | apply Hnone; exact Hq].
Qed.

(** The matrix [remap_to_bins] leaves, for disjoint bins inside the
    grid. *)
Lemma remap_to_bins_grid (R C : nat) (G : nat -> nat -> float32)
    (bins : list q_score_bin) (max_cycle : nat) (d : heatmap_data) :
  represents R C G d ->
  max_cycle <= R ->
  (forall q, q ∈ bins ->
     1 <= lower q /\ lower q <= value q /\ value q <= upper q /\
     upper q <= C) ->
  (forall i j qi qj c, i < j -> bins !! i = Some qi -> bins !! j = Some qj ->
     covers qi c -> covers qj c -> False) ->
  exists d' G',
    remap_to_bins bins max_cycle d = Ok d' /\
    represents R C G' d' /\
    (forall q r c, q ∈ bins -> r < max_cycle -> covers q c ->
       G' r c = G r (value q - 1)) /\
    (forall r c, max_cycle <= r \/ (forall q, q ∈ bins -> ~ covers q c) ->
       G' r c = G r c).
Proof.
  intros Hrep Hmax Hbins Hdisj.
  destruct (for_each_invariant
              (fun pre s => exists G',
                 represents R C G' s /\
                 (forall q r c, q ∈ pre -> r < max_cycle -> covers q c ->
                    G' r c = G r (value q - 1)) /\
                 (forall r c,
                    max_cycle <= r \/ (forall q, q ∈ pre -> ~ covers q c) ->
                    G' r c = G r c))
              bins
              (fun q data =>
                 for_range (upper q - first_column q) (first_column q)
                   (fun bin data =>
                      for_range max_cycle 0
                        (fun cycle data =>
                           do x <- heatmap_at data (Some cycle)
                                     (pred_index (value q));
                           heatmap_set data (Some cycle) (Some bin) x)
                        data)
                   data)
              d) as (d' & Hrun & G' & Hrep' & Hcov & Hrest).
  - exists G. split; [exact Hrep | ]. split; [ | reflexivity].
    intros q r c Hq. inversion Hq.
  - intros pre a post s Hsplit (G1 & Hrep1 & Hcov1 & Hrest1).
    assert (Ha : a ∈ bins).
    { rewrite Hsplit. apply elem_of_app. right. apply list_elem_of_here. }
    destruct (Hbins a Ha) as (Hlo & Hlv & Hvu & Hup).
    assert (Hapart : forall q c, q ∈ pre -> covers q c -> covers a c -> False).
    { intros q c Hq Hqc Hac.
      apply list_elem_of_lookup in Hq as [i Hi].
      apply (Hdisj i (length pre) q a c); try assumption.
      - apply lookup_lt_Some in Hi. exact Hi.
      - rewrite Hsplit. rewrite lookup_app_l by (eapply lookup_lt_Some; eauto).
        exact Hi.
      - rewrite Hsplit. rewrite list_lookup_middle; reflexivity. }
    destruct (remap_column_loop R C G1 a max_cycle s Hrep1)
      as (s' & Hloop & Hs'); try assumption.
    exists s'. split; [exact Hloop | ].
    eexists. split; [exact Hs' | ]. cbn beta.
    assert (Hrepr : forall r, G1 r (value a - 1) = G r (value a - 1)).
    { intros r. apply Hrest1. right. intros q Hq Hqc.
      apply (Hapart q (value a - 1) Hq Hqc). unfold covers. lia. }
    split.
    + intros q r c Hq Hr Hqc. apply elem_of_app in Hq as [Hq|Hq].
      * destruct (covers_dec a c) as [Hac|Hac];
          [exfalso; exact (Hapart q c Hq Hqc Hac) | ].
        rewrite (covers_test_false _ _ _ _ Hac). apply Hcov1; assumption.
      * apply list_elem_of_singleton in Hq as ->.
        rewrite (covers_test_true _ _ _ _ Hr Hqc). apply Hrepr.
    + intros r c [Hr|Hnone].
      * destruct (Nat.ltb_spec r max_cycle) as [Hlt|_]; [lia | ].
        cbn [andb]. apply Hrest1. left. exact Hr.
      * rewrite covers_test_false.
        -- apply Hrest1. right. intros q Hq. apply Hnone.
           apply elem_of_app. left. exact Hq.
        -- apply Hnone. apply elem_of_app. right. apply list_elem_of_here.
  - exists d', G'. split; [exact Hrun | ]. split; [exact Hrep' | ].
    split; assumption.
Qed.

(** X13: for disjoint bins inside the grid, [remap_to_bins] keeps the
    dimensions and the axes, leaves every row from [max_cycle] on and
    every column that no bin covers as they were, and only copies within
    a row: every cell of the result holds what some cell of the same row
    held before the call. *)
Theorem remap_to_bins_untouched (bins : list q_score_bin) (max_cycle : nat)
    (data : heatmap_data) :
  well_formed data ->
  max_cycle <= row_count data ->
  (forall q, q ∈ bins ->
     1 <= lower q /\ lower q <= value q /\ value q <= upper q /\
     upper q <= column_count data) ->
  (forall i j qi qj c, i < j -> bins !! i = Some qi -> bins !! j = Some qj ->
     covers qi c -> covers qj c -> False) ->
  exists data',
    remap_to_bins bins max_cycle data = Ok data' /\
    row_count data' = row_count data /\
    column_count data' = column_count data /\
    well_formed data' /\ same_axes data data' /\
    (forall r c, r < row_count data -> c < column_count data ->
       max_cycle <= r \/ (forall q, q ∈ bins -> ~ covers q c) ->
       heatmap_at data' (Some r) (Some c) = heatmap_at data (Some r) (Some c)) /\
    (forall r c, r < row_count data -> c < column_count data ->
       exists c0, c0 < column_count data /\
         heatmap_at data' (Some r) (Some c)
         = heatmap_at data (Some r) (Some c0)).
Proof.
  intros Hwf Hmax Hbins Hdisj.
  pose proof (well_formed_represents data Hwf) as Hrep.
  destruct (remap_to_bins_grid _ _ _ bins max_cycle data Hrep Hmax Hbins Hdisj)
    as (data' & G' & Hrun & Hrep' & Hcov & Hrest).
  destruct (remap_to_bins_frame _ _ _ _ Hrun) as (Hax & HR & HC).
  exists data'. split; [exact Hrun | ]. split; [exact HR | ].
  split; [exact HC | ].
  split; [eapply represents_well_formed; exact Hrep' | ].
  split; [exact Hax | ]. split.
  - intros r c Hr Hc Hout.
    rewrite (heatmap_at_represents _ _ _ _ r c Hrep' Hr Hc).
    rewrite (heatmap_at_represents _ _ _ _ r c Hrep Hr Hc).
    rewrite (Hrest r c Hout). reflexivity.
  - intros r c Hr Hc.
    rewrite (heatmap_at_represents _ _ _ _ r c Hrep' Hr Hc).
    destruct (Nat.lt_ge_cases r max_cycle) as [Hlt|Hge].
    + destruct (covered_dec bins c) as [(q & Hq & Hqc)|Hnone].
      * destruct (Hbins q Hq) as (Hlo & Hlv & Hvu & Hup).
        exists (value q - 1). split; [lia | ].
        rewrite (heatmap_at_represents _ _ _ _ r (value q - 1) Hrep Hr)
          by lia.
        rewrite (Hcov q r c Hq Hlt Hqc). reflexivity.
      * exists c. split; [exact Hc | ].
        rewrite (heatmap_at_represents _ _ _ _ r c Hrep Hr Hc).
        rewrite (Hrest r c (or_intror Hnone)). reflexivity.
    + exists c. split; [exact Hc | ].
      rewrite (heatmap_at_represents _ _ _ _ r c Hrep Hr Hc).
      rewrite (Hrest r c (or_introl Hge)). reflexivity.
Qed.

(** X14: for disjoint bins inside the grid, spreading the bins a
    second time changes nothing: [remap_to_bins] on its own result
    returns that result. *)
Theorem remap_to_bins_idempotent (bins : list q_score_bin) (max_cycle : nat)
    (data : heatmap_data) :
  well_formed data ->
  max_cycle <= row_count data ->
  (forall q, q ∈ bins ->
     1 <= lower q /\ lower q <= value q /\ value q <= upper q /\
     upper q <= column_count data) ->
  (forall i j qi qj c, i < j -> bins !! i = Some qi -> bins !! j = Some qj ->
     covers qi c -> covers qj c -> False) ->
  exists data',
    remap_to_bins bins max_cycle data = Ok data' /\
    remap_to_bins bins max_cycle data' = Ok data'.
Proof.
  intros Hwf Hmax Hbins Hdisj.
  pose proof (well_formed_represents data Hwf) as Hrep.
  destruct (remap_to_bins_grid _ _ _ bins max_cycle data Hrep Hmax Hbins Hdisj)
    as (d1 & G1 & Hrun1 & Hrep1 & Hcov1 & Hrest1).
  destruct (remap_to_bins_grid _ _ _ bins max_cycle d1 Hrep1 Hmax Hbins Hdisj)
    as (d2 & G2 & Hrun2 & Hrep2 & Hcov2 & Hrest2).
  destruct (remap_to_bins_frame _ _ _ _ Hrun2) as (Hax2 & _ & _).
  exists d1. split; [exact Hrun1 | ]. rewrite Hrun2. f_equal.
  symmetry. eapply represents_unique; [exact Hrep1 | | exact Hax2].
  apply (represents_ext _ _ _ _ d2) with (2 := Hrep2).
  intros r c _ _.
  destruct (Nat.lt_ge_cases r max_cycle) as [Hlt|Hge];
    [ | apply Hrest2; left; exact Hge].
  destruct (covered_dec bins c) as [(q & Hq & Hqc)|Hnone];
    [ | apply Hrest2; right; exact Hnone].
  destruct (Hbins q Hq) as (Hlo & Hlv & Hvu & Hup).
  rewrite (Hcov2 q r c Hq Hlt Hqc), (Hcov1 q r c Hq Hlt Hqc).
  apply (Hcov1 q r (value q - 1) Hq Hlt). unfold covers. lia.
Qed.

(** ** Normalising a grid of zeros *)

Lemma fold_max_zeros (l : list float32) :
  (forall x, x ∈ l -> x = F32.zero) -> fold_left F32.max l F32.zero = F32.zero.
Proof.
  induction l as [|x l IH]; intros Hzero; [reflexivity | ].
  cbn [fold_left]. rewrite (Hzero x) by apply list_elem_of_here.
  change (F32.max F32.zero F32.zero) with F32.zero.
  apply IH. intros y Hy. apply Hzero. apply list_elem_of_further. exact Hy.
Qed.

(** X12: on a grid whose cells are all zero the maximum is zero and
    [normalize_heatmap] divides zero by zero: it returns a grid of the
    same dimensions whose cells are all NaN. *)
Theorem normalize_heatmap_all_zero (d : heatmap_data) :
  well_formed d ->
  (forall x, x ∈ cells d -> x = F32.zero) ->
  exists d',
    normalize_heatmap d = Ok d' /\
    row_count d' = row_count d /\ column_count d' = column_count d /\
    well_formed d' /\
    forall r c, r < row_count d -> c < column_count d ->
      heatmap_at d' (Some r) (Some c) = Ok S754_nan.
Proof.
  intros Hwf Hzero. eexists.
  split; [apply normalize_heatmap_cells; exact Hwf | ].
  split; [reflexivity | ]. split; [reflexivity | ].
  rewrite (fold_max_zeros _ Hzero).
  split.
  - unfold well_formed. cbn [with_cells cells row_count column_count].
    rewrite length_map. exact Hwf.
  - intros r c Hr Hc.
    destruct (lookup_lt_is_Some_2 (cells d) (r * column_count d + c))
      as [x Hx].
    { rewrite Hwf. apply cell_index_lt; assumption. }
    apply heatmap_at_cells; [exact Hr | exact Hc | ].
    rewrite list_lookup_fmap, Hx.
    rewrite (Hzero x) by (eapply list_elem_of_lookup_2; exact Hx).
    reflexivity.
Qed.

(** ** [populate_heatmap] *)

Lemma represents_map (R C : nat) (G : nat -> nat -> float32)
    (f : float32 -> float32) (d : heatmap_data) :
  represents R C G d ->
  represents R C (fun r c => f (G r c)) (with_cells (map f (cells d)) d).
Proof.
  intros (HR & HC & Hl & Hc). repeat split; cbn [with_cells row_count
    column_count cells]; try assumption.
  - rewrite length_map. exact Hl.
  - intros r c Hr Hc'. rewrite list_lookup_fmap, (Hc r c Hr Hc').
    reflexivity.
Qed.

(** The largest count of a grid that is not empty. *)
Lemma grid_top (R C : nat) (g : nat -> nat -> N) :
  0 < R -> 0 < C ->
  exists top,
    top = fold_left N.max
            (map (fun k => g (k / C) (k mod C)) (seq 0 (R * C))) 0%N /\
    (forall r c, r < R -> c < C -> (g r c <= top)%N) /\
    (exists r c, r < R /\ c < C /\ g r c = top).
Proof.
  intros HR HC.
  set (ns := map (fun k => g (k / C) (k mod C)) (seq 0 (R * C))).
  destruct (fold_N_max_spec ns 0) as (_ & Hall & Hmem).
  exists (fold_left N.max ns 0%N). split; [reflexivity | ].
  assert (Hin : forall r c, r < R -> c < C -> g r c ∈ ns).
  { intros r c Hr Hc. unfold ns. apply list_elem_of_fmap.
    exists (r * C + c). split.
    - assert (Hdiv : (r * C + c) / C = r).
      { rewrite Nat.div_add_l by lia. rewrite Nat.div_small by lia. lia. }
      assert (Hmod : (r * C + c) mod C = c).
      { rewrite (Nat.add_comm (r * C) c), Nat.Div0.mod_add.
        apply Nat.mod_small. exact Hc. }
      rewrite Hdiv, Hmod. reflexivity.
    - apply elem_of_seq. pose proof (cell_index_lt R C r c Hr Hc). lia. }
  split.
  - intros r c Hr Hc. apply Hall. apply Hin; assumption.
  - destruct Hmem as [Hz|Hmem].
    + exists 0, 0. split; [lia | ]. split; [lia | ].
      pose proof (Hall _ (Hin 0 0 HR HC)) as Hle. lia.
    + unfold ns in Hmem. apply list_elem_of_fmap in Hmem as (k & Hk & Hseq).
      apply elem_of_seq in Hseq.
      exists (k / C), (k mod C).
      split; [apply Nat.Div0.div_lt_upper_bound; lia | ].
      split; [apply Nat.mod_upper_bound; lia | ]. symmetry. exact Hk.
Qed.

Lemma find_covers (bins : list q_score_bin) (c : nat) :
  match find (fun q => (lower q - 1 <=? c) && (c <? upper q)) bins with
  | Some q => q ∈ bins /\ covers q c
  | None => forall q, q ∈ bins -> ~ covers q c
  end.
Proof.
  induction bins as [|a bins IH]; cbn [find].
  - intros q Hq. inversion Hq.
  - destruct (Nat.leb_spec (lower a - 1) c) as [Hlo|Hlo];
      destruct (Nat.ltb_spec c (upper a)) as [Hup|Hup]; cbn [andb].
    + split; [apply list_elem_of_here | split; assumption].
    + destruct (find _ bins) as [q|].
      * destruct IH as [Hq Hc]. split; [apply list_elem_of_further | ];
          assumption.
      * intros q Hq. apply elem_of_cons in Hq as [->|Hq];
          [unfold covers; lia | apply IH; exact Hq].
    + destruct (find _ bins) as [q|].
      * destruct IH as [Hq Hc]. split; [apply list_elem_of_further | ];
          assumption.
      * intros q Hq. apply elem_of_cons in Hq as [->|Hq];
          [unfold covers; lia | apply IH; exact Hq].
    + destruct (find _ bins) as [q|].
      * destruct IH as [Hq Hc]. split; [apply list_elem_of_further | ];
          assumption.
      * intros q Hq. apply elem_of_cons in Hq as [->|Hq];
          [unfold covers; lia | apply IH; exact Hq].
Qed.

Section PopulateHeatmapFacts.

Context {M Options : Type}.
Context `{!QRecord M, !TileFilter Options M, !QSetHelpers M}.

Lemma resize_frame (rows cols : nat) (data : heatmap_data) :
  row_count (heatmap_resize rows cols data) = rows /\
  column_count (heatmap_resize rows cols data) = cols /\
  well_formed (heatmap_resize rows cols data) /\
  same_axes data (heatmap_resize rows cols data).
Proof.
  split; [reflexivity | ]. split; [reflexivity | ]. split.
  - unfold well_formed. cbn. apply length_resize.
  - repeat split.
Qed.

(** The fold of [populate_heatmap], by the encoding of the set, as a
    list of additions. *)
Lemma populate_fold_adds (ms : metric_set M) (options : Options)
    (G : nat -> nat -> float32) (d : heatmap_data) :
  heatmap_inputs_fit ms options ->
  represents (max_cycle ms) (max_qval ms) G d ->
  exists d' n column,
    (if is_compressed ms then
       populate_heatmap_from_compressed (records ms) (bins ms) options d
     else populate_heatmap_from_uncompressed (records ms) options d) = Ok d' /\
    represents (max_cycle ms) (max_qval ms)
      (apply_adds G (fold_adds options n column (records ms))) d' /\
    same_axes d d' /\
    (forall r c,
       adds_total (fold_adds options n column (records ms)) r c
       = set_cell_count ms options r c).
Proof.
  intros (HR & HC & Hrec & Hbins & _) Hd. unfold set_cell_count.
  assert (Hcycle : forall b, b ∈ records ms -> valid_tile options b = true ->
                     1 <= cycle b).
  { intros b Hb Hv. destruct (Hrec b Hb Hv) as [? _]. lia. }
  destruct (is_compressed ms).
  - rewrite compressed_fold_columns
      by (intros q Hq; specialize (Hbins q Hq); lia).
    destruct (fold_columns_adds _ _ G (fun _ => length (bins ms))
                (bin_column (bins ms)) (records ms) options d Hd)
      as (d' & Hrun & Hd' & Hax).
    { intros b Hb Hv. destruct (Hrec b Hb Hv) as [Hc Hl].
      split; [exact Hc | ]. split; [exact Hl | ]. intros i Hi.
      unfold bin_column.
      destruct (lookup_lt_is_Some_2 (bins ms) i Hi) as [q Hq]. rewrite Hq.
      specialize (Hbins q (list_elem_of_lookup_2 _ _ _ Hq)). lia. }
    exists d', (fun _ => length (bins ms)), (bin_column (bins ms)).
    split; [exact Hrun | ]. split; [exact Hd' | ]. split; [exact Hax | ].
    intros r c. apply adds_total_fold. exact Hcycle.
  - rewrite uncompressed_fold_columns.
    destruct (fold_columns_adds _ _ G (fun b => length (qscore_hist b))
                (fun i => i) (records ms) options d Hd)
      as (d' & Hrun & Hd' & Hax).
    { intros b Hb Hv. destruct (Hrec b Hb Hv) as [Hc Hl].
      split; [exact Hc | ]. split; [lia | ]. intros i Hi. lia. }
    exists d', (fun b => length (qscore_hist b)), (fun i => i).
    split; [exact Hrun | ]. split; [exact Hd' | ]. split; [exact Hax | ].
    intros r c. rewrite adds_total_fold by exact Hcycle.
    apply cell_count_ext. intros b. apply column_total_identity.
Qed.

(** The three passes of [populate_heatmap] on the matrix: the additions
    of the fold, the rescaling by the maximum, and the bins spread out. *)
Lemma populate_heatmap_passes (ms : metric_set M) (options : Options)
    (data : heatmap_data) :
  heatmap_inputs_fit ms options ->
  exists d' G1 G3 n column,
    populate_heatmap ms options data = Ok d' /\
    represents (max_cycle ms) (max_qval ms) G3 d' /\
    same_axes data d' /\
    (forall r c,
       G1 r c
       = apply_adds
           (fun r c =>
              default F32.zero
                (cells (heatmap_resize (max_cycle ms) (max_qval ms) data)
                   !! (r * max_qval ms + c)))
           (fold_adds options n column (records ms)) r c) /\
    (forall r c,
       adds_total (fold_adds options n column (records ms)) r c
       = set_cell_count ms options r c) /\
    (forall r c, r < max_cycle ms ->
       G3 r c
       = F32.div (F32.mul (F32.of_Z 100) (G1 r (source_column (bins ms) c)))
           (fold_left F32.max
              (map (fun k => G1 (k / max_qval ms) (k mod max_qval ms))
                 (seq 0 (max_cycle ms * max_qval ms))) F32.zero)).
Proof.
  intros Hfit. pose proof Hfit as (HR & HC & Hrec & Hbins & Hdisj).
  destruct (resize_frame (max_cycle ms) (max_qval ms) data)
    as (HR0 & HC0 & Hwf0 & Hax0).
  pose proof (well_formed_represents _ Hwf0) as Hd0.
  rewrite HR0, HC0 in Hd0.
  destruct (populate_fold_adds ms options _ _ Hfit Hd0)
    as (d1 & n & column & Hrun1 & Hd1 & Hax1 & Htotal).
  pose proof (represents_well_formed _ _ _ _ Hd1) as Hwf1.
  pose proof (normalize_heatmap_cells d1 Hwf1) as Hrun2.
  set (top := fold_left F32.max
                (map (fun k => apply_adds
                                 (fun r c =>
                                    default F32.zero
                                      (cells (heatmap_resize (max_cycle ms)
                                                (max_qval ms) data)
                                         !! (r * max_qval ms + c)))
                                 (fold_adds options n column (records ms))
                                 (k / max_qval ms) (k mod max_qval ms))
                   (seq 0 (max_cycle ms * max_qval ms))) F32.zero).
  assert (Htop : fold_left F32.max (cells d1) F32.zero = top).
  { unfold top. rewrite <- (represents_cells _ _ _ _ Hd1). reflexivity. }
  rewrite Htop in Hrun2.
  pose proof (represents_map _ _ _
                (fun x => F32.div (F32.mul (F32.of_Z 100) x) top)
                d1 Hd1) as Hd2.
  destruct (remap_to_bins_grid _ _ _ (bins ms) (max_cycle ms) _ Hd2
              (Nat.le_refl _) Hbins Hdisj)
    as (d3 & G3 & Hrun3 & Hd3 & Hcov & Hrest).
  destruct (remap_to_bins_frame _ _ _ _ Hrun3) as (Hax3 & _ & _).
  exists d3. eexists. exists G3, n, column.
  split.
  { unfold populate_heatmap. cbv zeta.
    rewrite HR0, HC0.
    rewrite (proj2 (Nat.ltb_lt 0 (max_cycle ms)) HR).
    rewrite (proj2 (Nat.ltb_lt 0 (max_qval ms)) HC).
    cbn [interop_assert bind]. rewrite Hrun1. cbn [bind].
    rewrite Hrun2. cbn [bind]. exact Hrun3. }
  split; [exact Hd3 | ].
  split.
  { eapply same_axes_trans; [exact Hax0 | ].
    eapply same_axes_trans; [exact Hax1 | ].
    eapply same_axes_trans; [apply same_axes_with_cells | exact Hax3]. }
  split; [intros r c; reflexivity | ].
  split; [exact Htotal | ].
  intros r c Hr. fold top.
  unfold source_column. pose proof (find_covers (bins ms) c) as Hfind.
  destruct (find _ (bins ms)) as [q|].
  - destruct Hfind as [Hq Hqc]. apply (Hcov q r c Hq Hr Hqc).
  - apply Hrest. right. exact Hfind.
Qed.

(** X16: for a set whose cycles, histograms and bins fit,
    [populate_heatmap] returns a well-formed grid of [max_cycle] rows
    and [max_qval] columns, whatever size the heat map had before, and
    leaves the axes and the title of the heat map as they were. *)
Theorem populate_heatmap_dimensions (ms : metric_set M) (options : Options)
    (data : heatmap_data) :
  heatmap_inputs_fit ms options ->
  exists d',
    populate_heatmap ms options data = Ok d' /\
    row_count d' = max_cycle ms /\ column_count d' = max_qval ms /\
    well_formed d' /\ same_axes data d'.
Proof.
  intros Hfit.
  destruct (populate_heatmap_passes ms options data Hfit)
    as (d' & G1 & G3 & n & column & Hrun & Hd' & Hax & _).
  exists d'. split; [exact Hrun | ].
  pose proof Hd' as (HR & HC & _ & _).
  split; [exact HR | ]. split; [exact HC | ].
  split; [eapply represents_well_formed; exact Hd' | exact Hax].
Qed.

End PopulateHeatmapFacts.

Section PopulateHeatmapCells.

Context {M Options : Type}.
Context `{!QRecord M, !TileFilter Options M, !QSetHelpers M}.

Lemma cleared_resize_zero (rows cols : nat) (data : heatmap_data) (k : nat) :
  default F32.zero
    (cells (heatmap_resize rows cols (heatmap_clear data)) !! k)
  = F32.of_N 0.
Proof.
  cbn [heatmap_resize heatmap_clear cells]. rewrite resize_nil.
  destruct (replicate (rows * cols) F32.zero !! k) as [x|] eqn:Hx;
    cbn [default from_option id]; [ | reflexivity].
  apply lookup_replicate in Hx as [-> _]. reflexivity.
Qed.

(** The heat map [populate_heatmap] builds on a cleared heat map, cell
    by cell, while every count is at most 2^24. *)
Lemma populate_heatmap_formula (ms : metric_set M) (options : Options)
    (data : heatmap_data) :
  heatmap_inputs_fit ms options ->
  (forall r c, (set_cell_count ms options r c <= 2 ^ 24)%N) ->
  exists d' top,
    populate_heatmap ms options (heatmap_clear data) = Ok d' /\
    row_count d' = max_cycle ms /\ column_count d' = max_qval ms /\
    (forall r c, r < max_cycle ms -> c < max_qval ms ->
       (set_cell_count ms options r c <= top)%N) /\
    (exists r c, r < max_cycle ms /\ c < max_qval ms /\
       set_cell_count ms options r c = top) /\
    (forall r c, r < max_cycle ms -> c < max_qval ms ->
       heatmap_at d' (Some r) (Some c)
       = Ok (F32.div
               (F32.mul (F32.of_Z 100)
                  (F32.of_N
                     (set_cell_count ms options r
                        (source_column (bins ms) c))))
               (F32.of_N top))).
Proof.
  intros Hfit Hbound. pose proof Hfit as (HR & HC & _).
  destruct (populate_heatmap_passes ms options (heatmap_clear data) Hfit)
    as (d' & G1 & G3 & n & column & Hrun & Hd' & _ & HG1 & Htotal & HG3).
  assert (Hcount : forall r c,
            G1 r c = F32.of_N (set_cell_count ms options r c)).
  { intros r c. rewrite HG1.
    rewrite (apply_adds_ext _ (fun _ _ => F32.of_N 0)
               (fold_adds options n column (records ms)))
      by (intros r1 c1; apply cleared_resize_zero).
    rewrite (apply_adds_counts (fun _ _ => 0%N)).
    - rewrite Htotal, N.add_0_l. reflexivity.
    - intros r1 c1. rewrite Htotal, N.add_0_l. apply Hbound. }
  destruct (grid_top (max_cycle ms) (max_qval ms)
              (set_cell_count ms options) HR HC)
    as (top & Htop & Hupper & Hattained).
  exists d', top. split; [exact Hrun | ].
  pose proof Hd' as (HR' & HC' & _ & _).
  split; [exact HR' | ]. split; [exact HC' | ].
  split; [exact Hupper | ]. split; [exact Hattained | ].
  intros r c Hr Hc.
  rewrite (heatmap_at_represents _ _ _ _ r c Hd' Hr Hc).
  rewrite (HG3 r c Hr), Hcount. do 2 f_equal.
  rewrite Htop.
  rewrite <- (fold_max_counts _ 0).
  2: { apply N.le_0_l. }
  2: { intros x Hx. apply list_elem_of_fmap in Hx as (k & -> & _).
       apply Hbound. }
  rewrite map_map. f_equal. apply map_ext. intros k. apply Hcount.
Qed.

(** X17: on a cleared heat map and with every cell count at most 2^24,
    [populate_heatmap] leaves in cell [(r, c)] 100 times the count of
    the cell, divided by the largest count of the grid, both roundings
    in binary32; for a column inside a bin the count is that of the
    column [value - 1] of the bin. When the counts are at most 671088
    and not all zero, every cell lies in [0, 100] and a cell whose count
    is the largest holds exactly 100. *)
Theorem populate_heatmap_cells (ms : metric_set M) (options : Options)
    (data : heatmap_data) :
  heatmap_inputs_fit ms options ->
  (forall r c, (set_cell_count ms options r c <= 2 ^ 24)%N) ->
  exists d' top,
    populate_heatmap ms options (heatmap_clear data) = Ok d' /\
    (forall r c, r < max_cycle ms -> c < max_qval ms ->
       (set_cell_count ms options r c <= top)%N) /\
    (exists r c, r < max_cycle ms /\ c < max_qval ms /\
       set_cell_count ms options r c = top) /\
    (forall r c, r < max_cycle ms -> c < max_qval ms ->
       heatmap_at d' (Some r) (Some c)
       = Ok (F32.div
               (F32.mul (F32.of_Z 100)
                  (F32.of_N
                     (set_cell_count ms options r
                        (source_column (bins ms) c))))
               (F32.of_N top))) /\
    ((forall r c, (set_cell_count ms options r c <= max_exact_count)%N) ->
     (0 < top)%N ->
     forall r c, r < max_cycle ms -> c < max_qval ms ->
       exists y,
         heatmap_at d' (Some r) (Some c) = Ok y /\
         F32.leb F32.zero y = true /\ F32.leb y (F32.of_Z 100) = true /\
         (set_cell_count ms options r (source_column (bins ms) c) = top ->
          y = F32.of_Z 100)).
Proof.
  intros Hfit Hbound.
  destruct (populate_heatmap_formula ms options data Hfit Hbound)
    as (d' & top & Hrun & _ & _ & Hupper & Hattained & Hcells).
  exists d', top. split; [exact Hrun | ]. split; [exact Hupper | ].
  split; [exact Hattained | ]. split; [exact Hcells | ].
  intros Hexact Htop r c Hr Hc. eexists. split; [apply Hcells; assumption | ].
  pose proof Hfit as (_ & _ & _ & Hbins & _).
  assert (Hsrc : source_column (bins ms) c < max_qval ms).
  { unfold source_column. pose proof (find_covers (bins ms) c) as Hfind.
    destruct (find _ (bins ms)) as [q|]; [ | exact Hc].
    destruct Hfind as [Hq _]. specialize (Hbins q Hq). lia. }
  destruct Hattained as (r0 & c0 & _ & _ & Hr0).
  destruct (rescale_counts
              (set_cell_count ms options r (source_column (bins ms) c)) top)
    as (Hhundred & Hlow & Hhigh).
  - exact Htop.
  - apply Hupper; assumption.
  - rewrite <- Hr0. apply Hexact.
  - split; [exact Hlow | ]. split; [exact Hhigh | exact Hhundred].
Qed.

(** X18: when the filter lets no record of the set pass,
    [populate_heatmap] on a cleared heat map returns a grid of
    [max_cycle] rows and [max_qval] columns whose cells are all NaN, not
    zero. *)
Theorem populate_heatmap_none_pass (ms : metric_set M) (options : Options)
    (data : heatmap_data) :
  heatmap_inputs_fit ms options ->
  (forall b, b ∈ records ms -> valid_tile options b = false) ->
  exists d',
    populate_heatmap ms options (heatmap_clear data) = Ok d' /\
    row_count d' = max_cycle ms /\ column_count d' = max_qval ms /\
    forall r c, r < max_cycle ms -> c < max_qval ms ->
      heatmap_at d' (Some r) (Some c) = Ok S754_nan.
Proof.
  intros Hfit Hnone.
  assert (Hzero : forall r c, set_cell_count ms options r c = 0%N).
  { intros r c. unfold set_cell_count, cell_count.
    assert (Hfilter : forall r,
              filter (fun b => valid_tile options b = true /\ cycle b = S r)
                (records ms) = []).
    { intros r1. induction (records ms) as [|b rs IH]; [reflexivity | ].
      rewrite filter_cons. case_decide as Hd.
      - destruct Hd as [Hv _].
        rewrite (Hnone b) in Hv by apply list_elem_of_here. discriminate.
      - apply IH. intros b' Hb'. apply Hnone.
        apply list_elem_of_further. exact Hb'. }
    rewrite Hfilter. destruct (is_compressed ms); reflexivity. }
  destruct (populate_heatmap_formula ms options data Hfit)
    as (d' & top & Hrun & HR & HC & _ & Hattained & Hcells).
  { intros r c. rewrite Hzero. apply N.le_0_l. }
  exists d'. split; [exact Hrun | ]. split; [exact HR | ].
  split; [exact HC | ].
  intros r c Hr Hc. rewrite (Hcells r c Hr Hc), Hzero.
  destruct Hattained as (r0 & c0 & _ & _ & Htop).
  rewrite Hzero in Htop. rewrite <- Htop. reflexivity.
Qed.

End PopulateHeatmapCells.

(** ** The heat map [plot_qscore_heatmap] returns *)

Section PlotQScoreHeatmapGrid.

Context {TM QM QLM Options : Type}.
Context `{!QRecord QM, !QRecord QLM, !FilterOptions Options,
          !TileFilter Options QM, !TileFilter Options QLM,
          !QSetHelpers QM, !QSetHelpers QLM, !QByLane QM QLM}.

Implicit Types (metrics : run_metrics TM QM QLM) (options : Options)
  (data : heatmap_data).

Lemma decorate_heatmap_grid metrics options (grid : heatmap_data) :
  let d := decorate_heatmap metrics options grid in
  row_count d = row_count grid /\ column_count d = column_count grid /\
  cells d = cells grid /\
  heat_x_range d = (F32.of_Z 0, F32.of_nat (row_count grid)) /\
  heat_y_range d = (F32.of_Z 0, F32.of_nat (column_count grid)) /\
  heat_x_label d = "Cycle"%string /\ heat_y_label d = "Q Score"%string.
Proof. cbv zeta. repeat split. Qed.

(** X19: when the set it selects is not empty and fits,
    [plot_qscore_heatmap] returns the grid [populate_heatmap] builds
    from that set on a cleared heat map, with the x-range from 0 to the
    number of cycles, the y-range from 0 to the number of scores, and
    the labels Cycle and Q Score; the set is the q-metric set under a
    surface selector and otherwise the by-lane set the call leaves in
    the run metrics. *)
Theorem plot_qscore_heatmap_axes metrics options data :
  (is_specific_surface options = true ->
   set_size (q_metrics metrics) <> 0 ->
   heatmap_inputs_fit (q_metrics metrics) options ->
   exists grid d,
     populate_heatmap (q_metrics metrics) options (heatmap_clear data)
       = Ok grid /\
     snd (plot_qscore_heatmap metrics options data) = Ok d /\
     cells d = cells grid /\
     row_count d = max_cycle (q_metrics metrics) /\
     column_count d = max_qval (q_metrics metrics) /\
     heat_x_range d
     = (F32.of_Z 0, F32.of_nat (max_cycle (q_metrics metrics))) /\
     heat_y_range d
     = (F32.of_Z 0, F32.of_nat (max_qval (q_metrics metrics))) /\
     heat_x_label d = "Cycle"%string /\ heat_y_label d = "Q Score"%string)
  /\
  (is_specific_surface options = false ->
   forall by_lane,
     by_lane = q_by_lane_metrics
                 (fst (plot_qscore_heatmap metrics options data)) ->
     set_size by_lane <> 0 ->
     heatmap_inputs_fit by_lane options ->
     exists grid d,
       populate_heatmap by_lane options (heatmap_clear data) = Ok grid /\
       snd (plot_qscore_heatmap metrics options data) = Ok d /\
       cells d = cells grid /\
       row_count d = max_cycle by_lane /\
       column_count d = max_qval by_lane /\
       heat_x_range d = (F32.of_Z 0, F32.of_nat (max_cycle by_lane)) /\
       heat_y_range d = (F32.of_Z 0, F32.of_nat (max_qval by_lane)) /\
       heat_x_label d = "Cycle"%string /\ heat_y_label d = "Q Score"%string).
Proof.
  split.
  - intros Hsurface Hsize Hfit.
    destruct (populate_heatmap_passes (q_metrics metrics) options
                (heatmap_clear data) Hfit)
      as (grid & G1 & G3 & n & column & Hrun & (HR & HC & _ & _) & _).
    exists grid. eexists. split; [exact Hrun | ].
    unfold plot_qscore_heatmap. rewrite Hsurface.
    rewrite (proj2 (Nat.eqb_neq _ _) Hsize). cbn [snd].
    rewrite Hrun. cbn [bind]. split; [reflexivity | ].
    destruct (decorate_heatmap_grid metrics options grid)
      as (H1 & H2 & H3 & H4 & H5 & H6 & H7).
    rewrite H1, H2, H4, H5, HR, HC. repeat split; assumption.
  - intros Hsurface by_lane -> Hsize Hfit.
    destruct (populate_heatmap_passes _ options (heatmap_clear data) Hfit)
      as (grid & G1 & G3 & n & column & Hrun & (HR & HC & _ & _) & _).
    exists grid. eexists. split; [exact Hrun | ].
    revert Hsize Hrun HR HC.
    unfold plot_qscore_heatmap. rewrite Hsurface. cbv zeta.
    match goal with
    | |- context [q_by_lane_metrics (fst (if ?c then _ else _))] =>
        set (metrics' := if 0 =? set_size (q_by_lane_metrics metrics)
                         then derive_q_by_lane metrics else metrics)
    end.
    intros Hsize Hrun HR HC.
    destruct (Nat.eqb_spec (set_size (q_by_lane_metrics metrics')) 0)
      as [Hz|Hnz]; cbn [fst snd] in *; [contradiction | ].
    rewrite Hrun. cbn [bind]. split; [reflexivity | ]. fold metrics'.
    destruct (decorate_heatmap_grid metrics' options grid)
      as (H1 & H2 & H3 & H4 & H5 & H6 & H7).
    rewrite H1, H2, H4, H5, HR, HC. repeat split; assumption.
Qed.

End PlotQScoreHeatmapGrid.

(** ** [read_run_metrics] *)

Section ReadRunMetricsFacts.

Context {Run Ex : Type} `{!RunReader Run Ex}.

Local Open Scope Z_scope.

(** X20: [read_run_metrics] leaves the run metrics as [read] left
    them. It returns 0 exactly when [read] threw nothing and the run
    metrics are not empty, and then writes nothing to [std::cerr]; every
    other code it returns lies between 2 and 6 (never
    [INVALID_ARGUMENTS]) and comes with exactly one line on
    [std::cerr]; an exception that is not a [std::exception] leaves the
    function, with nothing written. *)
Theorem read_run_metrics_success (filename : string) (metrics : Run) :
  let result := read_run_metrics filename metrics in
  let code := snd result in
  let lines := snd (fst result) in
  fst (fst result) = fst (read_run filename metrics) /\
  (code = Returns 0 <->
   snd (read_run filename metrics) = None /\
   run_empty (fst (read_run filename metrics)) = false) /\
  (code = Returns 0 -> lines = []) /\
  (forall n, code = Returns n ->
     n <> 0 -> 2 <= n <= 6 /\ exists line, lines = [line]) /\
  (forall ex, code = Throws ex ->
     snd (read_run filename metrics) = Some ex /\
     is_std_exception ex = false /\ lines = []).
Proof.
  cbv zeta. unfold read_run_metrics, report.
  destruct (read_run filename metrics) as [metrics' [ex|]]; cbn [fst snd].
  - destruct (is_index_out_of_bounds_exception ex);
      destruct (is_xml_file_not_found_exception ex);
      destruct (is_xml_parse_exception ex);
      destruct (is_bad_format_exception ex);
      destruct (is_std_exception ex) eqn:Hstd;
      cbn [fst snd exit_code_value];
      (split; [reflexivity | ]);
      (split; [split; [intros H; discriminate H
                      | intros [H _]; discriminate H] | ]);
      (split; [intros H; discriminate H | ]);
      first
        [ split;
          [ intros n Hn _; injection Hn as <-;
            split; [lia | eexists; reflexivity]
          | intros ex' Hex; discriminate Hex ]
        | split;
          [ intros n Hn; discriminate Hn
          | intros ex' Hex; injection Hex as <-;
            split; [reflexivity | split; [exact Hstd | reflexivity]] ] ].
  - destruct (run_empty metrics') eqn:Hempty; cbn [fst snd exit_code_value];
      (split; [reflexivity | ]).
    + split; [split; [intros H; discriminate H
                     | intros [_ H]; discriminate H] | ].
      split; [intros H; discriminate H | ].
      split; [ | intros ex' Hex; discriminate Hex].
      intros n Hn _. injection Hn as <-.
      split; [lia | eexists; reflexivity].
    + split; [split; [intros _; split; reflexivity | reflexivity] | ].
      split; [reflexivity | ].
      split; [ | intros ex' Hex; discriminate Hex].
      intros n Hn Hne. injection Hn as <-. contradiction.
Qed.

(** X21: the handlers of [read_run_metrics] are tried in the order
    they are written: an exception the index-out-of-bounds handler
    catches gives [UNEXPECTED_EXCEPTION] whatever else it is, then a
    missing XML file gives [MISSING_RUNINFO_XML], a parse error
    [MALFORMED_XML], a bad format [BAD_FORMAT], and any other
    [std::exception] [UNEXPECTED_EXCEPTION]; each caught exception
    writes its [what()] as the one line on [std::cerr]. *)
Theorem read_run_metrics_handlers (filename : string) (metrics : Run)
    (ex : Ex) :
  snd (read_run filename metrics) = Some ex ->
  let result := read_run_metrics filename metrics in
  let code := snd result in
  (is_index_out_of_bounds_exception ex = true ->
   code = Returns (exit_code_value UNEXPECTED_EXCEPTION)) /\
  (is_index_out_of_bounds_exception ex = false ->
   is_xml_file_not_found_exception ex = true ->
   code = Returns (exit_code_value MISSING_RUNINFO_XML)) /\
  (is_index_out_of_bounds_exception ex = false ->
   is_xml_file_not_found_exception ex = false ->
   is_xml_parse_exception ex = true ->
   code = Returns (exit_code_value MALFORMED_XML)) /\
  (is_index_out_of_bounds_exception ex = false ->
   is_xml_file_not_found_exception ex = false ->
   is_xml_parse_exception ex = false ->
   is_bad_format_exception ex = true ->
   code = Returns (exit_code_value BAD_FORMAT)) /\
  (is_index_out_of_bounds_exception ex = false ->
   is_xml_file_not_found_exception ex = false ->
   is_xml_parse_exception ex = false ->
   is_bad_format_exception ex = false ->
   is_std_exception ex = true ->
   code = Returns (exit_code_value UNEXPECTED_EXCEPTION)) /\
  (is_index_out_of_bounds_exception ex = true \/
   is_xml_file_not_found_exception ex = true \/
   is_xml_parse_exception ex = true \/
   is_bad_format_exception ex = true \/
   is_std_exception ex = true ->
   snd (fst result) = [what ex]).
Proof.
  intros Hthrown. cbv zeta. unfold read_run_metrics, report.
  destruct (read_run filename metrics) as [metrics' thrown].
  cbn [snd] in Hthrown. subst thrown.
  destruct (is_index_out_of_bounds_exception ex);
    destruct (is_xml_file_not_found_exception ex);
    destruct (is_xml_parse_exception ex);
    destruct (is_bad_format_exception ex);
    destruct (is_std_exception ex);
    cbn [fst snd]; repeat split; try reflexivity; try discriminate;
    intros [H|[H|[H|[H|H]]]]; discriminate H.
Qed.

End ReadRunMetricsFacts.

(** ** Accesses outside the heat map *)

Lemma for_range_failure {S : Type} (count start : nat)
    (body : nat -> S -> result S) (s : S) (e : error) :
  (forall i s e, body i s = Err e -> e = IndexOutOfBounds) ->
  for_range count start body s = Err e -> e = IndexOutOfBounds.
Proof.
  intros Hbody. revert start s.
  induction count as [|count IH]; intros start s; cbn [for_range];
    [discriminate | ].
  destruct (body start s) as [s'|e'] eqn:Hstep; cbn [bind].
  - apply IH.
  - intros [= <-]. eapply Hbody. exact Hstep.
Qed.

Lemma for_each_failure {A S : Type} (l : list A)
    (body : A -> S -> result S) (s : S) (e : error) :
  (forall a s e, body a s = Err e -> e = IndexOutOfBounds) ->
  for_each l body s = Err e -> e = IndexOutOfBounds.
Proof.
  intros Hbody. revert s.
  induction l as [|a l IH]; intros s; cbn [for_each]; [discriminate | ].
  destruct (body a s) as [s'|e'] eqn:Hstep; cbn [bind].
  - apply IH.
  - intros [= <-]. eapply Hbody. exact Hstep.
Qed.

(** A loop fails as soon as one of its items fails on every state the
    loop can be in. *)
Lemma for_each_fails_at {A S : Type} (P : S -> Prop) (l : list A)
    (body : A -> S -> result S) (a : A) (s : S) :
  a ∈ l -> P s ->
  (forall s, P s -> body a s = Err IndexOutOfBounds) ->
  (forall a' s s', body a' s = Ok s' -> P s -> P s') ->
  (forall a' s e, body a' s = Err e -> e = IndexOutOfBounds) ->
  for_each l body s = Err IndexOutOfBounds.
Proof.
  intros Ha Hs Hfail Hkeep Herr. revert s Hs.
  induction l as [|a' l IH]; intros s Hs; [inversion Ha | ].
  cbn [for_each].
  destruct (body a' s) as [s'|e] eqn:Hstep; cbn [bind].
  - apply elem_of_cons in Ha as [->|Ha].
    + rewrite (Hfail s Hs) in Hstep. discriminate.
    + apply IH; [exact Ha | eapply Hkeep; eassumption].
  - rewrite (Herr a' s e Hstep). reflexivity.
Qed.

Lemma at_index_failure {A : Type} (v : list A) (i : nat) (e : error) :
  at_index v i = Err e -> e = IndexOutOfBounds.
Proof. unfold at_index. destruct (v !! i); [discriminate | congruence]. Qed.

Lemma index_of_failure (d : heatmap_data) (row col : option nat) (e : error) :
  index_of d row col = Err e -> e = IndexOutOfBounds.
Proof.
  unfold index_of. destruct row as [r|], col as [c|]; try congruence.
  destruct ((r <? row_count d) && (c <? column_count d)); congruence.
Qed.

Lemma heatmap_at_failure (d : heatmap_data) (row col : option nat)
    (e : error) :
  heatmap_at d row col = Err e -> e = IndexOutOfBounds.
Proof.
  unfold heatmap_at.
  destruct (index_of d row col) as [i|e'] eqn:Hi; cbn [bind].
  - apply at_index_failure.
  - intros [= <-]. eapply index_of_failure. exact Hi.
Qed.

Lemma heatmap_set_failure (d : heatmap_data) (row col : option nat)
    (v : float32) (e : error) :
  heatmap_set d row col v = Err e -> e = IndexOutOfBounds.
Proof.
  unfold heatmap_set.
  destruct (index_of d row col) as [i|e'] eqn:Hi; cbn [bind].
  - destruct (at_index (cells d) i) as [old|e'] eqn:Hold; cbn [bind];
      [discriminate | ].
    intros [= <-]. eapply at_index_failure. exact Hold.
  - intros [= <-]. eapply index_of_failure. exact Hi.
Qed.

Lemma heatmap_at_no_row (d : heatmap_data) (x : nat) (col : option nat) :
  x = 0 \/ row_count d < x ->
  heatmap_at d (pred_index x) col = Err IndexOutOfBounds.
Proof.
  intros Hx. unfold heatmap_at, index_of.
  destruct x as [|r]; [reflexivity | ]. cbn [pred_index].
  destruct col as [c|]; [ | reflexivity].
  destruct (Nat.ltb_spec r (row_count d)); [lia | reflexivity].
Qed.

Section FoldOutOfRange.

Context {M Options : Type}.
Context `{!QRecord M, !TileFilter Options M}.

Lemma add_count_failure (b : M) (bin : nat) (col : option nat)
    (d : heatmap_data) (e : error) :
  add_count b bin col d = Err e -> e = IndexOutOfBounds.
Proof.
  unfold add_count.
  destruct (at_index (qscore_hist b) bin) as [h|e'] eqn:Hh; cbn [bind].
  - destruct (heatmap_at d (pred_index (cycle b)) col) as [old|e'] eqn:Hold;
      cbn [bind].
    + apply heatmap_set_failure.
    + intros [= <-]. eapply heatmap_at_failure. exact Hold.
  - intros [= <-]. eapply at_index_failure. exact Hh.
Qed.

Lemma add_count_rows (b : M) (bin : nat) (col : option nat)
    (d d' : heatmap_data) :
  add_count b bin col d = Ok d' -> row_count d' = row_count d.
Proof.
  unfold add_count.
  destruct (at_index (qscore_hist b) bin) as [h|e']; [ | discriminate].
  cbn [bind].
  destruct (heatmap_at d (pred_index (cycle b)) col) as [old|e'];
    [ | discriminate].
  cbn [bind]. intros Hset. apply heatmap_set_frame in Hset as (_ & HR & _).
  exact HR.
Qed.

Lemma add_count_no_row (b : M) (bin : nat) (col : option nat)
    (d : heatmap_data) :
  cycle b = 0 \/ row_count d < cycle b ->
  add_count b bin col d = Err IndexOutOfBounds.
Proof.
  intros Hout. unfold add_count.
  destruct (at_index (qscore_hist b) bin) as [h|e'] eqn:Hh; cbn [bind].
  - rewrite heatmap_at_no_row by exact Hout. reflexivity.
  - rewrite (at_index_failure _ _ _ Hh). reflexivity.
Qed.

(** X11: the folds index the row [cycle - 1] unchecked: a passing
    record whose cycle is 0 or greater than the number of rows makes the
    compressed fold (over at least one bin) and the uncompressed fold
    (when the record has a histogram entry) end in an out-of-bounds
    failure. *)
Theorem heatmap_fold_out_of_range (rs : list M) (bins : list q_score_bin)
    (options : Options) (data : heatmap_data) (b : M) :
  b ∈ rs -> valid_tile options b = true ->
  cycle b = 0 \/ row_count data < cycle b ->
  (bins <> [] ->
   populate_heatmap_from_compressed rs bins options data
   = Err IndexOutOfBounds) /\
  (qscore_hist b <> [] ->
   populate_heatmap_from_uncompressed rs options data
   = Err IndexOutOfBounds).
Proof.
  intros Hb Hvalid Hout. split.
  - intros Hbins. unfold populate_heatmap_from_compressed.
    apply (for_each_fails_at
             (fun s => cycle b = 0 \/ row_count s < cycle b) rs _ b data Hb Hout).
    + intros s Hs. rewrite Hvalid. cbn [negb].
      destruct bins as [|q bins]; [contradiction | ].
      cbn [length for_range at_index lookup list_lookup bind].
      rewrite add_count_no_row by exact Hs. reflexivity.
    + intros a s s' Hstep Hs.
      destruct (negb (valid_tile options a)); [congruence | ].
      assert (Hrows : row_count s' = row_count s).
      { refine (for_range_preserved
                  (fun d d' => row_count d' = row_count d)
                  _ _ _ s s' _ _ _ Hstep); try congruence.
        intros i s1 s1'.
        destruct (at_index bins i) as [q|e]; [ | discriminate].
        cbn [bind]. apply add_count_rows. }
      rewrite Hrows. exact Hs.
    + intros a s e.
      destruct (negb (valid_tile options a)); [discriminate | ].
      apply for_range_failure. intros i s1 e1.
      destruct (at_index bins i) as [q|e'] eqn:Hq; cbn [bind].
      * apply add_count_failure.
      * intros [= <-]. eapply at_index_failure. exact Hq.
  - intros Hhist. unfold populate_heatmap_from_uncompressed.
    apply (for_each_fails_at
             (fun s => cycle b = 0 \/ row_count s < cycle b) rs _ b data Hb Hout).
    + intros s Hs. rewrite Hvalid. cbn [negb].
      destruct (qscore_hist b) as [|h hist] eqn:Hh; [contradiction | ].
      cbn [length for_range].
      rewrite add_count_no_row by exact Hs. reflexivity.
    + intros a s s' Hstep Hs.
      destruct (negb (valid_tile options a)); [congruence | ].
      assert (Hrows : row_count s' = row_count s).
      { refine (for_range_preserved
                  (fun d d' => row_count d' = row_count d)
                  _ _ _ s s' _ _ _ Hstep); try congruence.
        intros i s1 s1'. apply add_count_rows. }
      rewrite Hrows. exact Hs.
    + intros a s e.
      destruct (negb (valid_tile options a)); [discriminate | ].
      apply for_range_failure. intros i s1 e1. apply add_count_failure.
Qed.

End FoldOutOfRange.

(** X15: [remap_to_bins] reads column [value - 1] unchecked: a bin
    whose value is 0 and whose range of columns is not empty makes the
    call on at least one cycle end in an out-of-bounds failure. *)
Theorem remap_to_bins_zero_value (bins : list q_score_bin) (max_cycle : nat)
    (data : heatmap_data) (q : q_score_bin) :
  q ∈ bins -> value q = 0 -> lower q - 1 < upper q -> 0 < max_cycle ->
  remap_to_bins bins max_cycle data = Err IndexOutOfBounds.
Proof.
  intros Hq Hvalue Hrange Hcycle. unfold remap_to_bins.
  apply (for_each_fails_at (fun _ => True) bins _ q data Hq I).
  - intros s _. rewrite first_column_eq.
    destruct (upper q - (lower q - 1)) as [|count] eqn:Hcount; [lia | ].
    cbn [for_range].
    destruct max_cycle as [|cycles]; [lia | ].
    cbn [for_range]. rewrite Hvalue. reflexivity.
  - intros a s s' _ _. exact I.
  - intros a s e. apply for_range_failure. intros bin s1 e1.
    apply for_range_failure. intros cyc s2 e2.
    destruct (heatmap_at s2 (Some cyc) (pred_index (value a))) as [x|e']
      eqn:Hx; cbn [bind].
    + apply heatmap_set_failure.
    + intros [= <-]. eapply heatmap_at_failure. exact Hx.
Qed.

(** * The further properties on sample inputs *)

Section FurtherSamples.

#[local] Existing Instance Sample.tile_record.
#[local] Existing Instance Sample.q_record.
#[local] Existing Instance Sample.filter_options.
#[local] Existing Instance Sample.pass_all.
#[local] Existing Instance Sample.candle_point.
#[local] Existing Instance Sample.helpers.
#[local] Existing Instance Sample.q_set_helpers.
#[local] Existing Instance Sample.q_by_lane.
#[local] Existing Instance Cases.reader.

Ltac in_case H :=
  repeat (apply elem_of_cons in H as [->|H]); [ .. | inversion H].

Ltac apart_bins :=
  let i := fresh "i" in let j := fresh "j" in
  let qi := fresh "qi" in let qj := fresh "qj" in
  let c := fresh "c" in
  let Hij := fresh "Hij" in let Hi := fresh "Hi" in let Hj := fresh "Hj" in
  intros i j qi qj c Hij Hi Hj;
  destruct i as [|[|i]]; destruct j as [|[|j]]; try lia;
  cbn in Hi, Hj; try discriminate;
  injection Hi as <-; injection Hj as <-; unfold covers; cbn; lia.

(** Two lanes: the stick of lane 1 and then the stick of lane 2, each on
    a default point. *)
Lemma populate_candle_stick_by_lane_fold_witness :
  populate_candle_stick_by_lane (metric_value 1) Sample.tiles
    Sample.all_lanes Density []
  = Ok [ (F32.of_nat 1, [F32.of_Z 100; F32.of_Z 120]);
         (F32.of_nat 2, [F32.of_Z 200]) ].
Proof.
  rewrite (populate_candle_stick_by_lane_fold (metric_value 1)
             Sample.all_lanes Density Sample.tiles []).
  - reflexivity.
  - intros b Hb _. in_case Hb; cbn; lia.
Defined.

(** The same tiles with the lanes interleaved in another order and a
    tile without a value in between give the same points. *)
Lemma populate_candle_stick_by_lane_lane_values_witness :
  populate_candle_stick_by_lane (metric_value 1) Sample.tiles
    Sample.all_lanes Density []
  = populate_candle_stick_by_lane (metric_value 1) Cases.tiles_reordered
      Sample.all_lanes Density [].
Proof.
  apply (populate_candle_stick_by_lane_lane_values (metric_value 1)
           Sample.all_lanes Density Sample.tiles Cases.tiles_reordered []).
  - reflexivity.
  - intros b Hb _. in_case Hb; cbn; lia.
  - intros b Hb _. in_case Hb; cbn; lia.
  - intros l Hl. cbn in Hl.
    destruct l as [|[|[|l]]]; try lia; reflexivity.
Defined.

(** Cluster counts: a blue series for the metric and a green one for
    its PF counterpart. *)
Lemma plot_by_lane_series_witness :
  exists d pts pf,
    plot_by_lane (Sample.run "FC1" Sample.no_q) ClusterCount
      Sample.all_lanes Sample.empty_plot = Ok d /\
    data_series d
    = [ {| series_title := to_description ClusterCount;
           series_color := "Blue"; series_points := pts |};
        {| series_title := "PF"; series_color := "DarkGreen";
           series_points := pf |} ].
Proof.
  destruct (plot_by_lane_series (Sample.run "FC1" Sample.no_q) ClusterCount
              Sample.all_lanes Sample.empty_plot)
    as (d & pts & Hrun & _ & Hpf & _).
  - intros b Hb. in_case Hb; cbn; lia.
  - destruct (Hpf (or_introl eq_refl)) as (pf & _ & Hseries).
    exists d, pts, pf. split; [exact Hrun | exact Hseries].
Defined.

Lemma plot_by_lane_axes_witness :
  exists d,
    plot_by_lane (Sample.run "FC1" Sample.no_q) Density
      Sample.all_lanes Sample.empty_plot = Ok d /\
    x_label d = "Lane"%string /\ y_label d = "Metric"%string /\
    x_range d = (F32.of_Z 0, F32.of_Z 1).
Proof.
  destruct (plot_by_lane_axes (Sample.run "FC1" Sample.no_q) Density
              Sample.all_lanes Sample.empty_plot)
    as (d & Hrun & Hx & Hy & Hrange & _).
  - intros b Hb. in_case Hb; cbn; lia.
  - exists d. split; [exact Hrun | ]. split; [exact Hx | ].
    split; [exact Hy | ]. rewrite Hrange. reflexivity.
Defined.

(** A flowcell with two surfaces under a surface selector: the barcode
    and the surface description. *)
Lemma plot_by_lane_title_witness :
  exists d,
    plot_by_lane (Sample.run "FC1" Sample.no_q) Density
      Cases.surface_1 Sample.empty_plot = Ok d /\
    title d = "FC1 Surface 1"%string.
Proof.
  destruct (plot_by_lane_title (Sample.run "FC1" Sample.no_q) Density
              Cases.surface_1 Sample.empty_plot)
    as (d & Hrun & Htitle).
  - intros b Hb. in_case Hb; cbn; lia.
  - discriminate.
  - intros _. discriminate.
  - exists d. split; [exact Hrun | ]. rewrite Htitle. reflexivity.
Defined.

(** Two records of cycle 1: the cells of row 0 hold 3 + 2 and 1 + 0. *)
Lemma uncompressed_fold_cells_witness :
  exists data',
    populate_heatmap_from_uncompressed [(1, [3; 1]%N); (1, [2; 0]%N)]
      Sample.all_lanes (Sample.grid 1 2 [F32.zero; F32.zero]) = Ok data' /\
    heatmap_at data' (Some 0) (Some 0) = Ok (F32.of_N 5) /\
    heatmap_at data' (Some 0) (Some 1) = Ok (F32.of_N 1).
Proof.
  destruct (uncompressed_fold_cells [(1, [3; 1]%N); (1, [2; 0]%N)]
              Sample.all_lanes (Sample.grid 1 2 [F32.zero; F32.zero]))
    as (data' & Hrun & _ & _ & Hcells).
  - reflexivity.
  - intros x Hx. cbn in Hx. in_case Hx; reflexivity.
  - intros b Hb _. in_case Hb; cbn; lia.
  - intros r c. destruct r as [|r]; [destruct c as [|[|c]] | ];
      vm_compute; discriminate.
  - exists data'. split; [exact Hrun | ].
    split; apply Hcells; cbn; lia.
Defined.

(** One record over two bins: the counts go to the columns of the bin
    values, 0 and 2. *)
Lemma compressed_fold_cells_witness :
  exists data',
    populate_heatmap_from_compressed [(1, [3; 1]%N)] Cases.two_bins
      Sample.all_lanes (Sample.grid 1 4 (replicate 4 F32.zero)) = Ok data' /\
    heatmap_at data' (Some 0) (Some 0) = Ok (F32.of_N 3) /\
    heatmap_at data' (Some 0) (Some 1) = Ok (F32.of_N 0) /\
    heatmap_at data' (Some 0) (Some 2) = Ok (F32.of_N 1).
Proof.
  destruct (compressed_fold_cells [(1, [3; 1]%N)] Cases.two_bins
              Sample.all_lanes (Sample.grid 1 4 (replicate 4 F32.zero)))
    as (data' & Hrun & _ & _ & Hcells).
  - reflexivity.
  - intros x Hx. cbn in Hx. in_case Hx; reflexivity.
  - intros q Hq. in_case Hq; cbn; lia.
  - intros b Hb _. in_case Hb; cbn; lia.
  - intros r c. destruct r as [|r]; [destruct c as [|[|[|c]]] | ];
      vm_compute; discriminate.
  - exists data'. split; [exact Hrun | ].
    repeat split; apply Hcells; cbn; lia.
Defined.

(** Two records in either order. *)
Lemma heatmap_fold_record_order_witness :
  exists data',
    populate_heatmap_from_uncompressed [(1, [3; 1]%N); (2, [2; 0]%N)]
      Sample.all_lanes (Sample.grid 2 2 (replicate 4 F32.zero)) = Ok data' /\
    populate_heatmap_from_uncompressed [(2, [2; 0]%N); (1, [3; 1]%N)]
      Sample.all_lanes (Sample.grid 2 2 (replicate 4 F32.zero)) = Ok data'.
Proof.
  destruct (heatmap_fold_record_order
              [(1, [3; 1]%N); (2, [2; 0]%N)] [(2, [2; 0]%N); (1, [3; 1]%N)]
              [] Sample.all_lanes (Sample.grid 2 2 (replicate 4 F32.zero)))
    as [_ Huncompressed].
  - apply perm_swap.
  - reflexivity.
  - intros x Hx. cbn in Hx. in_case Hx; reflexivity.
  - intros b Hb _. in_case Hb; cbn; lia.
  - apply Huncompressed.
    + intros b Hb _. in_case Hb; cbn; lia.
    + intros r c. destruct r as [|[|r]]; destruct c as [|[|c]];
        vm_compute; discriminate.
Defined.

Lemma heatmap_fold_nonneg_witness :
  exists data',
    populate_heatmap_from_uncompressed [(1, [3; 1]%N); (2, [2; 0]%N)]
      Sample.all_lanes (Sample.grid 2 2 (replicate 4 F32.zero)) = Ok data' /\
    well_formed data' /\
    forall x, x ∈ cells data' ->
      F32.leb F32.zero x = true /\ F32.isnan x = false.
Proof.
  destruct (heatmap_fold_nonneg [(1, [3; 1]%N); (2, [2; 0]%N)] []
              Sample.all_lanes (Sample.grid 2 2 (replicate 4 F32.zero)))
    as [_ Huncompressed].
  - reflexivity.
  - intros x Hx. cbn in Hx. in_case Hx; reflexivity.
  - intros b Hb _. in_case Hb; cbn; lia.
  - apply Huncompressed. intros b Hb _. in_case Hb; cbn; lia.
Defined.

(** A record of cycle 0 reaches past the grid. *)
Lemma heatmap_fold_out_of_range_witness :
  populate_heatmap_from_compressed [(0, [1%N])] Cases.two_bins
    Sample.all_lanes (Sample.grid 1 4 (replicate 4 F32.zero))
  = Err IndexOutOfBounds /\
  populate_heatmap_from_uncompressed [(0, [1%N])]
    Sample.all_lanes (Sample.grid 1 4 (replicate 4 F32.zero))
  = Err IndexOutOfBounds.
Proof.
  destruct (heatmap_fold_out_of_range [(0, [1%N])] Cases.two_bins
              Sample.all_lanes (Sample.grid 1 4 (replicate 4 F32.zero))
              (0, [1%N]))
    as [Hcompressed Huncompressed].
  - apply list_elem_of_here.
  - reflexivity.
  - left. reflexivity.
  - split; [apply Hcompressed | apply Huncompressed]; discriminate.
Defined.

Lemma normalize_heatmap_all_zero_witness :
  exists d',
    normalize_heatmap (Sample.grid 1 2 [F32.zero; F32.zero]) = Ok d' /\
    heatmap_at d' (Some 0) (Some 1) = Ok S754_nan.
Proof.
  destruct (normalize_heatmap_all_zero (Sample.grid 1 2 [F32.zero; F32.zero]))
    as (d' & Hrun & _ & _ & _ & Hcells).
  - reflexivity.
  - intros x Hx. cbn in Hx. in_case Hx; reflexivity.
  - exists d'. split; [exact Hrun | ]. apply Hcells; cbn; lia.
Defined.

(** Two rows, one cycle: row 1 keeps its cells. *)
Lemma remap_to_bins_untouched_witness :
  exists data',
    remap_to_bins Cases.two_bins 1
      (Sample.grid 2 4 (map F32.of_Z [1; 2; 3; 4; 5; 6; 7; 8]%Z)) = Ok data' /\
    heatmap_at data' (Some 1) (Some 1) = Ok (F32.of_Z 6).
Proof.
  destruct (remap_to_bins_untouched Cases.two_bins 1
              (Sample.grid 2 4 (map F32.of_Z [1; 2; 3; 4; 5; 6; 7; 8]%Z)))
    as (data' & Hrun & _ & _ & _ & _ & Hkeep & _).
  - reflexivity.
  - cbn. lia.
  - intros q Hq. in_case Hq; cbn; lia.
  - apart_bins.
  - exists data'. split; [exact Hrun | ].
    rewrite Hkeep; [reflexivity | cbn; lia | cbn; lia | left; lia].
Defined.

Lemma remap_to_bins_idempotent_witness :
  exists data',
    remap_to_bins Cases.two_bins 2
      (Sample.grid 2 4 (map F32.of_Z [1; 2; 3; 4; 5; 6; 7; 8]%Z)) = Ok data' /\
    remap_to_bins Cases.two_bins 2 data' = Ok data'.
Proof.
  apply (remap_to_bins_idempotent Cases.two_bins 2 (Sample.grid 2 4 _)).
  - reflexivity.
  - cbn. lia.
  - intros q Hq. in_case Hq; cbn; lia.
  - apart_bins.
Defined.

(** A bin whose value is 0 stands for the column before the first. *)
Lemma remap_to_bins_zero_value_witness :
  remap_to_bins [ {| lower := 1; upper := 2; value := 0 |} ] 1
    (Sample.grid 1 2 [F32.zero; F32.zero])
  = Err IndexOutOfBounds.
Proof.
  apply (remap_to_bins_zero_value _ 1 _ {| lower := 1; upper := 2; value := 0 |}).
  - apply list_elem_of_here.
  - reflexivity.
  - cbn. lia.
  - lia.
Defined.

Lemma heatmap_inputs_fit_binned_q :
  heatmap_inputs_fit Cases.binned_q Sample.all_lanes.
Proof.
  split; [cbn; lia | ]. split; [cbn; lia | ]. split; [ | split].
  - intros b Hb _. in_case Hb; cbn; lia.
  - intros q Hq. in_case Hq; cbn; lia.
  - apart_bins.
Defined.

Lemma populate_heatmap_dimensions_witness :
  exists d',
    populate_heatmap Cases.binned_q Sample.all_lanes
      (Sample.grid 0 0 []) = Ok d' /\
    row_count d' = 1 /\ column_count d' = 4 /\ well_formed d'.
Proof.
  destruct (populate_heatmap_dimensions Cases.binned_q Sample.all_lanes
              (Sample.grid 0 0 []) heatmap_inputs_fit_binned_q)
    as (d' & Hrun & HR & HC & Hwf & _).
  exists d'. repeat split; assumption.
Defined.

(** The counts 3 and 1 of the two bins: 100 over the scores 1 to 2 and
    100 / 3 over the scores 3 to 4. *)
Lemma populate_heatmap_cells_witness :
  exists d',
    populate_heatmap Cases.binned_q Sample.all_lanes
      (heatmap_clear (Sample.grid 0 0 [])) = Ok d' /\
    heatmap_at d' (Some 0) (Some 0) = Ok (F32.of_Z 100) /\
    heatmap_at d' (Some 0) (Some 1) = Ok (F32.of_Z 100) /\
    heatmap_at d' (Some 0) (Some 3)
    = Ok (F32.div (F32.of_Z 100) (F32.of_Z 3)).
Proof.
  destruct (populate_heatmap_cells Cases.binned_q Sample.all_lanes
              (Sample.grid 0 0 []) heatmap_inputs_fit_binned_q)
    as (d' & top & Hrun & Hupper & Hattained & Hcells & _).
  - intros r c. destruct r as [|r]; [destruct c as [|[|[|c]]] | ];
      vm_compute; discriminate.
  - assert (Htop : top = 3%N).
    { assert (Hle : (3 <= top)%N) by (apply (Hupper 0 0); cbn; lia).
      destruct Hattained as (r & c & Hr & Hc & Heq). cbn in Hr, Hc.
      destruct r as [|r]; [ | lia].
      destruct c as [|[|[|[|c]]]]; try lia; vm_compute in Heq;
        subst top; try reflexivity; exfalso; apply Hle; reflexivity. }
    subst top. exists d'. split; [exact Hrun | ].
    repeat split; (rewrite Hcells by (cbn; lia)); reflexivity.
Defined.

(** The same set under a filter that lets nothing pass. *)
Lemma populate_heatmap_none_pass_witness :
  exists d',
    @populate_heatmap _ _ Sample.q_record (Cases.pass_none _)
      Sample.q_set_helpers Cases.binned_q Sample.all_lanes
      (heatmap_clear (Sample.grid 0 0 [])) = Ok d' /\
    row_count d' = 1 /\ column_count d' = 4 /\
    forall r c, r < 1 -> c < 4 ->
      heatmap_at d' (Some r) (Some c) = Ok S754_nan.
Proof.
  apply (@populate_heatmap_none_pass _ _ Sample.q_record (Cases.pass_none _)
           Sample.q_set_helpers Cases.binned_q Sample.all_lanes
           (Sample.grid 0 0 [])).
  - split; [cbn; lia | ]. split; [cbn; lia | ]. split; [ | split].
    + intros b Hb Hvalid. discriminate Hvalid.
    + intros q Hq. in_case Hq; cbn; lia.
    + apart_bins.
  - intros b Hb. reflexivity.
Defined.

(** A surface selector on run metrics whose q-metric set has one cycle
    and two scores. *)
Lemma plot_qscore_heatmap_axes_witness :
  exists grid d,
    populate_heatmap Sample.one_q Cases.surface_1
      (heatmap_clear (Sample.grid 0 0 [])) = Ok grid /\
    snd (plot_qscore_heatmap Cases.surface_run Cases.surface_1
           (Sample.grid 0 0 [])) = Ok d /\
    cells d = cells grid /\
    heat_x_range d = (F32.of_Z 0, F32.of_nat 1) /\
    heat_y_range d = (F32.of_Z 0, F32.of_nat 2) /\
    heat_x_label d = "Cycle"%string /\ heat_y_label d = "Q Score"%string.
Proof.
  destruct (plot_qscore_heatmap_axes Cases.surface_run Cases.surface_1
              (Sample.grid 0 0 [])) as [Hsurface _].
  destruct Hsurface as (grid & d & Hgrid & Hrun & Hcells & _ & _ & Hx & Hy
                        & Hxl & Hyl).
  - reflexivity.
  - cbn. lia.
  - split; [cbn; lia | ]. split; [cbn; lia | ]. split; [ | split].
    + intros b Hb _. in_case Hb; cbn; lia.
    + intros q Hq. inversion Hq.
    + intros i j qi qj c _ Hi. cbn in Hi. discriminate.
  - exists grid, d. repeat split; assumption.
Defined.

(** A folder without its [RunInfo.xml]: exit code 5 and one line. *)
Lemma read_run_metrics_handlers_witness :
  snd (read_run_metrics "nowhere"%string 0) = Returns 5%Z /\
  snd (fst (read_run_metrics "nowhere"%string 0))
  = ["RunInfo.xml not found"%string].
Proof.
  destruct (read_run_metrics_handlers "nowhere"%string 0
              "RunInfo.xml not found"%string)
    as (_ & Hmissing & _ & _ & _ & Hline).
  - reflexivity.
  - split; [apply Hmissing; reflexivity | ].
    apply Hline. right. left. reflexivity.
Defined.

(** One record with 2^24 reads at each of two scores: the cells sum to
    2^25. *)
Lemma heatmap_fold_conserves_witness :
  (exists data',
     populate_heatmap_from_compressed [(1, [16777216; 16777216]%N)]
       [ {| lower := 1; upper := 1; value := 1 |};
         {| lower := 2; upper := 2; value := 2 |} ]
       Sample.all_lanes (Sample.grid 1 2 [F32.zero; F32.zero]) = Ok data' /\
     grid_sum data' = Some 33554432%Z) /\
  (exists data',
     populate_heatmap_from_uncompressed [(1, [16777216; 16777216]%N)]
       Sample.all_lanes (Sample.grid 1 2 [F32.zero; F32.zero]) = Ok data' /\
     grid_sum data' = Some 33554432%Z).
Proof.
  destruct (heatmap_fold_conserves [(1, [16777216; 16777216]%N)]
              [ {| lower := 1; upper := 1; value := 1 |};
                {| lower := 2; upper := 2; value := 2 |} ]
              Sample.all_lanes (Sample.grid 1 2 [F32.zero; F32.zero]))
    as [Hcompressed Huncompressed].
  - reflexivity.
  - intros x Hx. cbn in Hx. in_case Hx; reflexivity.
  - intros b Hb _. in_case Hb. cbn. lia.
  - split.
    + apply Hcompressed.
      * intros q Hq. in_case Hq; cbn; lia.
      * intros b Hb _. in_case Hb. reflexivity.
      * intros r c Hr Hc. cbn in Hr, Hc.
        destruct r as [|r]; [ | lia]. destruct c as [|[|c]]; try lia;
          vm_compute; discriminate.
    + apply Huncompressed.
      * intros b Hb _. in_case Hb. cbn. lia.
      * intros r c Hr Hc. cbn in Hr, Hc.
        destruct r as [|r]; [ | lia]. destruct c as [|[|c]]; try lia;
          vm_compute; discriminate.
Defined.

End FurtherSamples.
